(** * image-manager: device configuration builder, registry and downloader

    A shallow embedding of the TypeScript sources of [@arkts/image-manager]:
    - [devices/device.ts]        ([DeviceImpl]: [buildList], [buildIni],
                                  [toIniString], [deploy], [delete], [isDeployed]),
    - [images/image.ts]          ([ImageBase] getters),
    - [images/local-image.ts]    ([LocalImageImpl.getDevices] and helpers),
    - [screens/*.ts]             ([ScreenImpl], [ProductPresetImpl]),
    - [image-downloader.ts]      ([ImageDownloaderImpl.startDownload]).

    Conventions of the embedding:
    - a JavaScript [string | undefined] is an [option string];
    - a JavaScript object used as an ordered mapping is a [JsObject.t], which
      keeps the enumeration order of [Object.entries];
    - [async] functions run sequentially: they are functions of the world
      (file system, random source, network) that return an outcome and the
      new world; a thrown exception is the outcome [Throw];
    - paths follow the POSIX flavour of [node:path], the working directory
      being the root. *)

From Stdlib Require Import String Ascii List Bool Arith NArith ZArith Lia.
From Stdlib Require Import DecimalString.
Import ListNotations.
Open Scope list_scope.
Open Scope string_scope.

Set Implicit Arguments.

(** ** Strings *)

Module Str.

(** [s.split(sep)] for a one-character separator. *)
Fixpoint split (sep : ascii) (s : string) : list string :=
  match s with
  | EmptyString => [EmptyString]
  | String c s' =>
      if Ascii.eqb c sep then EmptyString :: split sep s'
      else match split sep s' with
           | [] => [String c EmptyString]
           | p :: ps => String c p :: ps
           end
  end.

(** [l.join(sep)]. *)
Definition join (sep : string) (l : list string) : string := String.concat sep l.

(** Membership of a character in a string. *)
Fixpoint mem (c : ascii) (s : string) : bool :=
  match s with
  | EmptyString => false
  | String c' s' => Ascii.eqb c' c || mem c s'
  end.

Definition lower_char (c : ascii) : ascii :=
  let n := N_of_ascii c in
  if (65 <=? n)%N && (n <=? 90)%N then ascii_of_N (n + 32) else c.

(** [s.toLowerCase()], on the ASCII letters. *)
Fixpoint toLowerCase (s : string) : string :=
  match s with
  | EmptyString => EmptyString
  | String c s' => String (lower_char c) (toLowerCase s')
  end.

(** Truthiness of a string: the empty string is falsy. *)
Definition truthy (s : string) : bool :=
  match s with EmptyString => false | _ => true end.

(** Truthiness of a [string | undefined]. *)
Definition truthy_opt (o : option string) : bool :=
  match o with Some s => truthy s | None => false end.

(** Decimal rendering of a non-negative integer, as in a template literal. *)
Definition of_N (n : N) : string := NilZero.string_of_uint (N.to_uint n).

Definition starts_with_sep (s : string) : bool :=
  match s with String "/" _ => true | _ => false end.

Fixpoint ends_with_sep (s : string) : bool :=
  match s with
  | EmptyString => false
  | String c EmptyString => Ascii.eqb c "/"
  | String _ s' => ends_with_sep s'
  end.

End Str.

(** ** [node:path], POSIX flavour *)

Module Path.

Definition sep : string := "/".

(** [normalizeString]: drops empty and [.] segments and resolves [..];
    [acc] is the stack of the segments kept so far, innermost first. *)
Fixpoint normalize_segments (allowAboveRoot : bool) (acc : list string)
    (segs : list string) : list string :=
  match segs with
  | [] => List.rev acc
  | s :: rest =>
      if (s =? "") || (s =? ".") then normalize_segments allowAboveRoot acc rest
      else if s =? ".." then
        match acc with
        | top :: acc' =>
            if top =? ".." then normalize_segments allowAboveRoot (s :: acc) rest
            else normalize_segments allowAboveRoot acc' rest
        | [] =>
            if allowAboveRoot then normalize_segments allowAboveRoot [s] rest
            else normalize_segments allowAboveRoot [] rest
        end
      else normalize_segments allowAboveRoot (s :: acc) rest
  end.

(** The segments of the absolute file a path denotes. *)
Definition segments (p : string) : list string :=
  normalize_segments false [] (Str.split "/" p).

Definition render (segs : list string) : string := "/" ++ Str.join "/" segs.

(** [path.resolve(a, b)]: [b] alone when it is absolute, otherwise [b]
    relative to [a]; the result is absolute and normalized. *)
Definition resolve (a b : string) : string :=
  if Str.starts_with_sep b then render (segments b)
  else render (segments (a ++ "/" ++ b)).

(** [path.normalize(p)]. *)
Definition normalize (p : string) : string :=
  match p with
  | EmptyString => "."
  | _ =>
      let isAbsolute := Str.starts_with_sep p in
      let trailingSeparator := Str.ends_with_sep p in
      let body :=
        Str.join "/" (normalize_segments (negb isAbsolute) [] (Str.split "/" p)) in
      match body with
      | EmptyString =>
          if isAbsolute then "/" else if trailingSeparator then "./" else "."
      | _ =>
          let body' := if trailingSeparator then body ++ "/" else body in
          if isAbsolute then "/" ++ body' else body'
      end
  end.

(** [path.join(a, b)]. *)
Definition join (a b : string) : string :=
  match a, b with
  | EmptyString, EmptyString => "."
  | EmptyString, _ => normalize b
  | _, EmptyString => normalize a
  | _, _ => normalize (a ++ "/" ++ b)
  end.

(** [path.basename(p)]: the last non-empty piece. *)
Definition basename (p : string) : string :=
  last (filter (fun s => negb (s =? "")) (Str.split "/" p)) "".

End Path.

(** ** JavaScript numbers

    [Number(s)], [n.toString()] and [n.toFixed(digits)] are taken as an
    interface: the development never computes with the floating-point
    values themselves. *)

Class JSNumber := {
  num : Type;
  Number : string -> num;
  toString : num -> string;
  toFixed : nat -> num -> string
}.

(** The whole numbers, enough for the literal scenarios: [Number] reads the
    digits in front of an optional fraction. *)
Module WholeNumber.

Definition digit (c : ascii) : option N :=
  let n := N_of_ascii c in
  if (48 <=? n)%N && (n <=? 57)%N then Some (n - 48)%N else None.

Fixpoint read (s : string) (acc : N) : N :=
  match s with
  | EmptyString => acc
  | String c s' =>
      match digit c with
      | Some d => read s' (acc * 10 + d)%N
      | None => acc
      end
  end.

Definition fraction (digits : nat) : string :=
  match digits with
  | O => ""
  | _ => "." ++ Str.join "" (repeat "0" digits)
  end.

#[export] Instance whole : JSNumber := {|
  num := N;
  Number := fun s => read s 0%N;
  toString := Str.of_N;
  toFixed := fun digits n => Str.of_N n ++ fraction digits
|}.

End WholeNumber.

(** ** JavaScript objects as ordered mappings

    [Object.entries] lists the array-index keys first, in ascending numeric
    order, and then the other keys in the order of their first insertion.
    Assigning to a key that is present keeps its position. *)

Module JsObject.

Fixpoint digits_value (s : string) (acc : N) : option N :=
  match s with
  | EmptyString => Some acc
  | String c s' =>
      match WholeNumber.digit c with
      | Some d => digits_value s' (acc * 10 + d)%N
      | None => None
      end
  end.

(** The array index a key denotes: a canonical decimal below [2^32 - 1]. *)
Definition array_index (k : string) : option N :=
  match k with
  | EmptyString => None
  | String "0" EmptyString => Some 0%N
  | String "0" _ => None
  | _ =>
      match digits_value k 0 with
      | Some n => if (n <? 4294967295)%N then Some n else None
      | None => None
      end
  end.

Section Objects.

Variable V : Type.

Record t : Type := mk {
  indexed : list (N * (string * V));
  named : list (string * V)
}.

Definition empty : t := mk [] [].

Fixpoint insert_index (n : N) (e : string * V) (l : list (N * (string * V)))
  : list (N * (string * V)) :=
  match l with
  | [] => [(n, e)]
  | (m, e') :: l' =>
      if (n <? m)%N then (n, e) :: l
      else if (n =? m)%N then (n, e) :: l'
      else (m, e') :: insert_index n e l'
  end.

Fixpoint upsert (k : string) (v : V) (l : list (string * V)) : list (string * V) :=
  match l with
  | [] => [(k, v)]
  | (k', v') :: l' =>
      if k =? k' then (k, v) :: l' else (k', v') :: upsert k v l'
  end.

(** [o[k] = v] *)
Definition set (k : string) (v : V) (o : t) : t :=
  match array_index k with
  | Some n => mk (insert_index n (k, v) (indexed o)) (named o)
  | None => mk (indexed o) (upsert k v (named o))
  end.

Fixpoint lookup_index (n : N) (l : list (N * (string * V))) : option V :=
  match l with
  | [] => None
  | (m, (_, v)) :: l' => if (n =? m)%N then Some v else lookup_index n l'
  end.

Fixpoint lookup (k : string) (l : list (string * V)) : option V :=
  match l with
  | [] => None
  | (k', v) :: l' => if k =? k' then Some v else lookup k l'
  end.

(** The own property [k] of [o], when it has one. *)
Definition get (k : string) (o : t) : option V :=
  match array_index k with
  | Some n => lookup_index n (indexed o)
  | None => lookup k (named o)
  end.

(** [Object.entries(o)] *)
Definition entries (o : t) : list (string * V) :=
  map snd (indexed o) ++ named o.

(** [Object.keys(o)] *)
Definition keys (o : t) : list string := map fst (entries o).

(** [k in o] *)
Definition has (k : string) (o : t) : bool :=
  match get k o with Some _ => true | None => false end.

(** An object literal [{ k1: v1, ..., kn: vn }], and the spread
    [{ ...o, ...src }] of the own properties of [src] over [o]. *)
Definition assign (o : t) (props : list (string * V)) : t :=
  fold_left (fun acc kv => set (fst kv) (snd kv) acc) props o.

Definition literal (props : list (string * V)) : t := assign empty props.

Definition spread (o src : t) : t := assign o (entries src).

End Objects.

Arguments empty {V}.
Arguments set {V} k v o.
Arguments get {V} k o.
Arguments has {V} k o.
Arguments entries {V} o.
Arguments keys {V} o.
Arguments assign {V} o props.
Arguments literal {V} props.
Arguments spread {V} o src.

End JsObject.

(** ** Data model *)

(** [ProductConfigItem] ([product-config.ts]); [devModel] is the optional
    field [buildList] reads. *)
Module ProductConfigItem.
Record t : Type := mk {
  name : string;
  screenWidth : string;
  screenHeight : string;
  screenDiagonal : string;
  screenDensity : string;
  outerScreenWidth : option string;
  outerScreenHeight : option string;
  outerScreenDiagonal : option string;
  outerDoubleScreenWidth : option string;
  outerDoubleScreenHeight : option string;
  outerDoubleScreenDiagonal : option string;
  devModel : option string;
  visible : bool
}.
End ProductConfigItem.

(** [ResolvedImageManagerOptions] ([options.ts]), the paths only: [fs],
    [path] and [crypto] are the world the functions below run in. *)
Module ManagerOptions.
Record t : Type := mk {
  imageBasePath : string;
  deployedPath : string;
  cachePath : string;
  sdkPath : string;
  configPath : string;
  logPath : string;
  emulatorPath : string
}.
End ManagerOptions.

(** The catalog entry an image is built from ([ImageBase.response]). *)
Module ImageResponse.
Record t : Type := mk {
  path : string;
  version : string;
  apiVersion : string;
  releaseType : string;
  checksum : string
}.
End ImageResponse.

(** [ImageBase] ([images/image.ts]). *)
Module Image.

Record t : Type := mk {
  response : ImageResponse.t;
  imageManager : ManagerOptions.t;
  resolvedFsPath : string
}.

Definition getPath (i : t) : string := ImageResponse.path (response i).
Definition getChecksum (i : t) : string := ImageResponse.checksum (response i).
Definition getReleaseType (i : t) : string := ImageResponse.releaseType (response i).
Definition getVersion (i : t) : string := ImageResponse.version (response i).
Definition getApiVersion (i : t) : string := ImageResponse.apiVersion (response i).
Definition getFsPath (i : t) : string := resolvedFsPath i.

(** [const [, systemNameWithVersion] = this.getPath()?.split(',') ?? []] *)
Definition systemNameWithVersion (i : t) : option string :=
  nth_error (Str.split "," (getPath i)) 1.

(** [const [,, deviceTypeWithArch] = this.getPath()?.split(',') ?? []] *)
Definition deviceTypeWithArch (i : t) : option string :=
  nth_error (Str.split "," (getPath i)) 2.

Definition getTargetOS (i : t) : string :=
  match systemNameWithVersion i with
  | Some x => nth 0 (Str.split "-" x) ""
  | None => ""
  end.

Definition getTargetVersion (i : t) : string :=
  match systemNameWithVersion i with
  | Some x => nth 1 (Str.split "-" x) ""
  | None => ""
  end.

Definition getDeviceType (i : t) : string :=
  match deviceTypeWithArch i with
  | Some x => nth 0 (Str.split "_" x) ""
  | None => ""
  end.

Definition getSnakecaseDeviceType (i : t) : string :=
  let deviceType := getDeviceType i in
  if deviceType =? "pc" then "2in1_foldable" else Str.toLowerCase deviceType.

(** [split[split.length - 1]], undefined when the path has no third piece. *)
Definition getArch (i : t) : option string :=
  match deviceTypeWithArch i with
  | Some x => Some (last (Str.split "_" x) "")
  | None => None
  end.

End Image.

(** [FullDeployedImageOptions]: one record of [lists.json], with the
    properties [buildList] writes. *)
Module FullDeployedImageOptions.
Record t : Type := mk {
  name : string;
  apiVersion : string;
  cpuNumber : string;
  diagonalSize : string;
  resolutionHeight : string;
  resolutionWidth : string;
  density : string;
  memoryRamSize : string;
  dataDiskSize : string;
  path : string;
  type : string;
  uuid : string;
  version : string;
  imageDir : string;
  showVersion : string;
  harmonyos_sdk_path : string;
  harmonyos_config_path : string;
  harmonyos_log_path : string;
  hw_apiName : string;
  abi : option string;
  harmonyOSVersion : string;
  guestVersion : string;
  devModel : option string;
  model : option string
}.

Definition set_devModel (l : t) (v : string) : t :=
  mk (name l) (apiVersion l) (cpuNumber l) (diagonalSize l) (resolutionHeight l)
     (resolutionWidth l) (density l) (memoryRamSize l) (dataDiskSize l) (path l)
     (type l) (uuid l) (version l) (imageDir l) (showVersion l)
     (harmonyos_sdk_path l) (harmonyos_config_path l) (harmonyos_log_path l)
     (hw_apiName l) (abi l) (harmonyOSVersion l) (guestVersion l)
     (Some v) (model l).

Definition set_model (l : t) (v : string) : t :=
  mk (name l) (apiVersion l) (cpuNumber l) (diagonalSize l) (resolutionHeight l)
     (resolutionWidth l) (density l) (memoryRamSize l) (dataDiskSize l) (path l)
     (type l) (uuid l) (version l) (imageDir l) (showVersion l)
     (harmonyos_sdk_path l) (harmonyos_config_path l) (harmonyos_log_path l)
     (hw_apiName l) (abi l) (harmonyOSVersion l) (guestVersion l)
     (devModel l) (Some v).
End FullDeployedImageOptions.

(** The configuration mapping: [Record<string, string | undefined>]. *)
Definition IniObject : Type := JsObject.t (option string).

(** What reading [ini[k]] evaluates to. *)
Definition ini_read (k : string) (ini : IniObject) : option string :=
  match JsObject.get k ini with
  | Some v => v
  | None => None
  end.

Section Devices.

Context {JN : JSNumber}.

(** [ScreenImpl] ([screens/screen.ts]). *)
Record Screen : Type := createScreen {
  getDiagonal : num;
  getDensity : num;
  getHeight : num;
  getWidth : num
}.

(** [ProductPresetImpl] ([screens/product-preset.ts]). *)
Record ProductPreset : Type := createProductPreset {
  getProductConfig : ProductConfigItem.t;
  getPresetDeviceType : string
}.

Definition toScreen (p : ProductPreset) : Screen :=
  let productConfig := getProductConfig p in
  {| getDiagonal := Number (ProductConfigItem.screenDiagonal productConfig);
     getDensity := Number (ProductConfigItem.screenDensity productConfig);
     getHeight := Number (ProductConfigItem.screenHeight productConfig);
     getWidth := Number (ProductConfigItem.screenWidth productConfig) |}.

(** [Screen | ProductPreset], told apart by [instanceof ProductPresetImpl]. *)
Inductive ScreenLike : Type :=
  | RawScreen (s : Screen)
  | Preset (p : ProductPreset).

(** [Device.Options] *)
Record DeviceOptions : Type := mkOptions {
  name : string;
  cpuNumber : num;
  diskSize : num;
  memorySize : num;
  screen : ScreenLike
}.

(** [Device.IniOptions] *)
Record IniOptions : Type := mkIniOptions {
  vendorCountry : option string;
  isPublic : option bool;
  overrides : option IniObject
}.

(** The default argument [options = {}] of [buildIni]. *)
Definition noIniOptions : IniOptions := mkIniOptions None None None.

(** [DeviceImpl] *)
Record DeviceImpl : Type := mkDevice {
  image : Image.t;
  options : DeviceOptions;
  uuid : string;
  cachedList : option FullDeployedImageOptions.t;
  cachedIni : option IniObject
}.

Definition getOptions (d : DeviceImpl) : DeviceOptions := options d.
Definition getImage (d : DeviceImpl) : Image.t := image d.
Definition getUuid (d : DeviceImpl) : string := uuid d.

Definition setUuid (u : string) (d : DeviceImpl) : DeviceImpl :=
  mkDevice (image d) (options d) u (cachedList d) (cachedIni d).

Definition setCachedList (l : FullDeployedImageOptions.t) (d : DeviceImpl) : DeviceImpl :=
  mkDevice (image d) (options d) (uuid d) (Some l) (cachedIni d).

Definition setCachedIni (ini : IniObject) (d : DeviceImpl) : DeviceImpl :=
  mkDevice (image d) (options d) (uuid d) (cachedList d) (Some ini).

Definition getScreen (d : DeviceImpl) : Screen :=
  match screen (options d) with
  | Preset p => toScreen p
  | RawScreen s => s
  end.

Definition buildList (d : DeviceImpl) : FullDeployedImageOptions.t :=
  match cachedList d with
  | Some l => l
  | None =>
      let o := Image.imageManager (image d) in
      let screen' := getScreen d in
      let i := image d in
      let list :=
        {| FullDeployedImageOptions.name := name (options d);
           FullDeployedImageOptions.apiVersion := Image.getApiVersion i;
           FullDeployedImageOptions.cpuNumber := toFixed 0 (cpuNumber (options d));
           FullDeployedImageOptions.diagonalSize := toFixed 2 (getDiagonal screen');
           FullDeployedImageOptions.resolutionHeight := toFixed 0 (getHeight screen');
           FullDeployedImageOptions.resolutionWidth := toFixed 0 (getWidth screen');
           FullDeployedImageOptions.density := toFixed 0 (getDensity screen');
           FullDeployedImageOptions.memoryRamSize := toFixed 0 (memorySize (options d));
           FullDeployedImageOptions.dataDiskSize := toFixed 0 (diskSize (options d));
           FullDeployedImageOptions.path :=
             Path.resolve (ManagerOptions.deployedPath o) (name (options d));
           FullDeployedImageOptions.type := Image.getSnakecaseDeviceType i;
           FullDeployedImageOptions.uuid := uuid d;
           FullDeployedImageOptions.version := Image.getVersion i;
           FullDeployedImageOptions.imageDir :=
             Str.join Path.sep (Str.split "," (Image.getPath i)) ++ Path.sep;
           FullDeployedImageOptions.showVersion :=
             Image.getTargetOS i ++ " " ++ Image.getTargetVersion i
               ++ "(" ++ Image.getApiVersion i ++ ")";
           FullDeployedImageOptions.harmonyos_sdk_path := ManagerOptions.imageBasePath o;
           FullDeployedImageOptions.harmonyos_config_path := ManagerOptions.configPath o;
           FullDeployedImageOptions.harmonyos_log_path := ManagerOptions.logPath o;
           FullDeployedImageOptions.hw_apiName := Image.getTargetVersion i;
           FullDeployedImageOptions.abi := Image.getArch i;
           FullDeployedImageOptions.harmonyOSVersion :=
             Image.getTargetOS i ++ "-" ++ Image.getTargetVersion i;
           FullDeployedImageOptions.guestVersion :=
             Image.getTargetOS i ++ " " ++ Image.getVersion i
               ++ "(" ++ Image.getReleaseType i ++ ")";
           FullDeployedImageOptions.devModel := None;
           FullDeployedImageOptions.model := None |} in
      match screen (options d) with
      | Preset p =>
          let productConfig := getProductConfig p in
          let list1 :=
            match ProductConfigItem.devModel productConfig with
            | Some m =>
                if Str.truthy m then FullDeployedImageOptions.set_devModel list m
                else list
            | None => list
            end in
          if Str.truthy (ProductConfigItem.name productConfig)
          then FullDeployedImageOptions.set_model list1 (ProductConfigItem.name productConfig)
          else list1
      | RawScreen _ => list
      end
  end.

(** [this.options.screen instanceof ProductPresetImpl ? this.options.screen : null] *)
Definition productPresetOf (d : DeviceImpl) : option ProductPreset :=
  match screen (options d) with
  | Preset p => Some p
  | RawScreen _ => None
  end.

(** [productConfig?.f], for an optional field [f]. *)
Definition field_of (productConfig : option ProductConfigItem.t)
    (f : ProductConfigItem.t -> option string) : option string :=
  match productConfig with
  | Some c => f c
  | None => None
  end.

(** [v != null] *)
Definition defined {A : Type} (v : option A) : bool :=
  match v with Some _ => true | None => false end.

(** [useDualScreen] of [buildIni]. *)
Definition useDualScreen (d : DeviceImpl) : bool :=
  let listConfig := buildList d in
  let is2in1Foldable := FullDeployedImageOptions.type listConfig =? "2in1_foldable" in
  let productConfig := option_map getProductConfig (productPresetOf d) in
  let hasOuterScreen :=
    is2in1Foldable
    && defined (field_of productConfig ProductConfigItem.outerScreenWidth)
    && defined (field_of productConfig ProductConfigItem.outerScreenHeight)
    && defined (field_of productConfig ProductConfigItem.outerScreenDiagonal) in
  hasOuterScreen.

(** The object literal of [buildIni], before the spread of the overrides. *)
Definition iniLiteral (d : DeviceImpl) (opts : IniOptions) : list (string * option string) :=
  let listConfig := buildList d in
  let screen' := getScreen d in
  let productPreset := productPresetOf d in
  let productConfig := option_map getProductConfig productPreset in
  let dual := useDualScreen d in
  let singleDiagonal :=
    if dual then field_of productConfig ProductConfigItem.outerScreenDiagonal
    else Some (toString (getDiagonal screen')) in
  let singleHeight :=
    if dual then field_of productConfig ProductConfigItem.outerScreenHeight
    else Some (toString (getHeight screen')) in
  let singleWidth :=
    if dual then field_of productConfig ProductConfigItem.outerScreenWidth
    else Some (toString (getWidth screen')) in
  let i := image d in
  [ ("name", Some (FullDeployedImageOptions.name listConfig));
    ("deviceType", Some (FullDeployedImageOptions.type listConfig));
    ("deviceModel", FullDeployedImageOptions.devModel listConfig);
    ("productModel", FullDeployedImageOptions.model listConfig);
    ("vendorCountry",
      Some (match vendorCountry opts with Some c => c | None => "CN" end));
    ("uuid", Some (uuid d));
    ("configPath", Some (FullDeployedImageOptions.harmonyos_config_path listConfig));
    ("logPath", Some (FullDeployedImageOptions.harmonyos_log_path listConfig));
    ("sdkPath", Some (FullDeployedImageOptions.harmonyos_sdk_path listConfig));
    ("imageSubPath", Some (FullDeployedImageOptions.imageDir listConfig));
    ("instancePath", Some (FullDeployedImageOptions.path listConfig));
    ("os.osVersion",
      Some (Image.getTargetOS i ++ " " ++ Image.getTargetVersion i
              ++ "(" ++ Image.getApiVersion i ++ ")"));
    ("os.apiVersion", Some (Image.getApiVersion i));
    ("os.softwareVersion", Some (Image.getVersion i));
    ("os.isPublic",
      Some (if match isPublic opts with Some b => b | None => true end
            then "true" else "false"));
    ("hw.cpu.arch", FullDeployedImageOptions.abi listConfig);
    ("hw.cpu.ncore", Some (FullDeployedImageOptions.cpuNumber listConfig));
    ("hw.lcd.density", Some (toFixed 0 (getDensity screen')));
    ("hw.lcd.single.diagonalSize", singleDiagonal);
    ("hw.lcd.single.height", singleHeight);
    ("hw.lcd.single.width", singleWidth);
    ("hw.lcd.number", Some (if dual then "2" else "1"));
    ("hw.ramSize", Some (FullDeployedImageOptions.memoryRamSize listConfig));
    ("hw.dataPartitionSize", Some (FullDeployedImageOptions.dataDiskSize listConfig));
    ("isCustomize", Some (if defined productPreset then "false" else "true"));
    ("hw.hdc.port", Some "notset") ].

(** The assignments [buildIni] makes after the literal: the [hw.lcd.double.*]
    triple in dual-screen mode, the [hw.phy.*] pair for a preset otherwise. *)
Definition iniLateAssignments (d : DeviceImpl) : list (string * option string) :=
  let productPreset := productPresetOf d in
  let productConfig := option_map getProductConfig productPreset in
  let dual := useDualScreen d in
  let doubleDiagonal :=
    if dual then option_map ProductConfigItem.screenDiagonal productConfig else None in
  let doubleHeight :=
    if dual then option_map ProductConfigItem.screenHeight productConfig else None in
  let doubleWidth :=
    if dual then option_map ProductConfigItem.screenWidth productConfig else None in
  (if dual && defined doubleDiagonal && defined doubleHeight && defined doubleWidth
   then [ ("hw.lcd.double.diagonalSize", doubleDiagonal);
          ("hw.lcd.double.height", doubleHeight);
          ("hw.lcd.double.width", doubleWidth) ]
   else [])
  ++
  (match productConfig with
   | Some c =>
       if negb dual then
         (if Str.truthy_opt (ProductConfigItem.outerScreenHeight c)
          then [("hw.phy.height", ProductConfigItem.outerScreenHeight c)] else [])
         ++
         (if Str.truthy_opt (ProductConfigItem.outerScreenWidth c)
          then [("hw.phy.width", ProductConfigItem.outerScreenWidth c)] else [])
       else []
   | None => []
   end)%list.

Definition buildIni (d : DeviceImpl) (opts : IniOptions) : IniObject :=
  match cachedIni d with
  | Some ini => ini
  | None =>
      let ini := JsObject.literal (iniLiteral d opts) in
      let ini :=
        match overrides opts with
        | Some ov => JsObject.spread ini ov
        | None => ini
        end in
      JsObject.assign ini (iniLateAssignments d)
  end.

End Devices.

(** ** The world: errors, files, random source, network *)

(** [DeployError.Code] ([errors/deploy-error.ts]). *)
Inductive DeployErrorCode : Type :=
  | DEVICE_ALREADY_DEPLOYED
  | LIST_JSON_NOT_AN_ARRAY
  | CATCHED_ERROR
  | MAYBE_OPENED_DEVICE_MANAGER_IN_DEVECO_STUDIO
  | SYMLINK_SDK_PATH_EXISTS.

(** What a function can throw. *)
Inductive exn : Type :=
  | DeployError (code : DeployErrorCode) (message : string)
  | PlainError (message : string)
  | TypeError (message : string)
  | SyntaxError
  | SystemError (code : string)
  | AxiosError (status : option N)
  | StreamError.

(** What [JSON.parse] makes of a registry file, as far as the code tells
    the cases apart: [null], an array of records, or any other value
    (an object, a number, a string, a boolean). *)
Inductive json : Type :=
  | JNull
  | JArray (items : list FullDeployedImageOptions.t)
  | JOther.

(** The text of a file: [JsonText j] is any text that parses to [j]
    (the output of [JSON.stringify]); [Raw] is text that is no JSON. *)
Inductive content : Type :=
  | Raw (text : string)
  | JsonText (j : json).

Inductive node : Type :=
  | File (c : content)
  | Dir.

(** The file system maps the segments of an absolute path to a node. *)
Definition FS : Type := list string -> option node.

Definition segments_eqb (p q : list string) : bool :=
  if list_eq_dec string_dec p q then true else false.

Fixpoint is_prefix (p q : list string) : bool :=
  match p, q with
  | [], _ => true
  | _ :: _, [] => false
  | a :: p', b :: q' => (a =? b) && is_prefix p' q'
  end.

Definition fs_lookup (fs : FS) (p : list string) : option node :=
  match p with
  | [] => Some Dir
  | _ => fs p
  end.

Definition fs_put (p : list string) (n : node) (fs : FS) : FS :=
  fun q => if segments_eqb q p then Some n else fs q.

Definition fs_remove_tree (p : list string) (fs : FS) : FS :=
  fun q => if is_prefix p q then None else fs q.

Definition fs_empty : FS := fun _ => None.

(** A request as [axios.get] sends it, and what comes back: no response at
    all, or a status with the chunks of the body; [complete] tells whether
    the body stream ends or fails after the chunks. *)
Record Request : Type := mkRequest {
  url : string;
  headers : list (string * string)
}.

Inductive Reply : Type :=
  | NetworkFailure
  | Response (status : N) (chunks : list string) (complete : bool).

Record World : Type := mkWorld {
  fs : FS;
  uuids : nat -> string;
  drawn : nat;
  http : Request -> Reply;
  sent : list Request
}.

Definition with_fs (w : World) (f : FS) : World :=
  mkWorld f (uuids w) (drawn w) (http w) (sent w).

Inductive outcome (A : Type) : Type :=
  | Return (a : A)
  | Throw (e : exn).

Arguments Return {A} a.
Arguments Throw {A} e.

(** A computation of the program. *)
Definition M (A : Type) : Type := World -> outcome A * World.

Definition ret {A : Type} (a : A) : M A := fun w => (Return a, w).

Definition throw {A : Type} (e : exn) : M A := fun w => (Throw e, w).

Definition bind {A B : Type} (m : M A) (k : A -> M B) : M B :=
  fun w =>
    match m w with
    | (Return a, w') => k a w'
    | (Throw e, w') => (Throw e, w')
    end.

Notation "x <- m ;; k" := (bind m (fun x => k))
  (at level 61, m at next level, right associativity).
Notation "m ;;; k" := (bind m (fun _ => k))
  (at level 61, right associativity).

(** [if (c) stmt] *)
Definition when (c : bool) (m : M unit) : M unit := if c then m else ret tt.

(** *** [node:fs] *)

Definition exists_in (f : FS) (p : string) : bool :=
  match p with
  | EmptyString => false
  | _ => defined (fs_lookup f (Path.segments p))
  end.

Definition existsSync (p : string) : M bool :=
  fun w => (Return (exists_in (fs w) p), w).

Definition statSync (p : string) : M node :=
  fun w =>
    match p with
    | EmptyString => (Throw (SystemError "ENOENT"), w)
    | _ =>
        match fs_lookup (fs w) (Path.segments p) with
        | Some n => (Return n, w)
        | None => (Throw (SystemError "ENOENT"), w)
        end
    end.

Definition isFile (n : node) : bool :=
  match n with File _ => true | Dir => false end.

Definition isDirectory (n : node) : bool :=
  match n with File _ => false | Dir => true end.

Definition readFileSync (p : string) : M content :=
  fun w =>
    match p with
    | EmptyString => (Throw (SystemError "ENOENT"), w)
    | _ =>
        match fs_lookup (fs w) (Path.segments p) with
        | Some (File c) => (Return c, w)
        | Some Dir => (Throw (SystemError "EISDIR"), w)
        | None => (Throw (SystemError "ENOENT"), w)
        end
    end.

(** Writing needs the parent directory; it replaces a file, never a directory. *)
Definition fs_write (p : string) (c : content) (f : FS) : exn + FS :=
  match p with
  | EmptyString => inl (SystemError "ENOENT")
  | _ =>
      let s := Path.segments p in
      match s with
      | [] => inl (SystemError "EISDIR")
      | _ =>
          match fs_lookup f (removelast s) with
          | Some Dir =>
              match fs_lookup f s with
              | Some Dir => inl (SystemError "EISDIR")
              | _ => inr (fs_put s (File c) f)
              end
          | Some (File _) => inl (SystemError "ENOTDIR")
          | None => inl (SystemError "ENOENT")
          end
      end
  end.

Definition lift_fs (step : FS -> exn + FS) : M unit :=
  fun w =>
    match step (fs w) with
    | inr f => (Return tt, with_fs w f)
    | inl e => (Throw e, w)
    end.

Definition writeFileSync (p : string) (c : content) : M unit :=
  lift_fs (fs_write p c).

(** [mkdir -p]: walks down from the root, creating what is missing. *)
Fixpoint mkdirp (f : FS) (done rest : list string) : exn + FS :=
  match rest with
  | [] => inr f
  | s :: rest' =>
      let here := (done ++ [s])%list in
      match fs_lookup f here with
      | Some Dir => mkdirp f here rest'
      | Some (File _) =>
          inl (SystemError (match rest' with [] => "EEXIST" | _ => "ENOTDIR" end))
      | None => mkdirp (fs_put here Dir f) here rest'
      end
  end.

(** [fs.mkdirSync(p, { recursive: true })] *)
Definition mkdirSync_recursive (p : string) : M unit :=
  lift_fs (fun f =>
    match p with
    | EmptyString => inl (SystemError "ENOENT")
    | _ => mkdirp f [] (Path.segments p)
    end).

(** [fs.rmSync(p, { recursive, force })] *)
Definition rmSync (p : string) (recursive force : bool) : M unit :=
  lift_fs (fun f =>
    match (match p with
           | EmptyString => None
           | _ => fs_lookup f (Path.segments p)
           end) with
    | None => if force then inr f else inl (SystemError "ENOENT")
    | Some Dir =>
        if recursive then inr (fs_remove_tree (Path.segments p) f)
        else inl (SystemError "ERR_FS_EISDIR")
    | Some (File _) => inr (fs_remove_tree (Path.segments p) f)
    end).

(** *** [JSON] *)

Definition JSON_parse (c : content) : M json :=
  match c with
  | JsonText j => ret j
  | Raw _ => throw SyntaxError
  end.

Definition JSON_stringify (lists : list FullDeployedImageOptions.t) : content :=
  JsonText (JArray lists).

(** [JSON.parse(...) ?? []] *)
Definition orEmptyArray (j : json) : json :=
  match j with
  | JNull => JArray []
  | _ => j
  end.

(** *** [crypto.randomUUID()] *)

Definition randomUUID : M string :=
  fun w => (Return (uuids w (drawn w)),
            mkWorld (fs w) (uuids w) (S (drawn w)) (http w) (sent w)).

(** ** The registry operations of [DeviceImpl] *)

Definition LF : string := String (ascii_of_nat 10) EmptyString.

(** [`${key}=${value}`] *)
Definition iniLine (kv : string * option string) : string :=
  fst kv ++ "=" ++ match snd kv with Some v => v | None => "undefined" end.

(** The text [toIniString] makes of a mapping. *)
Definition iniText (ini : IniObject) : string :=
  Str.join LF (map iniLine (filter (fun kv => defined (snd kv)) (JsObject.entries ini)))
    ++ LF.

Section Registry.

Context {JN : JSNumber}.

(** [new DeviceImpl(image, options)] *)
Definition newDevice (i : Image.t) (o : DeviceOptions) : M DeviceImpl :=
  u <- randomUUID ;;
  ret (mkDevice i o u None None).

Definition createDevice (i : Image.t) (o : DeviceOptions) : M DeviceImpl :=
  newDevice i o.

Definition toIniString (d : DeviceImpl) : string :=
  iniText (buildIni d noIniOptions).

Definition deployedPathOf (d : DeviceImpl) : string :=
  ManagerOptions.deployedPath (Image.imageManager (image d)).

Definition listsPathOf (d : DeviceImpl) : string :=
  Path.join (deployedPathOf d) "lists.json".

Definition isDeployed (d : DeviceImpl) : M bool :=
  let listsPath := listsPathOf d in
  present <- existsSync listsPath ;;
  if negb present then ret false else
  st <- statSync listsPath ;;
  if negb (isFile st) then ret false else
  text <- readFileSync listsPath ;;
  parsed <- JSON_parse text ;;
  match orEmptyArray parsed with
  | JArray lists =>
      fun w =>
        (Return
           (existsb
              (fun item =>
                 (FullDeployedImageOptions.name item =? name (options d))
                 && exists_in (fs w)
                      (Path.resolve (FullDeployedImageOptions.path item) "config.ini"))
              lists), w)
  | _ => throw (TypeError "lists.some is not a function")
  end.

Definition deploy (d : DeviceImpl) : M unit :=
  deployed <- isDeployed d ;;
  if deployed then ret tt else
  let deployedPath := deployedPathOf d in
  present <- existsSync deployedPath ;;
  when (negb present) (mkdirSync_recursive deployedPath) ;;;
  let listsPath := Path.join deployedPath "lists.json" in
  let listConfig := buildList d in
  targetPresent <- existsSync (FullDeployedImageOptions.path listConfig) ;;
  if targetPresent then
    throw (DeployError DEVICE_ALREADY_DEPLOYED
             ("Image " ++ FullDeployedImageOptions.name listConfig ++ " already deployed"))
  else
  listsPresent <- existsSync listsPath ;;
  if negb listsPresent then
    writeFileSync listsPath (JSON_stringify [listConfig])
  else
  text <- readFileSync listsPath ;;
  parsed <- JSON_parse text ;;
  match orEmptyArray parsed with
  | JArray lists =>
      match find (fun item => FullDeployedImageOptions.name item
                                =? FullDeployedImageOptions.name listConfig) lists with
      | Some _ =>
          throw (DeployError DEVICE_ALREADY_DEPLOYED
                   ("Image " ++ FullDeployedImageOptions.name listConfig
                      ++ " already deployed in lists.json"))
      | None =>
          writeFileSync listsPath (JSON_stringify (lists ++ [listConfig])%list) ;;;
          mkdirSync_recursive (FullDeployedImageOptions.path listConfig) ;;;
          writeFileSync (Path.join (FullDeployedImageOptions.path listConfig) "config.ini")
            (Raw (toIniString d))
      end
  | _ => throw (DeployError LIST_JSON_NOT_AN_ARRAY "Lists is not an array")
  end.

(** [lists.splice(lists.findIndex(p), 1)], when some item satisfies [p]. *)
Fixpoint spliceFirst {A : Type} (p : A -> bool) (l : list A) : option (list A) :=
  match l with
  | [] => None
  | x :: l' =>
      if p x then Some l'
      else match spliceFirst p l' with
           | Some r => Some (x :: r)
           | None => None
           end
  end.

Definition delete (d : DeviceImpl) : M unit :=
  let listsPath := listsPathOf d in
  present <- existsSync listsPath ;;
  if negb present then throw (PlainError "Lists file not found") else
  st <- statSync listsPath ;;
  if negb (isFile st) then throw (PlainError "Lists file not found") else
  text <- readFileSync listsPath ;;
  parsed <- JSON_parse text ;;
  match orEmptyArray parsed with
  | JArray lists =>
      match spliceFirst
              (fun item => FullDeployedImageOptions.name item =? name (options d))
              lists with
      | None => throw (PlainError ("Device " ++ name (options d) ++ " not found"))
      | Some rest =>
          writeFileSync listsPath (JSON_stringify rest) ;;;
          rmSync (Path.resolve (FullDeployedImageOptions.path (buildList d)) "") true false
      end
  | _ => throw (TypeError "lists.findIndex is not a function")
  end.

End Registry.

(** ** [LocalImageImpl]: the devices of the registry *)

(** [ProductConfig]: the product presets of each device type. *)
Definition ProductConfig : Type := list (string * list ProductConfigItem.t).

Section LocalImage.

Context {JN : JSNumber}.

(** The [ini] package, the bundled [default-product-config] and the typed
    reading of [productConfig.json] are taken as given. *)
Variable INI_parse : content -> IniObject.
Variable default_product_config : ProductConfig.
Variable parseProductConfig : content -> exn + ProductConfig.

(** [ImageManagerImpl.getProductConfig] ([image-manager.ts]). *)
Definition managerGetProductConfig (o : ManagerOptions.t) : M ProductConfig :=
  let productConfigPath := Path.resolve (ManagerOptions.imageBasePath o) "productConfig.json" in
  present <- existsSync productConfigPath ;;
  if negb present then ret default_product_config else
  st <- statSync productConfigPath ;;
  if negb (isFile st) then ret default_product_config else
  text <- readFileSync productConfigPath ;;
  match parseProductConfig text with
  | inr c => ret c
  | inl e => throw e
  end.

(** [productConfig[key] ?? []] *)
Definition presetsOf (c : ProductConfig) (key : string) : list ProductConfigItem.t :=
  match find (fun kv => fst kv =? key) c with
  | Some kv => snd kv
  | None => []
  end.

Definition pascalCaseDeviceTypes : list string :=
  ["phone"; "tablet"; "2in1"; "foldable"; "widefold"; "triplefold";
   "2in1 foldable"; "tv"; "wearable"].

Definition getPascalCaseDeviceType (i : Image.t) : option string :=
  let deviceType := Str.toLowerCase (Image.getDeviceType i) in
  if negb (Str.truthy deviceType) then None
  else if deviceType =? "pc" then Some "2in1 Foldable"
  else find (fun key => key =? deviceType) pascalCaseDeviceTypes.

(** [LocalImageImpl.getProductConfig()] *)
Definition imageGetProductConfig (i : Image.t) : M (list ProductConfigItem.t) :=
  productConfig <- managerGetProductConfig (Image.imageManager i) ;;
  let deviceType := Str.toLowerCase (Image.getDeviceType i) in
  if negb (Str.truthy deviceType) then ret []
  else if deviceType =? "pc" then ret (presetsOf productConfig "2in1 Foldable")
  else
    match find (fun key => Str.toLowerCase key =? deviceType) (map fst productConfig) with
    | Some key => ret (presetsOf productConfig key)
    | None => ret []
    end.

Definition screenOfItem (item : FullDeployedImageOptions.t) : ScreenLike :=
  RawScreen
    {| getDiagonal := Number (FullDeployedImageOptions.diagonalSize item);
       getHeight := Number (FullDeployedImageOptions.resolutionHeight item);
       getWidth := Number (FullDeployedImageOptions.resolutionWidth item);
       getDensity := Number (FullDeployedImageOptions.density item) |}.

Definition createScreenLike (i : Image.t) (item : FullDeployedImageOptions.t)
  : M ScreenLike :=
  if negb (Str.truthy_opt (FullDeployedImageOptions.model item)) then
    ret (screenOfItem item)
  else
    productConfig <- imageGetProductConfig i ;;
    let productConfigItem :=
      find (fun c => match FullDeployedImageOptions.model item with
                     | Some m => ProductConfigItem.name c =? m
                     | None => false
                     end) productConfig in
    let pascalCaseDeviceType := getPascalCaseDeviceType i in
    match productConfigItem, pascalCaseDeviceType with
    | Some c, Some t =>
        if negb (ProductConfigItem.screenDiagonal c
                   =? FullDeployedImageOptions.diagonalSize item)
           || negb (ProductConfigItem.screenHeight c
                      =? FullDeployedImageOptions.resolutionHeight item)
           || negb (ProductConfigItem.screenWidth c
                      =? FullDeployedImageOptions.resolutionWidth item)
           || negb (ProductConfigItem.screenDensity c
                      =? FullDeployedImageOptions.density item)
        then ret (screenOfItem item)
        else ret (Preset (createProductPreset c t))
    | _, _ => ret (screenOfItem item)
    end.

(** One turn of the loop of [getDevices]: the device of a record, or
    nothing when the loop [continue]s. *)
Definition deviceOfItem (i : Image.t) (item : FullDeployedImageOptions.t)
  : M (option DeviceImpl) :=
  let imageBasePath := ManagerOptions.imageBasePath (Image.imageManager i) in
  if negb (Path.resolve imageBasePath (FullDeployedImageOptions.imageDir item)
             =? Image.getFsPath i)
  then ret None else
  let iniFilePath := Path.resolve (FullDeployedImageOptions.path item) "config.ini" in
  present <- existsSync iniFilePath ;;
  if negb present then ret None else
  st <- statSync iniFilePath ;;
  if negb (isFile st) then ret None else
  screen' <- createScreenLike i item ;;
  device <- createDevice i
    {| name := FullDeployedImageOptions.name item;
       cpuNumber := Number (FullDeployedImageOptions.cpuNumber item);
       diskSize := Number (FullDeployedImageOptions.dataDiskSize item);
       memorySize := Number (FullDeployedImageOptions.memoryRamSize item);
       screen := screen' |} ;;
  text <- readFileSync iniFilePath ;;
  let device :=
    setCachedIni (INI_parse text)
      (setCachedList item (setUuid (FullDeployedImageOptions.uuid item) device)) in
  dirPresent <- existsSync (FullDeployedImageOptions.path item) ;;
  if negb dirPresent then ret None else
  st' <- statSync (FullDeployedImageOptions.path item) ;;
  if negb (isDirectory st') then ret None else
  ret (Some device).

Fixpoint collectDevices (i : Image.t) (items : list FullDeployedImageOptions.t)
  : M (list DeviceImpl) :=
  match items with
  | [] => ret []
  | item :: rest =>
      found <- deviceOfItem i item ;;
      devices <- collectDevices i rest ;;
      ret (match found with
           | Some device => device :: devices
           | None => devices
           end)
  end.

(** [this.imageType] is ['local'] for every [LocalImageImpl], so that only
    [Array.isArray] decides the guard. *)
Definition getDevices (i : Image.t) : M (list DeviceImpl) :=
  let o := Image.imageManager i in
  let listsJsonPath := Path.resolve (ManagerOptions.deployedPath o) "lists.json" in
  present <- existsSync listsJsonPath ;;
  if negb present then ret [] else
  st <- statSync listsJsonPath ;;
  if negb (isFile st) then ret [] else
  text <- readFileSync listsJsonPath ;;
  listsJson <- JSON_parse text ;;
  match listsJson with
  | JArray items => collectDevices i items
  | _ => ret []
  end.

End LocalImage.

(** ** [ImageDownloaderImpl.startDownload] *)

Section Downloader.

(** The size [statSync] reports for a directory, and the text of a file
    that holds JSON. *)
Variable sizeOfDirectory : N.
Variable jsonText : json -> string.

Record ImageDownloader : Type := createImageDownloader {
  downloaderImage : Image.t;
  getUrl : string
}.

Definition getCacheFsPath (dl : ImageDownloader) : string :=
  Path.resolve (ManagerOptions.cachePath (Image.imageManager (downloaderImage dl)))
    (Path.basename (getUrl dl)).

Definition textOf (c : content) : string :=
  match c with
  | Raw text => text
  | JsonText j => jsonText j
  end.

(** [fs.statSync(p).size] *)
Definition size (n : node) : N :=
  match n with
  | File c => N.of_nat (String.length (textOf c))
  | Dir => sizeOfDirectory
  end.

(** [validateStatus: status => (status === 200 || status === 206)] *)
Definition validateStatus (status : N) : bool :=
  (status =? 200)%N || (status =? 206)%N.

(** [startByte > 0 ? { Range: `bytes=${startByte}-` } : {}] *)
Definition rangeHeaders (startByte : N) : list (string * string) :=
  if (0 <? startByte)%N then [("Range", "bytes=" ++ Str.of_N startByte ++ "-")]
  else [].

(** [axios.get(url, { headers, validateStatus })]: the request goes out,
    and a reply with another status is rejected. The progress events and
    the abort signal are left out. *)
Definition axios_get (u : string) (hs : list (string * string))
  : M (N * list string * bool) :=
  fun w =>
    let request := mkRequest u hs in
    let w' := mkWorld (fs w) (uuids w) (drawn w) (http w) (sent w ++ [request])%list in
    match http w request with
    | NetworkFailure => (Throw (AxiosError None), w')
    | Response status chunks complete =>
        if validateStatus status then (Return (status, chunks, complete), w')
        else (Throw (AxiosError (Some status)), w')
    end.

(** [response.data.pipe(fs.createWriteStream(p, { flags, start }))] up to
    the end of the streams: ["w"] starts from an empty file, ["a"] keeps
    what is there; the chunks are written in order, and the promise
    rejects when the body stream fails. *)
Definition pipeToFile (p : string) (flags : string) (chunks : list string)
    (complete : bool) : M unit :=
  fun w =>
    let old :=
      if flags =? "a" then
        match fs_lookup (fs w) (Path.segments p) with
        | Some (File c) => textOf c
        | _ => ""
        end
      else "" in
    match fs_write p (Raw (old ++ Str.join "" chunks)) (fs w) with
    | inl e => (Throw e, w)
    | inr f =>
        if complete then (Return tt, with_fs w f) else (Throw StreamError, with_fs w f)
    end.

Definition startByteOf (cacheFsPath : string) : M N :=
  present <- existsSync cacheFsPath ;;
  if present then (st <- statSync cacheFsPath ;; ret (size st)) else ret 0%N.

(** [if (!fs.existsSync(cachePath)) fs.mkdirSync(cachePath, { recursive: true })] *)
Definition ensureCacheDirectory (dl : ImageDownloader) : M unit :=
  let cachePath := ManagerOptions.cachePath (Image.imageManager (downloaderImage dl)) in
  present <- existsSync cachePath ;;
  when (negb present) (mkdirSync_recursive cachePath).

Definition startDownload (dl : ImageDownloader) : M unit :=
  let cacheFsPath := getCacheFsPath dl in
  ensureCacheDirectory dl ;;;
  startByte <- startByteOf cacheFsPath ;;
  response <- axios_get (getUrl dl) (rangeHeaders startByte) ;;
  let '(status, chunks, complete) := response in
  let isPartialContent := (status =? 206)%N in
  let writeStart := if (0 <? startByte)%N && isPartialContent then startByte else 0%N in
  let writeFlags := if (0 <? writeStart)%N then "a" else "w" in
  when ((0 <? startByte)%N && negb isPartialContent) (rmSync cacheFsPath false true) ;;;
  pipeToFile cacheFsPath writeFlags chunks complete.

End Downloader.

(** ** Reading a configuration text back

    Modelled from the spec: the reader that parses the text of [toText]
    "back as key/value pairs" is not part of the sources (the library [ini]
    is used for it). Each non-empty line is cut at its first [=]. *)

Fixpoint cutAtEquals (line : string) : string * string :=
  match line with
  | EmptyString => (EmptyString, EmptyString)
  | String c rest =>
      if Ascii.eqb c "=" then (EmptyString, rest)
      else let (k, v) := cutAtEquals rest in (String c k, v)
  end.

Definition parseIniText (text : string) : list (string * string) :=
  map cutAtEquals
    (filter (fun line => negb (line =? "")) (Str.split (ascii_of_nat 10) text)).

(** The entries of a mapping that have a value. *)
Definition definedEntries (ini : IniObject) : list (string * string) :=
  flat_map (fun kv => match snd kv with
                      | Some v => [(fst kv, v)]
                      | None => []
                      end) (JsObject.entries ini).

(** ** Vocabulary of the statements *)

(** A file system in which every node sits in a directory. *)
Definition wellFormed (f : FS) : Prop :=
  forall p n, p <> [] -> f p = Some n -> fs_lookup f (removelast p) = Some Dir.

(** A computation that leaves the world as it is. *)
Definition readsOnly {A : Type} (m : M A) : Prop := forall w, snd (m w) = w.

(** The file at [p] holds JSON that parses to [j]. *)
Definition holdsJson (w : World) (p : string) (j : json) : Prop :=
  p <> "" /\ fs_lookup (fs w) (Path.segments p) = Some (File (JsonText j)).

Definition isArray (j : json) : bool :=
  match j with JArray _ => true | _ => false end.

(** Two mappings with the same keys in the same order, and the same values
    except perhaps under the key [x]. *)
Definition agreeExcept (x : string) (o o' : IniObject) : Prop :=
  JsObject.indexed o = JsObject.indexed o'
  /\ Forall2 (fun e e' => fst e = fst e' /\ (fst e <> x -> snd e = snd e'))
       (JsObject.named o) (JsObject.named o').

Section Vocabulary.

Context {JN : JSNumber}.

(** The caller's overrides bind none of the keys [ks]. *)
Definition overridesAvoid (opts : IniOptions) (ks : list string) : Prop :=
  match overrides opts with
  | Some ov => forall k, In k ks -> ~ In k (JsObject.keys ov)
  | None => True
  end.

(** The condition of the dual-screen rule, in the words of the spec: the
    record is classified ["2in1_foldable"], the screen is a product preset,
    and the preset defines the three outer-screen fields. *)
Definition dualScreenCondition (d : DeviceImpl) : Prop :=
  FullDeployedImageOptions.type (buildList d) = "2in1_foldable"
  /\ exists p,
       screen (options d) = Preset p
       /\ ProductConfigItem.outerScreenWidth (getProductConfig p) <> None
       /\ ProductConfigItem.outerScreenHeight (getProductConfig p) <> None
       /\ ProductConfigItem.outerScreenDiagonal (getProductConfig p) <> None.

Definition lcdKeys : list string :=
  [ "hw.lcd.single.diagonalSize"; "hw.lcd.single.height"; "hw.lcd.single.width";
    "hw.lcd.number";
    "hw.lcd.double.diagonalSize"; "hw.lcd.double.height"; "hw.lcd.double.width" ].

(** The keys [buildIni] assigns after the spread of the overrides. *)
Definition lateKeys : list string :=
  [ "hw.lcd.double.diagonalSize"; "hw.lcd.double.height"; "hw.lcd.double.width";
    "hw.phy.height"; "hw.phy.width" ].

(** Of the two optional fields of the record, one is populated and the
    other omitted. *)
Definition onePopulatedOneOmitted (d : DeviceImpl) : Prop :=
  let l := buildList d in
  (FullDeployedImageOptions.devModel l <> None /\ FullDeployedImageOptions.model l = None)
  \/ (FullDeployedImageOptions.devModel l = None /\ FullDeployedImageOptions.model l <> None).

(** A key can be read back when it has no [=] and no line feed. *)
Definition plainKey (k : string) : bool :=
  negb (Str.mem "=" k) && negb (Str.mem (ascii_of_nat 10) k).

(** No value of the mapping contains a line feed. *)
Definition valuesOnOneLine (ini : IniObject) : Prop :=
  forall k v, In (k, v) (definedEntries ini) -> Str.mem (ascii_of_nat 10) v = false.

(** The registry file of [d] holds an array with a record that has the
    name of the record of [d]. *)
Definition registered (d : DeviceImpl) (w : World) : Prop :=
  exists lists,
    holdsJson w (listsPathOf d) (JArray lists)
    /\ existsb (fun item => FullDeployedImageOptions.name item
                              =? FullDeployedImageOptions.name (buildList d)) lists
       = true.

(** How many records of the registry file of [d] have the name of the
    record of [d]. *)
Definition registryCount (d : DeviceImpl) (w : World) : nat :=
  match fs_lookup (fs w) (Path.segments (listsPathOf d)) with
  | Some (File (JsonText (JArray lists))) =>
      List.length
        (filter (fun item => FullDeployedImageOptions.name item
                               =? FullDeployedImageOptions.name (buildList d)) lists)
  | _ => 0
  end.

End Vocabulary.

(** ** Concrete scenarios *)

Module Scenario.

Import WholeNumber.

Definition managerOptions : ManagerOptions.t :=
  ManagerOptions.mk "/images" "/deployed" "/images/cache" "/sdk" "/config" "/log"
    "/emulator".

(** The image of the scenario of the spec: version 6.0.0.129, API level 22,
    architecture arm, device type pc. *)
Definition image : Image.t :=
  Image.mk
    (ImageResponse.mk "system-image,HarmonyOS-6.0.2,pc_all_arm" "6.0.0.129" "22"
       "Beta1" "0a1b2c")
    managerOptions "/images/system-image/HarmonyOS-6.0.2/pc_all_arm".

Definition mateBookFold : ProductConfigItem.t :=
  ProductConfigItem.mk "MateBook Fold" "3296" "2472" "18.00" "288"
    (Some "2472") (Some "1648") (Some "13") None None None (Some "PCEMU-FD05") true.

Definition foldOptions : DeviceOptions :=
  mkOptions "MateBook Fold" 4%N 6144%N 4096%N
    (Preset (createProductPreset mateBookFold "2in1 Foldable")).

Definition fold : DeviceImpl :=
  mkDevice image foldOptions "11111111-2222-3333-4444-555555555555" None None.

(** A device with a raw screen. *)
Definition customOptions : DeviceOptions :=
  mkOptions "Custom" 2%N 2048%N 1024%N
    (RawScreen (createScreen 6%N 320%N 2400%N 1080%N)).

Definition custom : DeviceImpl :=
  mkDevice image customOptions "aaaaaaaa-bbbb-cccc-dddd-eeeeeeeeeeee" None None.

(** Overrides of one dual-screen key and one physical-size key. *)
Definition lateOverrides : IniOptions :=
  mkIniOptions None None
    (Some (JsObject.literal [("hw.lcd.double.width", Some "1");
                             ("hw.phy.width", Some "2")])).

(** A preset without outer diagonal on a foldable image: single mode, with
    the physical-size fields. *)
Definition noDiagonal : ProductConfigItem.t :=
  ProductConfigItem.mk "MateBook Fold" "3296" "2472" "18.00" "288"
    (Some "2472") (Some "1648") None None None None (Some "PCEMU-FD05") true.

Definition flat : DeviceImpl :=
  mkDevice image
    (mkOptions "Flat" 4%N 6144%N 4096%N
       (Preset (createProductPreset noDiagonal "2in1 Foldable")))
    "11111111-2222-3333-4444-555555555555" None None.

(** A preset with a device model and no display name: the record has
    [devModel] and no [model]. *)
Definition unnamedPreset : ProductConfigItem.t :=
  ProductConfigItem.mk "" "3296" "2472" "18.00" "288"
    None None None None None None (Some "PCEMU-FD05") true.

(** A device of that preset under a name of one line, and one under a
    name of two lines. *)
Definition unnamed : DeviceImpl :=
  mkDevice image
    (mkOptions "Flat" 4%N 6144%N 4096%N
       (Preset (createProductPreset unnamedPreset "2in1 Foldable")))
    "11111111-2222-3333-4444-555555555555" None None.

Definition twoLines : DeviceImpl :=
  mkDevice image
    (mkOptions ("Mate" ++ LF ++ "Book") 4%N 6144%N 4096%N
       (Preset (createProductPreset unnamedPreset "2in1 Foldable")))
    "11111111-2222-3333-4444-555555555555" None None.

(** Two devices whose uuid and configuration path split the same text in
    two different ways. *)
Definition collisionLeft : DeviceImpl :=
  mkDevice
    (Image.mk (Image.response image)
       (ManagerOptions.mk "/images" "/deployed" "/images/cache" "/sdk" "c2" "/log"
          "/emulator")
       (Image.resolvedFsPath image))
    (options unnamed) ("u" ++ LF ++ "configPath=c1") None None.

Definition collisionRight : DeviceImpl :=
  mkDevice
    (Image.mk (Image.response image)
       (ManagerOptions.mk "/images" "/deployed" "/images/cache" "/sdk"
          ("c1" ++ LF ++ "configPath=c2") "/log" "/emulator")
       (Image.resolvedFsPath image))
    (options unnamed) "u" None None.

(** Random sources and networks. *)
Definition counterUuids (n : nat) : string := "uuid-" ++ Str.of_N (N.of_nat n).

Definition offline (r : Request) : Reply := NetworkFailure.

Definition world (f : FS) : World := mkWorld f counterUuids 0 offline [].

(** The deployment directory exists and is empty: the first deployment. *)
Definition freshFs : FS := fs_put ["deployed"] Dir fs_empty.

(** The registry file exists and holds [payload]. *)
Definition registryFs (payload : json) : FS :=
  fs_put ["deployed"; "lists.json"] (File (JsonText payload)) freshFs.

(** The world after [fold] was deployed into an empty registry. *)
Definition deployedWorld : World := snd (deploy fold (world (registryFs (JArray [])))).

(** A downloader, a cache with a partial file, and servers that answer
    with a given status. *)
Definition downloader : ImageDownloader :=
  createImageDownloader image "https://example.org/images/pc_all_arm.zip".

Definition partialFs : FS :=
  fs_put ["images"; "cache"; "pc_all_arm.zip"] (File (Raw "PK12"))
    (fs_put ["images"; "cache"] Dir (fs_put ["images"] Dir fs_empty)).

Definition server (status : N) (r : Request) : Reply :=
  Response status ["34"; "56"] true.

Definition online (status : N) (f : FS) : World :=
  mkWorld f counterUuids 0 (server status) [].

Definition noIniReader (c : content) : IniObject := JsObject.empty.

Definition noProductConfig (c : content) : exn + ProductConfig := inr [].

End Scenario.

(** ** Further operations *)

Section DownloaderRest.

(** The digest of [crypto.createHash('sha256')], and the text of a file
    that holds JSON. *)
Variable sha256hex : string -> string.
Variable jsonText : json -> string.

(** [ImageDownloaderImpl.clean] *)
Definition clean (dl : ImageDownloader) : M unit :=
  let cacheFsPath := getCacheFsPath dl in
  present <- existsSync cacheFsPath ;;
  when present (rmSync cacheFsPath true false).

(** [fs.createReadStream(p)] read to its end: the bytes of the file, or
    the error of the stream. *)
Definition readStream (p : string) : M string :=
  c <- readFileSync p ;;
  ret (textOf jsonText c).

(** [ImageDownloaderImpl.checkChecksum]; the abort signal is left out. *)
Definition checkChecksum (dl : ImageDownloader) : M bool :=
  let checksum := Image.getChecksum (downloaderImage dl) in
  text <- readStream (getCacheFsPath dl) ;;
  let calculatedChecksum := sha256hex text in
  ret (calculatedChecksum =? checksum).

End DownloaderRest.

(** [ImageManagerImpl.getImages]: what the loop makes of one item of
    [response.data].

    [path.resolve(base, ...pieces)] takes the pieces from left to right,
    each relative to what came before. *)
Definition resolveAll (base : string) (pieces : list string) : string :=
  fold_left Path.resolve pieces (Path.resolve base "").

(** [LocalImageImpl] or [RemoteImageImpl]. *)
Inductive ImageKind : Type :=
  | LocalImage
  | RemoteImage.

Definition imageOfResponse (o : ManagerOptions.t) (responseItem : ImageResponse.t)
  : M (ImageKind * Image.t) :=
  let resolvedFsPath :=
    resolveAll (ManagerOptions.imageBasePath o)
      (Str.split "," (ImageResponse.path responseItem)) in
  present <- existsSync resolvedFsPath ;;
  isLocal <- (if present
              then st <- statSync resolvedFsPath ;; ret (isDirectory st)
              else ret false) ;;
  ret (if isLocal then LocalImage else RemoteImage,
       Image.mk responseItem o resolvedFsPath).

(** [ImageBase.isDownloaded] *)
Definition isDownloaded (i : Image.t) : M bool :=
  present <- existsSync (Image.getFsPath i) ;;
  if present then st <- statSync (Image.getFsPath i) ;; ret (isDirectory st)
  else ret false.

(** A promise as [Promise.allSettled] sees it: the rejection becomes a
    value. The [async] functions called here have no [await] inside, so
    that [ms.map(m => m())] runs them one after the other. *)
Definition settled (m : M unit) : M (option exn) :=
  fun w =>
    match m w with
    | (Return _, w') => (Return None, w')
    | (Throw e, w') => (Return (Some e), w')
    end.

Fixpoint allSettled (ms : list (M unit)) : M (list (option exn)) :=
  match ms with
  | [] => ret []
  | m :: rest =>
      r <- settled m ;;
      rs <- allSettled rest ;;
      ret (r :: rs)
  end.

Section LocalImageDelete.

Context {JN : JSNumber}.

Variable INI_parse : content -> IniObject.
Variable default_product_config : ProductConfig.
Variable parseProductConfig : content -> exn + ProductConfig.

(** [LocalImageImpl.delete]: the error it returns is a value, what it
    throws is the rejection of its promise. *)
Definition imageDelete (i : Image.t) : M (option exn) :=
  let path := Image.getFsPath i in
  present <- existsSync path ;;
  isDirectory' <- (if present then st <- statSync path ;; ret (isDirectory st)
                   else ret false) ;;
  if negb isDirectory' then ret (Some (PlainError "Image path does not exist")) else
  rmSync path true false ;;;
  devices <- getDevices INI_parse default_product_config parseProductConfig i ;;
  results <- allSettled (map delete devices) ;;
  match find (fun result => defined result) results with
  | Some (Some reason) => ret (Some reason)
  | _ => ret None
  end.

End LocalImageDelete.

(** ** Further vocabulary *)

(** A segment as a normalized absolute path has them: not empty, not [.]
    or [..], and without separator. *)
Definition plainSegment (s : string) : Prop :=
  s <> "" /\ s <> "." /\ s <> ".." /\ Str.mem "/" s = false.

(** A computation that leaves the files as they are. *)
Definition keepsFiles {A : Type} (m : M A) : Prop :=
  forall w, fs (snd (m w)) = fs w.

(** A computation that takes no path away, one that leaves the nodes
    outside the paths [ps] as they are, and one that brings no new path. *)
Definition removesNothing {A : Type} (m : M A) : Prop :=
  forall w q, fs_lookup (fs w) q <> None -> fs_lookup (fs (snd (m w))) q <> None.

Definition keepsNodesExcept {A : Type} (ps : list (list string)) (m : M A) : Prop :=
  forall w q n,
    ~ In q ps -> fs_lookup (fs w) q = Some n -> fs_lookup (fs (snd (m w))) q = Some n.

Definition createsNothing {A : Type} (m : M A) : Prop :=
  forall w q, fs_lookup (fs w) q = None -> fs_lookup (fs (snd (m w))) q = None.

(** A computation that leaves the nodes that are not at or below [p] as
    they are. *)
Definition keepsNodesOutside {A : Type} (p : list string) (m : M A) : Prop :=
  forall w q n,
    is_prefix p q = false -> fs_lookup (fs w) q = Some n ->
    fs_lookup (fs (snd (m w))) q = Some n.

Section RegistryVocabulary.

Context {JN : JSNumber}.

(** The state in which a deployment goes all the way: the files form a
    tree, the deployment directory is there, the registry file holds the
    array [lists] without a record of the name of [d], the record of [d]
    carries the name of the options, and the target directory is missing
    under a directory that exists. *)
Definition deployable (d : DeviceImpl) (w : World)
    (lists : list FullDeployedImageOptions.t) : Prop :=
  let target := FullDeployedImageOptions.path (buildList d) in
  wellFormed (fs w)
  /\ exists_in (fs w) (deployedPathOf d) = true
  /\ holdsJson w (listsPathOf d) (JArray lists)
  /\ existsb (fun item => FullDeployedImageOptions.name item
                            =? FullDeployedImageOptions.name (buildList d)) lists
     = false
  /\ FullDeployedImageOptions.name (buildList d) = name (options d)
  /\ target <> ""
  /\ fs_lookup (fs w) (Path.segments target) = None
  /\ fs_lookup (fs w) (removelast (Path.segments target)) = Some Dir.

(** The files after a deployment of [d] into the registry [lists]. *)
Definition deployedFs (d : DeviceImpl) (lists : list FullDeployedImageOptions.t)
    (f : FS) : FS :=
  let target := Path.segments (FullDeployedImageOptions.path (buildList d)) in
  fs_put (target ++ ["config.ini"]) (File (Raw (toIniString d)))
    (fs_put target Dir
       (fs_put (Path.segments (listsPathOf d))
          (File (JSON_stringify (lists ++ [buildList d]))) f)).

End RegistryVocabulary.

Section ReadBackVocabulary.

Context {JN : JSNumber}.

(** The device [dev] is the record [item] of the registry read back for
    the image [i] from the files [f]: it carries the record, its name and
    its uuid, the record belongs to the image, the mapping of the device
    is what [INI_parse] makes of [config.ini], and the target of the
    record is a directory. *)
Definition readBack (INI_parse : content -> IniObject) (i : Image.t) (f : FS)
    (item : FullDeployedImageOptions.t) (dev : DeviceImpl) : Prop :=
  image dev = i
  /\ cachedList dev = Some item
  /\ name (options dev) = FullDeployedImageOptions.name item
  /\ uuid dev = FullDeployedImageOptions.uuid item
  /\ Path.resolve (ManagerOptions.imageBasePath (Image.imageManager i))
       (FullDeployedImageOptions.imageDir item) = Image.getFsPath i
  /\ (exists text,
        fs_lookup f
          (Path.segments (Path.resolve (FullDeployedImageOptions.path item) "config.ini"))
        = Some (File text)
        /\ cachedIni dev = Some (INI_parse text))
  /\ fs_lookup f (Path.segments (FullDeployedImageOptions.path item)) = Some Dir.

End ReadBackVocabulary.

(** The cache directory is there and the address ends in a plain file
    name: the cache file is that name in the cache directory. *)
Definition cacheReady (dl : ImageDownloader) (w : World) : Prop :=
  let cachePath := ManagerOptions.cachePath (Image.imageManager (downloaderImage dl)) in
  cachePath <> ""
  /\ fs_lookup (fs w) (Path.segments cachePath) = Some Dir
  /\ plainSegment (Path.basename (getUrl dl)).

(** ** Further scenarios *)

Module CacheScenario.

(** The cache directory exists and is empty. *)
Definition cacheFs : FS :=
  fs_put ["images"; "cache"] Dir (fs_put ["images"] Dir fs_empty).

(** A server whose first body breaks off after four bytes and that
    honours a range request. *)
Definition flakyServer (r : Request) : Reply :=
  match headers r with
  | [] => Response 200 ["PK"; "12"] false
  | _ => Response 206 ["34"; "56"] true
  end.

Definition flaky : World := mkWorld cacheFs Scenario.counterUuids 0 flakyServer [].

End CacheScenario.

Module ImageScenario.

(** The directory of the image of the scenario exists and is empty. *)
Definition downloadedFs : FS :=
  fs_put ["images"; "system-image"; "HarmonyOS-6.0.2"; "pc_all_arm"] Dir
    (fs_put ["images"; "system-image"; "HarmonyOS-6.0.2"] Dir
       (fs_put ["images"; "system-image"] Dir
          (fs_put ["images"] Dir fs_empty))).

End ImageScenario.

(** * Properties *)

Unset Implicit Arguments.

(** ** Strings *)

Lemma split_nonempty sep s : Str.split sep s <> [].
Proof.
  destruct s as [|c s]; simpl; [discriminate|].
  destruct (Ascii.eqb c sep); [discriminate|].
  destruct (Str.split sep s); discriminate.
Qed.

Lemma mem_append c a b : Str.mem c (a ++ b) = Str.mem c a || Str.mem c b.
Proof.
  induction a as [|x a IH]; simpl; [reflexivity|].
  rewrite IH. now rewrite orb_assoc.
Qed.

(** Splitting cuts at the first separator. *)
Lemma split_app_sep sep a b :
  Str.mem sep a = false ->
  Str.split sep (a ++ String sep b) = a :: Str.split sep b.
Proof.
  induction a as [|c a IH]; simpl; intros H.
  - now rewrite Ascii.eqb_refl.
  - apply orb_false_iff in H. destruct H as [Hc Ha].
    rewrite Hc, (IH Ha). reflexivity.
Qed.

(** ** Ordered mappings *)

Section ObjectFacts.

Variable V : Type.
Implicit Types (o : JsObject.t V) (l : list (string * V)).

Lemma lookup_upsert_same k (v : V) l :
  JsObject.lookup k (JsObject.upsert k v l) = Some v.
Proof.
  induction l as [|[k' v'] l IH]; simpl.
  - now rewrite String.eqb_refl.
  - destruct (k =? k') eqn:E; simpl; [now rewrite String.eqb_refl|].
    now rewrite E.
Qed.

Lemma lookup_upsert_other k k' (v : V) l :
  k <> k' -> JsObject.lookup k (JsObject.upsert k' v l) = JsObject.lookup k l.
Proof.
  intros Hne. apply String.eqb_neq in Hne.
  induction l as [|[k0 v0] l IH]; simpl.
  - now rewrite Hne.
  - destruct (k' =? k0) eqn:E; simpl.
    + apply String.eqb_eq in E. subst k0. now rewrite Hne.
    + now rewrite IH.
Qed.

Lemma lookup_index_insert_same n (e : string * V) li :
  JsObject.lookup_index n (JsObject.insert_index n e li) = Some (snd e).
Proof.
  destruct e as [k v].
  induction li as [|[m [k' v']] li IH]; simpl.
  - now rewrite N.eqb_refl.
  - destruct (n <? m)%N eqn:Hlt; simpl; [now rewrite N.eqb_refl|].
    destruct (n =? m)%N eqn:Heq; simpl; [now rewrite N.eqb_refl|].
    now rewrite Heq.
Qed.

(** Reading back the key just written. *)
Lemma get_set_same k (v : V) o : JsObject.get k (JsObject.set k v o) = Some v.
Proof.
  unfold JsObject.get, JsObject.set.
  destruct (JsObject.array_index k) as [n|] eqn:E; simpl.
  - apply (lookup_index_insert_same n (k, v)).
  - apply lookup_upsert_same.
Qed.

(** Reading a key that is no array index after another key was written. *)
Lemma get_named_set_other k k' (v : V) o :
  JsObject.array_index k = None -> k <> k' ->
  JsObject.get k (JsObject.set k' v o) = JsObject.get k o.
Proof.
  intros Hk Hne. unfold JsObject.get, JsObject.set. rewrite Hk.
  destruct (JsObject.array_index k'); simpl; [reflexivity|].
  now apply lookup_upsert_other.
Qed.

(** Writing a key that is no array index leaves the other keys alone. *)
Lemma get_set_named_other k k' (v : V) o :
  JsObject.array_index k' = None -> k <> k' ->
  JsObject.get k (JsObject.set k' v o) = JsObject.get k o.
Proof.
  intros Hk' Hne. unfold JsObject.get, JsObject.set. rewrite Hk'. simpl.
  destruct (JsObject.array_index k); [reflexivity|].
  now apply lookup_upsert_other.
Qed.

Lemma get_assign_absent k props o :
  JsObject.array_index k = None -> ~ In k (map fst props) ->
  JsObject.get k (JsObject.assign o props) = JsObject.get k o.
Proof.
  intros Hk. unfold JsObject.assign. revert o.
  induction props as [|[k' v'] props IH]; simpl; intros o Hnin; [reflexivity|].
  rewrite IH by tauto.
  apply get_named_set_other; [assumption|]. intros ->. tauto.
Qed.

(** Assignments to keys that are no array indices leave the other keys alone. *)
Lemma get_assign_named_other k props o :
  Forall (fun kv => JsObject.array_index (fst kv) = None) props ->
  ~ In k (map fst props) ->
  JsObject.get k (JsObject.assign o props) = JsObject.get k o.
Proof.
  unfold JsObject.assign. revert o.
  induction props as [|[k' v'] props IH]; simpl; intros o HF Hnin; [reflexivity|].
  inversion HF as [|? ? Hk' HF']; subst. simpl in Hk'.
  rewrite IH by tauto.
  apply get_set_named_other; [assumption|]. intros ->. tauto.
Qed.

(** The spread of an object binds each of its named keys to its value. *)
Lemma get_assign_present k (v : V) props o :
  JsObject.array_index k = None ->
  NoDup (map fst props) ->
  JsObject.lookup k props = Some v ->
  JsObject.get k (JsObject.assign o props) = Some v.
Proof.
  intros Hk. unfold JsObject.assign. revert o.
  induction props as [|[k0 v0] props IH]; simpl; intros o Hnd Hl; [discriminate|].
  inversion Hnd as [|? ? Hnin Hnd']; subst.
  destruct (k =? k0) eqn:E.
  - apply String.eqb_eq in E. subst k0. injection Hl as ->.
    change (JsObject.get k (JsObject.assign (JsObject.set k v o) props) = Some v).
    rewrite get_assign_absent by assumption. apply get_set_same.
  - now apply IH.
Qed.

Lemma get_spread_present k (v : V) o src :
  JsObject.array_index k = None ->
  NoDup (map fst (JsObject.named src)) ->
  JsObject.get k src = Some v ->
  JsObject.get k (JsObject.spread o src) = Some v.
Proof.
  intros Hk Hnd Hg. unfold JsObject.spread, JsObject.assign, JsObject.entries.
  rewrite fold_left_app.
  apply (get_assign_present k v (JsObject.named src)); [assumption|assumption|].
  unfold JsObject.get in Hg. now rewrite Hk in Hg.
Qed.

Lemma get_spread_absent k o src :
  JsObject.array_index k = None -> ~ In k (JsObject.keys src) ->
  JsObject.get k (JsObject.spread o src) = JsObject.get k o.
Proof. intros Hk Hnin. now apply get_assign_absent. Qed.

End ObjectFacts.

(** ** The configuration mapping *)

Section BuildIniFacts.

Context {JN : JSNumber}.

(** The keys of the literal are distinct and none is an array index: the
    literal lists them as written. *)
Lemma literal_of_iniLiteral (d : DeviceImpl) (opts : IniOptions) :
  JsObject.literal (iniLiteral d opts) = JsObject.mk [] (iniLiteral d opts).
Proof. reflexivity. Qed.

Lemma lateAssignments_keys (d : DeviceImpl) :
  incl (map fst (iniLateAssignments d)) lateKeys.
Proof.
  unfold iniLateAssignments, lateKeys, incl.
  destruct (useDualScreen d);
    destruct (option_map getProductConfig (productPresetOf d)) as [c|]; simpl;
    try (destruct (Str.truthy_opt (ProductConfigItem.outerScreenHeight c));
         destruct (Str.truthy_opt (ProductConfigItem.outerScreenWidth c)); simpl);
    intros k Hk; tauto.
Qed.

Lemma lateAssignments_named (d : DeviceImpl) :
  Forall (fun kv => JsObject.array_index (fst kv) = None) (iniLateAssignments d).
Proof.
  unfold iniLateAssignments.
  destruct (useDualScreen d); simpl.
  - destruct (option_map getProductConfig (productPresetOf d)) as [c|]; simpl;
      repeat constructor.
  - destruct (option_map getProductConfig (productPresetOf d)) as [c|]; simpl;
      [|constructor].
    destruct (Str.truthy_opt (ProductConfigItem.outerScreenHeight c));
      destruct (Str.truthy_opt (ProductConfigItem.outerScreenWidth c));
      repeat constructor.
Qed.

Lemma lateAssignments_single_mode (d : DeviceImpl) :
  useDualScreen d = false ->
  incl (map fst (iniLateAssignments d)) ["hw.phy.height"; "hw.phy.width"].
Proof.
  intros Hd. unfold iniLateAssignments, incl. rewrite Hd.
  destruct (option_map getProductConfig (productPresetOf d)) as [c|]; simpl;
    try (destruct (Str.truthy_opt (ProductConfigItem.outerScreenHeight c));
         destruct (Str.truthy_opt (ProductConfigItem.outerScreenWidth c)); simpl);
    intros k Hk; tauto.
Qed.

Lemma overridesAvoid_one (opts : IniOptions) (ks : list string) (k : string) :
  overridesAvoid opts ks -> In k ks -> overridesAvoid opts [k].
Proof.
  unfold overridesAvoid. destruct (overrides opts) as [ov|]; [|trivial].
  intros H Hin k' [<-|[]]. now apply H.
Qed.

(** A key that the overrides leave alone and that is not assigned late
    keeps the value the literal gives it. *)
Lemma buildIni_get_literal (d : DeviceImpl) (opts : IniOptions) (k : string) :
  cachedIni d = None ->
  JsObject.array_index k = None ->
  ~ In k (map fst (iniLateAssignments d)) ->
  overridesAvoid opts [k] ->
  JsObject.get k (buildIni d opts) = JsObject.lookup k (iniLiteral d opts).
Proof.
  intros Hc Hk Hlate Hov. unfold buildIni. rewrite Hc.
  rewrite get_assign_absent; [|assumption|assumption].
  unfold overridesAvoid in Hov.
  destruct (overrides opts) as [ov|].
  - rewrite get_spread_absent; [|assumption|apply Hov; now left].
    rewrite literal_of_iniLiteral. unfold JsObject.get. now rewrite Hk.
  - rewrite literal_of_iniLiteral. unfold JsObject.get. now rewrite Hk.
Qed.

Lemma buildIni_get_early (d : DeviceImpl) (opts : IniOptions) (k : string) :
  cachedIni d = None ->
  JsObject.array_index k = None ->
  ~ In k lateKeys ->
  overridesAvoid opts [k] ->
  JsObject.get k (buildIni d opts) = JsObject.lookup k (iniLiteral d opts).
Proof.
  intros Hc Hk Hlate Hov. apply buildIni_get_literal; try assumption.
  intros Hin. apply Hlate. now apply (lateAssignments_keys d).
Qed.

(** The overrides do win under every named key that is not assigned
    after the spread. *)
Lemma overrides_win_before_late_assignments
    (d : DeviceImpl) (opts : IniOptions) (ov : IniObject) (k : string)
    (v : option string) :
  cachedIni d = None ->
  overrides opts = Some ov ->
  NoDup (map fst (JsObject.named ov)) ->
  JsObject.array_index k = None ->
  JsObject.get k ov = Some v ->
  ~ In k (map fst (iniLateAssignments d)) ->
  JsObject.get k (buildIni d opts) = Some v.
Proof.
  intros Hc Hov Hnd Hk Hg Hlate. unfold buildIni. rewrite Hc, Hov.
  rewrite get_assign_absent by assumption.
  now apply get_spread_present.
Qed.

(** The code's [useDualScreen] is the condition of the spec. *)
Lemma useDualScreen_spec (d : DeviceImpl) :
  useDualScreen d = true <-> dualScreenCondition d.
Proof.
  unfold useDualScreen, dualScreenCondition, productPresetOf.
  destruct (screen (options d)) as [s|p]; simpl.
  - rewrite !andb_false_r. split; [discriminate|].
    intros [_ [p [Hp _]]]. discriminate.
  - rewrite !andb_true_iff, String.eqb_eq. split.
    + intros [[[Ht Hw] Hh] Hg]. split; [assumption|]. exists p.
      destruct (ProductConfigItem.outerScreenWidth (getProductConfig p));
        destruct (ProductConfigItem.outerScreenHeight (getProductConfig p));
        destruct (ProductConfigItem.outerScreenDiagonal (getProductConfig p));
        try discriminate; repeat split; discriminate.
    + intros [Ht [p' [Hp [Hw [Hh Hg]]]]]. injection Hp as <-.
      destruct (ProductConfigItem.outerScreenWidth (getProductConfig p));
        destruct (ProductConfigItem.outerScreenHeight (getProductConfig p));
        destruct (ProductConfigItem.outerScreenDiagonal (getProductConfig p));
        try contradiction; repeat split; assumption.
Qed.

Ltac lcd_key := simpl; first [ tauto | intuition discriminate ].

(** C1, as amended. For a device whose mapping is not cached and for
    overrides that leave the [hw.lcd.*] keys alone, [buildIni] selects
    dual-screen mode exactly when the record is a ["2in1_foldable"], the
    screen is a product preset and the preset has its three outer-screen
    fields. In dual-screen mode the [hw.lcd.single.*] fields are the outer
    diagonal, height and width, the [hw.lcd.double.*] fields are the
    preset's own diagonal, height and width, and [hw.lcd.number] is ["2"];
    otherwise the [hw.lcd.single.*] fields are the dimensions of the
    screen of the options, for a raw screen its own numbers and for a
    preset the numbers read from the preset's diagonal, height and width,
    [hw.lcd.number] is ["1"] and there is no [hw.lcd.double.*] field. *)
Theorem dual_screen_rule (d : DeviceImpl) (opts : IniOptions) :
  cachedIni d = None ->
  overridesAvoid opts lcdKeys ->
  let ini := buildIni d opts in
  (useDualScreen d = true <-> dualScreenCondition d)
  /\ (dualScreenCondition d ->
      forall p, screen (options d) = Preset p ->
      let c := getProductConfig p in
      JsObject.get "hw.lcd.single.diagonalSize" ini
        = Some (ProductConfigItem.outerScreenDiagonal c)
      /\ JsObject.get "hw.lcd.single.height" ini
        = Some (ProductConfigItem.outerScreenHeight c)
      /\ JsObject.get "hw.lcd.single.width" ini
        = Some (ProductConfigItem.outerScreenWidth c)
      /\ JsObject.get "hw.lcd.double.diagonalSize" ini
        = Some (Some (ProductConfigItem.screenDiagonal c))
      /\ JsObject.get "hw.lcd.double.height" ini
        = Some (Some (ProductConfigItem.screenHeight c))
      /\ JsObject.get "hw.lcd.double.width" ini
        = Some (Some (ProductConfigItem.screenWidth c))
      /\ JsObject.get "hw.lcd.number" ini = Some (Some "2"))
  /\ (~ dualScreenCondition d ->
      (forall s, screen (options d) = RawScreen s ->
         JsObject.get "hw.lcd.single.diagonalSize" ini
           = Some (Some (toString (getDiagonal s)))
         /\ JsObject.get "hw.lcd.single.height" ini
           = Some (Some (toString (getHeight s)))
         /\ JsObject.get "hw.lcd.single.width" ini
           = Some (Some (toString (getWidth s))))
      /\ (forall p, screen (options d) = Preset p ->
            let c := getProductConfig p in
            JsObject.get "hw.lcd.single.diagonalSize" ini
              = Some (Some (toString (Number (ProductConfigItem.screenDiagonal c))))
            /\ JsObject.get "hw.lcd.single.height" ini
              = Some (Some (toString (Number (ProductConfigItem.screenHeight c))))
            /\ JsObject.get "hw.lcd.single.width" ini
              = Some (Some (toString (Number (ProductConfigItem.screenWidth c)))))
      /\ JsObject.get "hw.lcd.number" ini = Some (Some "1")
      /\ JsObject.has "hw.lcd.double.diagonalSize" ini = false
      /\ JsObject.has "hw.lcd.double.height" ini = false
      /\ JsObject.has "hw.lcd.double.width" ini = false).
Proof.
  intros Hc Hov ini. split; [apply useDualScreen_spec|]. split.
  - intros Hcond p Hp c.
    assert (Hdual : useDualScreen d = true) by now apply useDualScreen_spec.
    assert (Hpc : option_map getProductConfig (productPresetOf d) = Some c)
      by (unfold productPresetOf; now rewrite Hp).
    assert (Hearly : forall k, In k lcdKeys -> ~ In k lateKeys ->
              JsObject.get k ini = JsObject.lookup k (iniLiteral d opts)).
    { intros k Hk Hl. apply buildIni_get_early; try assumption.
      - unfold lcdKeys in Hk. simpl in Hk.
        repeat (destruct Hk as [<-|Hk]; [reflexivity|]). contradiction.
      - now apply overridesAvoid_one with lcdKeys. }
    assert (Hlate : iniLateAssignments d
                    = [ ("hw.lcd.double.diagonalSize",
                          Some (ProductConfigItem.screenDiagonal c));
                        ("hw.lcd.double.height", Some (ProductConfigItem.screenHeight c));
                        ("hw.lcd.double.width", Some (ProductConfigItem.screenWidth c)) ]).
    { unfold iniLateAssignments. rewrite Hdual, Hpc. reflexivity. }
    repeat split.
    + rewrite Hearly by lcd_key. unfold iniLiteral. rewrite Hdual, Hpc. reflexivity.
    + rewrite Hearly by lcd_key. unfold iniLiteral. rewrite Hdual, Hpc. reflexivity.
    + rewrite Hearly by lcd_key. unfold iniLiteral. rewrite Hdual, Hpc. reflexivity.
    + unfold ini, buildIni. rewrite Hc, Hlate. unfold JsObject.assign. simpl fold_left.
      rewrite get_named_set_other by (reflexivity || discriminate).
      rewrite get_named_set_other by (reflexivity || discriminate).
      apply get_set_same.
    + unfold ini, buildIni. rewrite Hc, Hlate. unfold JsObject.assign. simpl fold_left.
      rewrite get_named_set_other by (reflexivity || discriminate).
      apply get_set_same.
    + unfold ini, buildIni. rewrite Hc, Hlate. unfold JsObject.assign. simpl fold_left.
      apply get_set_same.
    + rewrite Hearly by lcd_key. unfold iniLiteral. rewrite Hdual. reflexivity.
  - intros Hcond.
    assert (Hdual : useDualScreen d = false).
    { destruct (useDualScreen d) eqn:E; [|reflexivity].
      exfalso. apply Hcond. now apply useDualScreen_spec. }
    assert (Hget : forall k, In k lcdKeys ->
              JsObject.get k ini = JsObject.lookup k (iniLiteral d opts)).
    { intros k Hk. apply buildIni_get_literal; try assumption.
      - unfold lcdKeys in Hk. simpl in Hk.
        repeat (destruct Hk as [<-|Hk]; [reflexivity|]). contradiction.
      - intros Hin. apply (lateAssignments_single_mode d Hdual) in Hin.
        unfold lcdKeys in Hk. simpl in Hk, Hin.
        repeat (destruct Hk as [<-|Hk]; [destruct Hin as [Hin|[Hin|[]]]; discriminate|]).
        contradiction.
      - now apply overridesAvoid_one with lcdKeys. }
    unfold JsObject.has. split; [|split].
    + intros s Hs.
      repeat split; rewrite Hget by lcd_key; unfold iniLiteral, getScreen;
        rewrite Hdual, Hs; reflexivity.
    + intros p Hp. cbv zeta.
      repeat split; rewrite Hget by lcd_key; unfold iniLiteral, getScreen;
        rewrite Hdual, Hp; reflexivity.
    + repeat split; rewrite Hget by lcd_key; unfold iniLiteral; rewrite Hdual;
        reflexivity.
Qed.

(** C10, as amended. For a device whose mapping is not cached and for
    overrides without the key [isCustomize], the mapping of [buildIni]
    has the key [isCustomize]; its value is ["false"] exactly when the
    screen is a product preset and ["true"] exactly when it is a raw
    screen. *)
Theorem isCustomize_rule (d : DeviceImpl) (opts : IniOptions) :
  cachedIni d = None ->
  overridesAvoid opts ["isCustomize"] ->
  exists v,
    JsObject.get "isCustomize" (buildIni d opts) = Some (Some v)
    /\ (v = "false" <-> exists p, screen (options d) = Preset p)
    /\ (v = "true" <-> exists s, screen (options d) = RawScreen s).
Proof.
  intros Hc Hov.
  rewrite buildIni_get_early; [|assumption|reflexivity|lcd_key|assumption].
  unfold iniLiteral, productPresetOf.
  destruct (screen (options d)) as [s|p]; simpl.
  - exists "true". split; [reflexivity|]. split; split; intros H.
    + discriminate.
    + destruct H as [p Hp]. discriminate.
    + now exists s.
    + reflexivity.
  - exists "false". split; [reflexivity|]. split; split; intros H.
    + now exists p.
    + reflexivity.
    + discriminate.
    + destruct H as [s Hs]. discriminate.
Qed.

(** *** The mappings of two devices that differ in their uuid *)

Lemma upsert_agree (x k : string) (v : option string)
    (l l' : list (string * option string)) :
  Forall2 (fun e e' => fst e = fst e' /\ (fst e <> x -> snd e = snd e')) l l' ->
  Forall2 (fun e e' => fst e = fst e' /\ (fst e <> x -> snd e = snd e'))
    (JsObject.upsert k v l) (JsObject.upsert k v l').
Proof.
  induction 1 as [|[k0 v0] [k0' v0'] l l' [Hk Hv] HF IH]; simpl.
  - constructor; [split; reflexivity|constructor].
  - simpl in Hk. subst k0'. destruct (k =? k0).
    + constructor; [split; reflexivity|assumption].
    + constructor; [split; [reflexivity|assumption]|assumption].
Qed.

Lemma agreeExcept_set (x k : string) (v : option string) (o o' : IniObject) :
  agreeExcept x o o' ->
  agreeExcept x (JsObject.set k v o) (JsObject.set k v o').
Proof.
  intros [Hi Hn]. unfold JsObject.set.
  destruct (JsObject.array_index k); split; simpl;
    try assumption; try (now rewrite Hi).
  now apply upsert_agree.
Qed.

Lemma agreeExcept_assign (x : string) (props : list (string * option string))
    (o o' : IniObject) :
  agreeExcept x o o' ->
  agreeExcept x (JsObject.assign o props) (JsObject.assign o' props).
Proof.
  unfold JsObject.assign. revert o o'.
  induction props as [|[k v] props IH]; simpl; intros o o' H; [assumption|].
  apply IH. now apply agreeExcept_set.
Qed.

Lemma agreeExcept_keys (x : string) (o o' : IniObject) :
  agreeExcept x o o' -> JsObject.keys o = JsObject.keys o'.
Proof.
  intros [Hi Hn]. unfold JsObject.keys, JsObject.entries.
  rewrite Hi, !map_app. f_equal.
  induction Hn as [|e e' l l' [Hk _] _ IH]; simpl; [reflexivity|].
  now rewrite Hk, IH.
Qed.

Lemma agreeExcept_get (x k : string) (o o' : IniObject) :
  agreeExcept x o o' -> k <> x -> JsObject.get k o = JsObject.get k o'.
Proof.
  intros [Hi Hn] Hk. unfold JsObject.get. rewrite Hi.
  destruct (JsObject.array_index k); [reflexivity|].
  induction Hn as [|[k0 v0] [k0' v0'] l l' [Hk0 Hv] _ IH]; simpl; [reflexivity|].
  simpl in Hk0, Hv. subst k0'.
  destruct (k =? k0) eqn:E; [|assumption].
  apply String.eqb_eq in E. subst k0. f_equal. now apply Hv.
Qed.

(** A device that was given another uuid builds the same record, the uuid
    apart. *)
Lemma buildList_setUuid (d : DeviceImpl) (u : string) :
  cachedList d = None ->
  buildList (setUuid u d)
  = let l := buildList d in
    FullDeployedImageOptions.mk
      (FullDeployedImageOptions.name l) (FullDeployedImageOptions.apiVersion l)
      (FullDeployedImageOptions.cpuNumber l) (FullDeployedImageOptions.diagonalSize l)
      (FullDeployedImageOptions.resolutionHeight l)
      (FullDeployedImageOptions.resolutionWidth l) (FullDeployedImageOptions.density l)
      (FullDeployedImageOptions.memoryRamSize l) (FullDeployedImageOptions.dataDiskSize l)
      (FullDeployedImageOptions.path l) (FullDeployedImageOptions.type l)
      u (FullDeployedImageOptions.version l) (FullDeployedImageOptions.imageDir l)
      (FullDeployedImageOptions.showVersion l)
      (FullDeployedImageOptions.harmonyos_sdk_path l)
      (FullDeployedImageOptions.harmonyos_config_path l)
      (FullDeployedImageOptions.harmonyos_log_path l)
      (FullDeployedImageOptions.hw_apiName l) (FullDeployedImageOptions.abi l)
      (FullDeployedImageOptions.harmonyOSVersion l)
      (FullDeployedImageOptions.guestVersion l)
      (FullDeployedImageOptions.devModel l) (FullDeployedImageOptions.model l).
Proof.
  intros Hc. unfold buildList, setUuid, getScreen. simpl. rewrite Hc.
  destruct (screen (options d)) as [s|p]; simpl; [reflexivity|].
  destruct (ProductConfigItem.devModel (getProductConfig p)) as [m|];
    [destruct (Str.truthy m)|];
    destruct (Str.truthy (ProductConfigItem.name (getProductConfig p)));
    reflexivity.
Qed.

Lemma useDualScreen_setUuid (d : DeviceImpl) (u : string) :
  cachedList d = None -> useDualScreen (setUuid u d) = useDualScreen d.
Proof.
  intros Hc. unfold useDualScreen. rewrite (buildList_setUuid d u Hc). reflexivity.
Qed.

Lemma iniLateAssignments_setUuid (d : DeviceImpl) (u : string) :
  cachedList d = None -> iniLateAssignments (setUuid u d) = iniLateAssignments d.
Proof.
  intros Hc. unfold iniLateAssignments. rewrite (useDualScreen_setUuid d u Hc).
  reflexivity.
Qed.

Lemma iniLiteral_setUuid (d : DeviceImpl) (u : string) (opts : IniOptions) :
  cachedList d = None ->
  Forall2 (fun e e' => fst e = fst e' /\ (fst e <> "uuid" -> snd e = snd e'))
    (iniLiteral d opts) (iniLiteral (setUuid u d) opts).
Proof.
  intros Hc. unfold iniLiteral.
  rewrite (useDualScreen_setUuid d u Hc), (buildList_setUuid d u Hc).
  cbv zeta. simpl FullDeployedImageOptions.name. simpl FullDeployedImageOptions.type.
  repeat (constructor; [split; [reflexivity|intros Hk; try reflexivity; now elim Hk]|]).
  constructor.
Qed.

Lemma buildIni_setUuid (d : DeviceImpl) (u : string) (opts : IniOptions) :
  cachedList d = None -> cachedIni d = None ->
  agreeExcept "uuid" (buildIni d opts) (buildIni (setUuid u d) opts).
Proof.
  intros Hl Hc. unfold buildIni. simpl cachedIni. rewrite Hc.
  rewrite (iniLateAssignments_setUuid d u Hl).
  apply agreeExcept_assign.
  assert (H0 : agreeExcept "uuid" (JsObject.literal (iniLiteral d opts))
                 (JsObject.literal (iniLiteral (setUuid u d) opts))).
  { rewrite !literal_of_iniLiteral. split; [reflexivity|].
    now apply iniLiteral_setUuid. }
  destruct (overrides opts) as [ov|]; [|assumption].
  now apply agreeExcept_assign.
Qed.

(** [new DeviceImpl(image, options)] draws the uuid and nothing else. *)
Lemma newDevice_result (i : Image.t) (o : DeviceOptions) (w : World) (d : DeviceImpl) :
  fst (newDevice i o w) = Return d ->
  d = mkDevice i o (uuids w (drawn w)) None None.
Proof. unfold newDevice, bind, randomUUID, ret. simpl. congruence. Qed.

(** C6, as amended. Two devices constructed from the same image and
    options build mappings with the same keys in the same order and the
    same value under every key but [uuid]; when their uuids are equal the
    mappings are identical. *)
Theorem buildIni_deterministic_up_to_uuid
    (i : Image.t) (o : DeviceOptions) (w w' : World) (d d' : DeviceImpl)
    (opts : IniOptions) :
  fst (newDevice i o w) = Return d ->
  fst (newDevice i o w') = Return d' ->
  JsObject.keys (buildIni d opts) = JsObject.keys (buildIni d' opts)
  /\ (forall k, k <> "uuid" ->
        JsObject.get k (buildIni d opts) = JsObject.get k (buildIni d' opts))
  /\ (getUuid d = getUuid d' -> buildIni d opts = buildIni d' opts).
Proof.
  intros Hd Hd'. apply newDevice_result in Hd, Hd'. subst d d'.
  set (d := mkDevice i o (uuids w (drawn w)) None None).
  assert (H : agreeExcept "uuid" (buildIni d opts)
                (buildIni (setUuid (uuids w' (drawn w')) d) opts))
    by (apply buildIni_setUuid; reflexivity).
  change (setUuid (uuids w' (drawn w')) d)
    with (mkDevice i o (uuids w' (drawn w')) None None) in H.
  split; [now apply agreeExcept_keys with "uuid"|]. split.
  - intros k Hk. now apply agreeExcept_get with "uuid".
  - unfold getUuid, d. simpl. intros ->. reflexivity.
Qed.

End BuildIniFacts.

(** The rule at the foldable of the scenario: dual-screen mode. *)
Lemma dual_screen_rule_witness :
  cachedIni Scenario.fold = None
  /\ overridesAvoid noIniOptions lcdKeys
  /\ JsObject.get "hw.lcd.number" (buildIni Scenario.fold noIniOptions)
     = Some (Some "2")
  /\ JsObject.get "hw.lcd.single.width" (buildIni Scenario.fold noIniOptions)
     = Some (Some "2472")
  /\ JsObject.get "hw.lcd.double.width" (buildIni Scenario.fold noIniOptions)
     = Some (Some "3296").
Proof.
  assert (Hc : cachedIni Scenario.fold = None) by reflexivity.
  assert (Hov : overridesAvoid noIniOptions lcdKeys) by exact I.
  assert (Hcond : dualScreenCondition Scenario.fold).
  { split; [reflexivity|].
    exists (createProductPreset Scenario.mateBookFold "2in1 Foldable").
    repeat split; discriminate. }
  destruct (dual_screen_rule Scenario.fold noIniOptions Hc Hov) as [_ [Hdual _]].
  destruct (Hdual Hcond _ eq_refl) as [_ [_ [Hw [_ [_ [Hdw Hn]]]]]].
  repeat split; assumption.
Defined.

Lemma isCustomize_rule_witness :
  cachedIni Scenario.custom = None
  /\ overridesAvoid noIniOptions ["isCustomize"]
  /\ exists v,
       JsObject.get "isCustomize" (buildIni Scenario.custom noIniOptions)
       = Some (Some v)
       /\ (v = "false" <-> exists p, screen (options Scenario.custom) = Preset p)
       /\ (v = "true" <-> exists s, screen (options Scenario.custom) = RawScreen s).
Proof.
  split; [reflexivity|]. split; [exact I|].
  apply (isCustomize_rule Scenario.custom noIniOptions); [reflexivity|exact I].
Defined.

(** *** Devices with a cached mapping

    [buildIni] returns the cached mapping as it is, and [getDevices] sets
    a cached mapping on every device it returns. *)

(** The device [getDevices] reads back for the deployed foldable, with no
    product configuration at hand: its screen is a raw screen, and its
    mapping is what the reader makes of the text of [config.ini]. *)
Lemma read_back_device_has_cached_mapping (reader : content -> IniObject) :
  exists dev,
    fst (getDevices (JN := WholeNumber.whole) reader [] Scenario.noProductConfig
           Scenario.image Scenario.deployedWorld) = Return [dev]
    /\ (exists s, screen (options dev) = RawScreen s)
    /\ forall opts, buildIni dev opts = reader (Raw (toIniString Scenario.fold)).
Proof.
  eexists. split; [reflexivity|]. split; [eexists; reflexivity|].
  intros opts. reflexivity.
Qed.

(** C1, as stated, fails. A device with a raw screen that carries the
    mapping of the deployed foldable is not in the dual-screen condition,
    and yet its mapping has [hw.lcd.number] ["2"], the outer width under
    [hw.lcd.single.width] and a [hw.lcd.double.width]; a device read back
    by [getDevices] is such a device, whatever the reader. And for a
    device in single mode, an override of [hw.lcd.number] takes effect. *)
Lemma cached_mapping_escapes_dual_screen_rule :
  let cached := setCachedIni (buildIni Scenario.fold noIniOptions) Scenario.custom in
  (exists s, screen (options cached) = RawScreen s)
  /\ ~ dualScreenCondition cached
  /\ JsObject.get "hw.lcd.number" (buildIni cached noIniOptions) = Some (Some "2")
  /\ JsObject.get "hw.lcd.single.width" (buildIni cached noIniOptions)
     = Some (Some "2472")
  /\ JsObject.get "hw.lcd.double.width" (buildIni cached noIniOptions)
     = Some (Some "3296")
  /\ (forall reader, exists dev,
        fst (getDevices (JN := WholeNumber.whole) reader []
               Scenario.noProductConfig Scenario.image Scenario.deployedWorld)
          = Return [dev]
        /\ (exists s, screen (options dev) = RawScreen s)
        /\ forall opts, buildIni dev opts = reader (Raw (toIniString Scenario.fold)))
  /\ ~ dualScreenCondition Scenario.custom
  /\ JsObject.get "hw.lcd.number"
       (buildIni Scenario.custom
          (mkIniOptions None None
             (Some (JsObject.literal [("hw.lcd.number", Some "7")]))))
     = Some (Some "7").
Proof.
  assert (Hraw : forall d : @DeviceImpl WholeNumber.whole,
            (exists s, screen (options d) = RawScreen s) -> ~ dualScreenCondition d).
  { intros d [s Hs] [_ [p [Hp _]]]. rewrite Hs in Hp. discriminate. }
  cbv zeta.
  split; [eexists; reflexivity|].
  split; [apply Hraw; eexists; reflexivity|].
  split; [reflexivity|]. split; [reflexivity|]. split; [reflexivity|].
  split; [exact read_back_device_has_cached_mapping|].
  split; [apply Hraw; eexists; reflexivity|reflexivity].
Qed.

(** C10, as stated, fails. A device with a raw screen that carries the
    mapping of the deployed foldable has [isCustomize] ["false"], and one
    that carries an empty mapping has no key [isCustomize]; no override is
    involved. A device read back by [getDevices] has a raw screen and the
    mapping the reader makes of the text the foldable wrote, whatever the
    reader. *)
Lemma cached_mapping_escapes_isCustomize_rule :
  let cached := setCachedIni (buildIni Scenario.fold noIniOptions) Scenario.custom in
  let blank := setCachedIni JsObject.empty Scenario.custom in
  (exists s, screen (options cached) = RawScreen s)
  /\ overridesAvoid noIniOptions ["isCustomize"]
  /\ JsObject.get "isCustomize" (buildIni cached noIniOptions) = Some (Some "false")
  /\ (exists s, screen (options blank) = RawScreen s)
  /\ JsObject.has "isCustomize" (buildIni blank noIniOptions) = false
  /\ (forall reader, exists dev,
        fst (getDevices (JN := WholeNumber.whole) reader []
               Scenario.noProductConfig Scenario.image Scenario.deployedWorld)
          = Return [dev]
        /\ (exists s, screen (options dev) = RawScreen s)
        /\ forall opts, buildIni dev opts = reader (Raw (toIniString Scenario.fold))).
Proof.
  cbv zeta.
  split; [eexists; reflexivity|]. split; [exact I|]. split; [reflexivity|].
  split; [eexists; reflexivity|]. split; [reflexivity|].
  exact read_back_device_has_cached_mapping.
Qed.

(** C4, at the failing inputs. The caller overrides [hw.lcd.double.width]
    with ["1"] and [hw.phy.width] with ["2"]; the mapping of the foldable
    binds [hw.lcd.double.width] to the preset's ["3296"], and the mapping
    of the preset without outer diagonal binds [hw.phy.width] to the
    preset's ["2472"], while an override of a key of the literal
    ([hw.lcd.number]) does take effect. *)
Theorem late_assignments_beat_overrides :
  overrides Scenario.lateOverrides
    = Some (JsObject.literal [("hw.lcd.double.width", Some "1");
                              ("hw.phy.width", Some "2")])
  /\ ini_read "hw.lcd.double.width" (buildIni Scenario.fold Scenario.lateOverrides)
     = Some "3296"
  /\ ini_read "hw.phy.width" (buildIni Scenario.flat Scenario.lateOverrides)
     = Some "2472"
  /\ ini_read "hw.lcd.number"
       (buildIni Scenario.fold
          (mkIniOptions None None (Some (JsObject.literal [("hw.lcd.number", Some "7")]))))
     = Some "7".
Proof. repeat split. Qed.

(** C6, as stated, fails: two devices constructed one after the other from
    the same image and options draw different uuids, and their mappings
    differ. *)
Lemma same_inputs_different_mappings :
  exists d1 w1 d2,
    newDevice Scenario.image Scenario.foldOptions (Scenario.world Scenario.freshFs)
      = (Return d1, w1)
    /\ fst (newDevice Scenario.image Scenario.foldOptions w1) = Return d2
    /\ buildIni d1 noIniOptions <> buildIni d2 noIniOptions.
Proof.
  eexists. eexists. eexists. split; [reflexivity|]. split; [reflexivity|].
  intros H. apply (f_equal (ini_read "uuid")) in H. vm_compute in H. discriminate.
Qed.

Lemma buildIni_deterministic_up_to_uuid_witness :
  fst (newDevice Scenario.image Scenario.foldOptions (Scenario.world Scenario.freshFs))
    = Return (mkDevice Scenario.image Scenario.foldOptions "uuid-0" None None)
  /\ fst (newDevice Scenario.image Scenario.foldOptions
            (Scenario.world (Scenario.registryFs JNull)))
    = Return (mkDevice Scenario.image Scenario.foldOptions "uuid-0" None None)
  /\ buildIni (mkDevice Scenario.image Scenario.foldOptions "uuid-0" None None)
       noIniOptions
     = buildIni (mkDevice Scenario.image Scenario.foldOptions "uuid-0" None None)
         noIniOptions.
Proof.
  split; [reflexivity|]. split; [reflexivity|].
  apply (buildIni_deterministic_up_to_uuid
           Scenario.image Scenario.foldOptions
           (Scenario.world Scenario.freshFs)
           (Scenario.world (Scenario.registryFs JNull))
           _ _ noIniOptions eq_refl eq_refl).
  reflexivity.
Defined.

(** ** The configuration text *)

Lemma append_assoc (a b c : string) : (a ++ b) ++ c = a ++ (b ++ c).
Proof. induction a as [|x a IH]; simpl; [reflexivity|]. now rewrite IH. Qed.

Lemma cutAtEquals_line (k v : string) :
  Str.mem "=" k = false -> cutAtEquals (k ++ String "=" v) = (k, v).
Proof.
  induction k as [|c k IH]; simpl; intros H; [reflexivity|].
  apply orb_false_iff in H. destruct H as [Hc Hk].
  rewrite Hc, (IH Hk). reflexivity.
Qed.

(** The lines of a text that ends every line with a line feed. *)
Lemma lines_of_joined (lines : list string) :
  Forall (fun l => Str.mem (ascii_of_nat 10) l = false /\ l <> "") lines ->
  filter (fun line => negb (line =? ""))
    (Str.split (ascii_of_nat 10) (Str.join LF lines ++ LF)) = lines.
Proof.
  induction lines as [|l rest IH]; intros HF; [reflexivity|].
  inversion HF as [|? ? [Hl Hne] HF']; subst.
  assert (Hl' : (l =? "") = false) by now apply String.eqb_neq.
  destruct rest as [|l2 rest].
  - simpl Str.join. unfold LF. rewrite split_app_sep by assumption.
    simpl. now rewrite Hl'.
  - change (Str.join LF (l :: l2 :: rest)) with (l ++ LF ++ Str.join LF (l2 :: rest)).
    rewrite !append_assoc.
    change (LF ++ Str.join LF (l2 :: rest) ++ LF)
      with (String (ascii_of_nat 10) (Str.join LF (l2 :: rest) ++ LF)).
    rewrite split_app_sep by assumption.
    simpl filter. rewrite Hl'. simpl. f_equal. now apply IH.
Qed.

(** The lines [toIniString] writes are the entries that have a value. *)
Lemma lines_of_entries (es : list (string * option string)) :
  map iniLine (filter (fun kv => defined (snd kv)) es)
  = map (fun kv => fst kv ++ "=" ++ snd kv)
      (flat_map (fun kv => match snd kv with
                           | Some v => [(fst kv, v)]
                           | None => []
                           end) es).
Proof.
  induction es as [|[k [v|]] es IH]; simpl; [reflexivity| |assumption].
  now rewrite IH.
Qed.

Lemma iniText_lines (ini : IniObject) :
  iniText ini
  = Str.join LF (map (fun kv => fst kv ++ "=" ++ snd kv) (definedEntries ini)) ++ LF.
Proof. unfold iniText, definedEntries. now rewrite lines_of_entries. Qed.

(** Reading the text back gives the entries that have a value, when the
    keys are plain and no value has a line feed. *)
Lemma parseIniText_iniText (ini : IniObject) :
  Forall (fun kv => plainKey (fst kv) = true) (definedEntries ini) ->
  valuesOnOneLine ini ->
  parseIniText (iniText ini) = definedEntries ini.
Proof.
  intros Hk Hv. rewrite iniText_lines. unfold parseIniText.
  unfold valuesOnOneLine in Hv.
  rewrite lines_of_joined.
  - rewrite map_map.
    induction (definedEntries ini) as [|[k v] es IH]; simpl; [reflexivity|].
    inversion Hk as [|? ? Hk1 Hk']; subst. simpl in Hk1.
    unfold plainKey in Hk1. apply andb_true_iff in Hk1. destruct Hk1 as [He _].
    apply negb_true_iff in He.
    rewrite (cutAtEquals_line k v He). f_equal.
    apply IH; [assumption|]. intros k' v' Hin. apply (Hv k' v'). now right.
  - apply Forall_forall. intros l Hl. apply in_map_iff in Hl.
    destruct Hl as [[k v] [<- Hin]]. simpl. split.
    + rewrite Forall_forall in Hk. specialize (Hk _ Hin). simpl in Hk.
      unfold plainKey in Hk. apply andb_true_iff in Hk. destruct Hk as [_ Hn].
      apply negb_true_iff in Hn.
      rewrite !mem_append. apply orb_false_iff. split; [exact Hn|].
      apply orb_false_iff. split; [reflexivity|exact (Hv k v Hin)].
    + destruct k; discriminate.
Qed.

Lemma definedEntries_keys (ini : IniObject) (k v : string) :
  In (k, v) (definedEntries ini) -> In k (JsObject.keys ini).
Proof.
  unfold definedEntries, JsObject.keys.
  induction (JsObject.entries ini) as [|[k0 [v0|]] es IH]; simpl; [tauto| |].
  - intros [H|H]; [left; congruence|right; now apply IH].
  - intros H. right. now apply IH.
Qed.

Section IniTextFacts.

Context {JN : JSNumber}.

(** Without cache and overrides the keys come in the order of the
    literal, followed by the late assignments in the order they are made. *)
Lemma buildIni_keys (d : DeviceImpl) :
  cachedIni d = None ->
  JsObject.keys (buildIni d noIniOptions)
  = (map fst (iniLiteral d noIniOptions) ++ map fst (iniLateAssignments d))%list.
Proof.
  intros Hc. unfold buildIni. rewrite Hc. simpl overrides. cbv iota zeta.
  rewrite literal_of_iniLiteral.
  unfold iniLateAssignments, iniLiteral.
  destruct (useDualScreen d);
    destruct (option_map getProductConfig (productPresetOf d)) as [c|]; simpl;
    try (destruct (Str.truthy_opt (ProductConfigItem.outerScreenHeight c));
         destruct (Str.truthy_opt (ProductConfigItem.outerScreenWidth c)); simpl);
    reflexivity.
Qed.

Lemma buildIni_keys_plain (d : DeviceImpl) :
  cachedIni d = None ->
  Forall (fun kv => plainKey (fst kv) = true)
    (definedEntries (buildIni d noIniOptions)).
Proof.
  intros Hc. apply Forall_forall. intros [k v] Hin. simpl.
  apply definedEntries_keys in Hin. rewrite (buildIni_keys d Hc) in Hin.
  apply in_app_or in Hin. destruct Hin as [Hin|Hin].
  - unfold iniLiteral in Hin. simpl in Hin.
    repeat (destruct Hin as [<-|Hin]; [reflexivity|]). contradiction.
  - apply (lateAssignments_keys d) in Hin. simpl in Hin.
    repeat (destruct Hin as [<-|Hin]; [reflexivity|]). contradiction.
Qed.

(** C7, as amended. [toIniString] writes one [key=value] line for each
    entry that has a value, in the order of the mapping, and ends the text
    with one line feed; for a device whose mapping is not cached, with one
    optional field populated and one omitted, and with no line feed in any
    value, reading the text back gives the mapping without its undefined
    entries. *)
Theorem toIniString_round_trip (d : DeviceImpl) :
  cachedIni d = None ->
  onePopulatedOneOmitted d ->
  valuesOnOneLine (buildIni d noIniOptions) ->
  toIniString d
    = Str.join LF (map (fun kv => fst kv ++ "=" ++ snd kv)
                     (definedEntries (buildIni d noIniOptions))) ++ LF
  /\ JsObject.keys (buildIni d noIniOptions)
     = (map fst (iniLiteral d noIniOptions) ++ map fst (iniLateAssignments d))%list
  /\ parseIniText (toIniString d) = definedEntries (buildIni d noIniOptions).
Proof.
  intros Hc _ Hv. unfold toIniString. split; [apply iniText_lines|].
  split; [now apply buildIni_keys|].
  apply parseIniText_iniText; [now apply buildIni_keys_plain|assumption].
Qed.

End IniTextFacts.

(** C7, as stated, fails: the device name has two lines, the device model
    is populated and the product model omitted; the text read back has one
    entry more than the mapping. *)
Lemma line_feed_breaks_round_trip :
  onePopulatedOneOmitted Scenario.twoLines
  /\ parseIniText (toIniString Scenario.twoLines)
     <> definedEntries (buildIni Scenario.twoLines noIniOptions).
Proof.
  split.
  - left. split; [discriminate|reflexivity].
  - intros H. apply (f_equal (@List.length _)) in H. vm_compute in H. discriminate.
Qed.

(** No reader at all can undo [toIniString] on values with line feeds:
    two devices with different mappings have the same text. *)
Lemma no_reader_undoes_line_feeds (reader : string -> list (string * string)) :
  onePopulatedOneOmitted Scenario.collisionLeft
  /\ onePopulatedOneOmitted Scenario.collisionRight
  /\ toIniString Scenario.collisionLeft = toIniString Scenario.collisionRight
  /\ ~ (reader (toIniString Scenario.collisionLeft)
          = definedEntries (buildIni Scenario.collisionLeft noIniOptions)
        /\ reader (toIniString Scenario.collisionRight)
           = definedEntries (buildIni Scenario.collisionRight noIniOptions)).
Proof.
  assert (Ht : toIniString Scenario.collisionLeft = toIniString Scenario.collisionRight)
    by reflexivity.
  split; [left; split; [discriminate|reflexivity]|].
  split; [left; split; [discriminate|reflexivity]|].
  split; [exact Ht|].
  intros [Hl Hr]. rewrite Ht, Hr in Hl.
  apply (f_equal (fun es => JsObject.lookup "uuid" es)) in Hl.
  vm_compute in Hl. discriminate.
Qed.

Lemma toIniString_round_trip_witness :
  cachedIni Scenario.unnamed = None
  /\ onePopulatedOneOmitted Scenario.unnamed
  /\ valuesOnOneLine (buildIni Scenario.unnamed noIniOptions)
  /\ parseIniText (toIniString Scenario.unnamed)
     = definedEntries (buildIni Scenario.unnamed noIniOptions).
Proof.
  assert (Hp : onePopulatedOneOmitted Scenario.unnamed)
    by (left; split; [discriminate|reflexivity]).
  assert (Hv : valuesOnOneLine (buildIni Scenario.unnamed noIniOptions)).
  { intros k v Hin. vm_compute in Hin.
    repeat (destruct Hin as [Hin|Hin]; [injection Hin as <- <-; reflexivity|]).
    contradiction. }
  split; [reflexivity|]. split; [exact Hp|]. split; [exact Hv|].
  destruct (toIniString_round_trip Scenario.unnamed eq_refl Hp Hv) as [_ [_ H]].
  exact H.
Defined.

(** ** The registry *)

Lemma bind_return {A B : Type} (m : M A) (k : A -> M B) (w w' : World) (a : A) :
  m w = (Return a, w') -> bind m k w = k a w'.
Proof. intros H. unfold bind. now rewrite H. Qed.

Lemma bind_throw {A B : Type} (m : M A) (k : A -> M B) (w w' : World) (e : exn) :
  m w = (Throw e, w') -> bind m k w = (Throw e, w').
Proof. intros H. unfold bind. now rewrite H. Qed.

Lemma existsSync_run (p : string) (w : World) :
  existsSync p w = (Return (exists_in (fs w) p), w).
Proof. reflexivity. Qed.

Lemma holdsJson_exists (w : World) (p : string) (j : json) :
  holdsJson w p j -> exists_in (fs w) p = true.
Proof.
  intros [Hp Hl]. unfold exists_in. destruct p; [contradiction|]. now rewrite Hl.
Qed.

Lemma holdsJson_stat (w : World) (p : string) (j : json) :
  holdsJson w p j -> statSync p w = (Return (File (JsonText j)), w).
Proof.
  intros [Hp Hl]. unfold statSync. destruct p; [contradiction|]. now rewrite Hl.
Qed.

Lemma holdsJson_read (w : World) (p : string) (j : json) :
  holdsJson w p j -> readFileSync p w = (Return (JsonText j), w).
Proof.
  intros [Hp Hl]. unfold readFileSync. destruct p; [contradiction|]. now rewrite Hl.
Qed.

Lemma find_existsb {A : Type} (f : A -> bool) (l : list A) :
  existsb f l = true -> exists x, find f l = Some x.
Proof.
  induction l as [|a l IH]; simpl; [discriminate|].
  destruct (f a); [eauto|]. exact IH.
Qed.

Lemma spliceFirst_none {A : Type} (f : A -> bool) (l : list A) :
  existsb f l = false -> spliceFirst f l = None.
Proof.
  induction l as [|a l IH]; simpl; [reflexivity|].
  destruct (f a); [discriminate|]. intros H. now rewrite IH.
Qed.

Lemma readsOnly_bind {A B : Type} (m : M A) (k : A -> M B) :
  readsOnly m -> (forall a, readsOnly (k a)) -> readsOnly (bind m k).
Proof.
  intros Hm Hk w. unfold bind. specialize (Hm w).
  destruct (m w) as [[a|e] w']; simpl in Hm; subst w'; [apply Hk|reflexivity].
Qed.

Lemma readsOnly_ret {A : Type} (a : A) : readsOnly (ret a).
Proof. intros w. reflexivity. Qed.

Lemma readsOnly_throw {A : Type} (e : exn) : readsOnly (@throw A e).
Proof. intros w. reflexivity. Qed.

Lemma readsOnly_existsSync (p : string) : readsOnly (existsSync p).
Proof. intros w. reflexivity. Qed.

Lemma readsOnly_statSync (p : string) : readsOnly (statSync p).
Proof.
  intros w. unfold statSync. destruct p; [reflexivity|].
  now destruct (fs_lookup (fs w) _).
Qed.

Lemma readsOnly_readFileSync (p : string) : readsOnly (readFileSync p).
Proof.
  intros w. unfold readFileSync. destruct p; [reflexivity|].
  now destruct (fs_lookup (fs w) _) as [[?|]|].
Qed.

Lemma readsOnly_JSON_parse (c : content) : readsOnly (JSON_parse c).
Proof. destruct c; [apply readsOnly_throw|apply readsOnly_ret]. Qed.

Ltac next a tac :=
  rewrite (bind_return _ _ _ _ a) by tac; cbv beta iota zeta.

Section RegistryFacts.

Context {JN : JSNumber}.

(** [isDeployed] only reads. *)
Lemma isDeployed_reads (d : DeviceImpl) (w : World) : snd (isDeployed d w) = w.
Proof.
  revert w. change (readsOnly (isDeployed d)). unfold isDeployed.
  apply readsOnly_bind; [apply readsOnly_existsSync|]. intros present.
  destruct present; simpl; [|apply readsOnly_ret].
  apply readsOnly_bind; [apply readsOnly_statSync|]. intros st.
  destruct (isFile st); simpl; [|apply readsOnly_ret].
  apply readsOnly_bind; [apply readsOnly_readFileSync|]. intros text.
  apply readsOnly_bind; [apply readsOnly_JSON_parse|]. intros parsed.
  destruct (orEmptyArray parsed); try apply readsOnly_throw.
  intros w. reflexivity.
Qed.

Lemma isDeployed_run (d : DeviceImpl) (w : World) :
  isDeployed d w = (fst (isDeployed d w), w).
Proof.
  rewrite <- (isDeployed_reads d w) at 3. now destruct (isDeployed d w).
Qed.

(** A deployed device is left alone. *)
Lemma deploy_when_deployed (d : DeviceImpl) (w : World) :
  fst (isDeployed d w) = Return true -> deploy d w = (Return tt, w).
Proof.
  intros H. unfold deploy.
  rewrite (bind_return _ _ w w true); [reflexivity|].
  rewrite isDeployed_run. now rewrite H.
Qed.

(** With the deployment directory present, a device that is not deployed
    and whose target directory exists is refused. *)
Lemma deploy_target_present (d : DeviceImpl) (w : World) :
  fst (isDeployed d w) = Return false ->
  exists_in (fs w) (deployedPathOf d) = true ->
  exists_in (fs w) (FullDeployedImageOptions.path (buildList d)) = true ->
  deploy d w
  = (Throw (DeployError DEVICE_ALREADY_DEPLOYED
              ("Image " ++ FullDeployedImageOptions.name (buildList d)
                 ++ " already deployed")), w).
Proof.
  intros Hd Hdp Ht. unfold deploy. cbv zeta.
  next false ltac:((rewrite isDeployed_run; now rewrite Hd)).
  cbv beta iota zeta.
  next true ltac:((rewrite existsSync_run; now rewrite Hdp)).
  simpl (negb _). unfold when.
  next tt ltac:(reflexivity).
  next true ltac:((rewrite existsSync_run; now rewrite Ht)).
  reflexivity.
Qed.

(** With the deployment directory present, a device that is not deployed
    and whose name is in the registry is refused. *)
Lemma deploy_name_present (d : DeviceImpl) (w : World) :
  fst (isDeployed d w) = Return false ->
  exists_in (fs w) (deployedPathOf d) = true ->
  registered d w ->
  exists msg,
    deploy d w = (Throw (DeployError DEVICE_ALREADY_DEPLOYED msg), w).
Proof.
  intros Hd Hdp [lists [Hj Hin]].
  destruct (exists_in (fs w) (FullDeployedImageOptions.path (buildList d))) eqn:Ht.
  { eexists. now apply deploy_target_present. }
  unfold deploy. cbv zeta.
  next false ltac:((rewrite isDeployed_run; now rewrite Hd)).
  cbv beta iota zeta.
  next true ltac:((rewrite existsSync_run; now rewrite Hdp)).
  simpl (negb _). unfold when.
  next tt ltac:(reflexivity).
  next false ltac:((rewrite existsSync_run; now rewrite Ht)).
  cbv beta iota zeta.
  change (Path.join (deployedPathOf d) "lists.json") with (listsPathOf d).
  next true ltac:((rewrite existsSync_run; now rewrite (holdsJson_exists _ _ _ Hj))).
  simpl (negb _). cbv beta iota zeta.
  next (JsonText (JArray lists)) ltac:(now apply holdsJson_read).
  next (JArray lists) ltac:(reflexivity).
  simpl (orEmptyArray _). cbv beta iota zeta.
  destruct (find_existsb _ _ Hin) as [x Hx]. rewrite Hx.
  eexists. reflexivity.
Qed.

(** What [isDeployed] returns, by what is at the path of the registry file. *)
Lemma isDeployed_cases (d : DeviceImpl) (w : World) :
  isDeployed d w
  = match (match listsPathOf d with
           | EmptyString => None
           | _ => fs_lookup (fs w) (Path.segments (listsPathOf d))
           end) with
    | None => (Return false, w)
    | Some Dir => (Return false, w)
    | Some (File (Raw _)) => (Throw SyntaxError, w)
    | Some (File (JsonText j)) =>
        match orEmptyArray j with
        | JArray lists =>
            (Return
               (existsb
                  (fun item =>
                     (FullDeployedImageOptions.name item =? name (options d))
                     && exists_in (fs w)
                          (Path.resolve (FullDeployedImageOptions.path item)
                             "config.ini"))
                  lists), w)
        | _ => (Throw (TypeError "lists.some is not a function"), w)
        end
    end.
Proof.
  unfold isDeployed. cbv zeta.
  unfold bind at 1. rewrite existsSync_run. unfold exists_in.
  destruct (listsPathOf d) as [|a p] eqn:Ep; [reflexivity|].
  destruct (fs_lookup (fs w) (Path.segments (String a p))) as [n|] eqn:El;
    [|reflexivity].
  simpl (negb _). cbv beta iota.
  unfold bind at 1. unfold statSync at 1. rewrite El.
  destruct n as [c|]; [|reflexivity].
  simpl (negb _). cbv beta iota.
  unfold bind at 1. unfold readFileSync at 1. rewrite El.
  destruct c as [t|j]; [reflexivity|].
  unfold bind at 1. simpl (JSON_parse _). unfold ret at 1.
  destruct (orEmptyArray j); reflexivity.
Qed.

(** When [isDeployed] returns true, the registry file holds an array with
    a record of that name, and the configuration file of that record is
    on disk. *)
Lemma isDeployed_true (d : DeviceImpl) (w : World) :
  fst (isDeployed d w) = Return true ->
  exists lists item,
    holdsJson w (listsPathOf d) (JArray lists)
    /\ In item lists
    /\ FullDeployedImageOptions.name item = name (options d)
    /\ exists_in (fs w)
         (Path.resolve (FullDeployedImageOptions.path item) "config.ini") = true.
Proof.
  rewrite isDeployed_cases. unfold holdsJson.
  destruct (listsPathOf d) as [|a p]; [discriminate|].
  destruct (fs_lookup (fs w) (Path.segments (String a p))) as [[[t|j]|]|];
    try discriminate.
  destruct j as [|lists|]; simpl; try discriminate.
  intros H. injection H as H. apply existsb_exists in H.
  destruct H as [item [Hin Hitem]]. apply andb_true_iff in Hitem.
  destruct Hitem as [Hn Hc]. apply String.eqb_eq in Hn.
  exists lists, item. repeat split; try assumption. discriminate.
Qed.

(** C9. When [isDeployed] returns true, the name of the device is in the
    registry file and the configuration file of that record is on disk;
    [deploy] then returns without an error and leaves the world as it is:
    the registry file, the target directory and the configuration file are
    untouched. *)
Theorem deploy_of_deployed_device_is_silent (d : DeviceImpl) (w : World) :
  fst (isDeployed d w) = Return true ->
  (exists lists item,
     holdsJson w (listsPathOf d) (JArray lists)
     /\ In item lists
     /\ FullDeployedImageOptions.name item = name (options d)
     /\ exists_in (fs w)
          (Path.resolve (FullDeployedImageOptions.path item) "config.ini") = true)
  /\ deploy d w = (Return tt, w).
Proof.
  intros H. split.
  - now apply isDeployed_true.
  - now apply deploy_when_deployed.
Qed.

(** C2, as amended. With the deployment directory present, a call of
    [deploy] for a device whose name is in the registry file, or whose
    target directory exists, returns silently when [isDeployed] is true
    and fails with [DEVICE_ALREADY_DEPLOYED] when [isDeployed] is false;
    either way the world is unchanged, so the registry file names the
    device as often as before. *)
Theorem second_deploy (d : DeviceImpl) (w : World) (deployed : bool) :
  exists_in (fs w) (deployedPathOf d) = true ->
  fst (isDeployed d w) = Return deployed ->
  registered d w
  \/ exists_in (fs w) (FullDeployedImageOptions.path (buildList d)) = true ->
  (deployed = true -> deploy d w = (Return tt, w))
  /\ (deployed = false ->
      exists msg, deploy d w = (Throw (DeployError DEVICE_ALREADY_DEPLOYED msg), w))
  /\ registryCount d (snd (deploy d w)) = registryCount d w.
Proof.
  intros Hdp Hd Hor.
  assert (H1 : deployed = true -> deploy d w = (Return tt, w))
    by (intros ->; now apply deploy_when_deployed).
  assert (H2 : deployed = false ->
          exists msg, deploy d w = (Throw (DeployError DEVICE_ALREADY_DEPLOYED msg), w)).
  { intros ->. destruct Hor as [Hr|Ht].
    - now apply deploy_name_present.
    - eexists. now apply deploy_target_present. }
  split; [assumption|]. split; [assumption|].
  destruct deployed.
  - now rewrite H1.
  - destruct (H2 eq_refl) as [msg ->]. reflexivity.
Qed.

(** Without registry file, [deploy] writes the registry file and returns:
    the early [return] of the first deployment. *)
Lemma deploy_without_registry (d : DeviceImpl) (w : World) :
  exists_in (fs w) (deployedPathOf d) = true ->
  exists_in (fs w) (listsPathOf d) = false ->
  exists_in (fs w) (FullDeployedImageOptions.path (buildList d)) = false ->
  deploy d w = writeFileSync (listsPathOf d) (JSON_stringify [buildList d]) w.
Proof.
  intros Hdp Hl Ht. unfold deploy. cbv zeta.
  assert (Hd : isDeployed d w = (Return false, w)).
  { unfold isDeployed. rewrite (bind_return _ _ w w false); [reflexivity|].
    rewrite existsSync_run. now rewrite Hl. }
  next false ltac:(exact Hd).
  cbv beta iota zeta.
  next true ltac:((rewrite existsSync_run; now rewrite Hdp)).
  simpl (negb _). unfold when.
  next tt ltac:(reflexivity).
  next false ltac:((rewrite existsSync_run; now rewrite Ht)).
  cbv beta iota zeta.
  change (Path.join (deployedPathOf d) "lists.json") with (listsPathOf d).
  next false ltac:((rewrite existsSync_run; now rewrite Hl)).
  reflexivity.
Qed.

(** Writing a file creates no directory. *)
Lemma writeFileSync_no_directory (p : string) (c : content) (w : World)
    (q : list string) :
  fs_lookup (fs (snd (writeFileSync p c w))) q = Some Dir ->
  fs_lookup (fs w) q = Some Dir.
Proof.
  unfold writeFileSync, lift_fs, fs_write.
  destruct p as [|a p]; [trivial|].
  destruct (Path.segments (String a p)) as [|s ss] eqn:Es; [trivial|].
  destruct (fs_lookup (fs w) (removelast (s :: ss))) as [[?|]|]; try trivial.
  destruct (fs_lookup (fs w) (s :: ss)) as [[?|]|]; try trivial;
    simpl; unfold fs_lookup, fs_put;
    (destruct q as [|q0 qs]; [trivial|]);
    destruct (segments_eqb (q0 :: qs) (s :: ss)); trivial; discriminate.
Qed.

(** The first deployment creates no directory at all. *)
Lemma first_deployment_creates_no_directory (d : DeviceImpl) (w : World)
    (q : list string) :
  exists_in (fs w) (deployedPathOf d) = true ->
  exists_in (fs w) (listsPathOf d) = false ->
  exists_in (fs w) (FullDeployedImageOptions.path (buildList d)) = false ->
  fs_lookup (fs (snd (deploy d w))) q = Some Dir ->
  fs_lookup (fs w) q = Some Dir.
Proof.
  intros Hdp Hl Ht. rewrite (deploy_without_registry d w Hdp Hl Ht).
  apply writeFileSync_no_directory.
Qed.

End RegistryFacts.

Section NonArrayRegistry.

Context {JN : JSNumber}.

Variable INI_parse : content -> IniObject.
Variable default_product_config : ProductConfig.
Variable parseProductConfig : content -> exn + ProductConfig.

Lemma getDevices_non_array (i : Image.t) (w : World) (j : json) :
  isArray j = false ->
  holdsJson w (Path.resolve (ManagerOptions.deployedPath (Image.imageManager i))
                 "lists.json") j ->
  getDevices INI_parse default_product_config parseProductConfig i w = (Return [], w).
Proof.
  intros Hj Hh. unfold getDevices. cbv zeta.
  next true ltac:(rewrite existsSync_run; now rewrite (holdsJson_exists _ _ _ Hh)).
  simpl (negb _). cbv beta iota.
  next (File (JsonText j)) ltac:(now apply holdsJson_stat).
  simpl (negb _). cbv beta iota.
  next (JsonText j) ltac:(now apply holdsJson_read).
  next j ltac:(reflexivity).
  destruct j; [reflexivity|discriminate|reflexivity].
Qed.

Lemma isDeployed_payload (d : DeviceImpl) (w : World) (j : json) :
  holdsJson w (listsPathOf d) j ->
  isDeployed d w
  = match orEmptyArray j with
    | JArray lists =>
        (Return
           (existsb
              (fun item =>
                 (FullDeployedImageOptions.name item =? name (options d))
                 && exists_in (fs w)
                      (Path.resolve (FullDeployedImageOptions.path item) "config.ini"))
              lists), w)
    | _ => (Throw (TypeError "lists.some is not a function"), w)
    end.
Proof.
  intros Hh. unfold isDeployed. cbv zeta.
  next true ltac:(rewrite existsSync_run; now rewrite (holdsJson_exists _ _ _ Hh)).
  simpl (negb _). cbv beta iota.
  next (File (JsonText j)) ltac:(now apply holdsJson_stat).
  simpl (negb _). cbv beta iota.
  next (JsonText j) ltac:(now apply holdsJson_read).
  next j ltac:(reflexivity).
  destruct (orEmptyArray j); reflexivity.
Qed.

Lemma delete_payload (d : DeviceImpl) (w : World) (j : json) :
  holdsJson w (listsPathOf d) j ->
  isArray j = false ->
  delete d w
  = match j with
    | JNull => (Throw (PlainError ("Device " ++ name (options d) ++ " not found")), w)
    | _ => (Throw (TypeError "lists.findIndex is not a function"), w)
    end.
Proof.
  intros Hh Hj. unfold delete. cbv zeta.
  next true ltac:(rewrite existsSync_run; now rewrite (holdsJson_exists _ _ _ Hh)).
  simpl (negb _). cbv beta iota.
  next (File (JsonText j)) ltac:(now apply holdsJson_stat).
  simpl (negb _). cbv beta iota.
  next (JsonText j) ltac:(now apply holdsJson_read).
  next j ltac:(reflexivity).
  destruct j; [reflexivity|discriminate|reflexivity].
Qed.

(** C8, as amended. When the registry file holds JSON that is no array,
    [getDevices] returns no devices; when that JSON is [null], [isDeployed]
    returns false and [delete] reports that the device is not found, the
    payload being read as an empty registry; for any other payload that is
    no array, [isDeployed], [deploy] and [delete] fail with an error. None
    of these calls changes the world. *)
Theorem non_array_registry (d : DeviceImpl) (i : Image.t) (w : World) (j : json) :
  isArray j = false ->
  holdsJson w (listsPathOf d) j ->
  holdsJson w (Path.resolve (ManagerOptions.deployedPath (Image.imageManager i))
                 "lists.json") j ->
  getDevices INI_parse default_product_config parseProductConfig i w = (Return [], w)
  /\ (j = JNull ->
      isDeployed d w = (Return false, w)
      /\ delete d w
         = (Throw (PlainError ("Device " ++ name (options d) ++ " not found")), w))
  /\ (j <> JNull ->
      (exists e, isDeployed d w = (Throw e, w))
      /\ (exists e, deploy d w = (Throw e, w))
      /\ (exists e, delete d w = (Throw e, w))).
Proof.
  intros Hj Hd Hi. split; [exact (getDevices_non_array i w j Hj Hi)|]. split.
  - intros ->. split.
    + now rewrite (isDeployed_payload d w JNull Hd).
    + now rewrite (delete_payload d w JNull Hd Hj).
  - intros Hn. destruct j as [| |]; [contradiction|discriminate|].
    assert (Hdep : isDeployed d w
                   = (Throw (TypeError "lists.some is not a function"), w))
      by now rewrite (isDeployed_payload d w JOther Hd).
    split; [eexists; exact Hdep|]. split.
    + eexists. unfold deploy. apply bind_throw. exact Hdep.
    + eexists. now rewrite (delete_payload d w JOther Hd Hj).
Qed.

End NonArrayRegistry.

(** C3, at the failing input: the deployment directory exists and holds no
    registry file. [deploy] returns normally and the registry file holds
    the new record, but the target directory is not created and no
    configuration file is written; the device is not deployed. *)
Theorem first_deployment_stops_after_registry :
  let w := Scenario.world Scenario.freshFs in
  let w' := snd (deploy Scenario.fold w) in
  exists_in (fs w) (listsPathOf Scenario.fold) = false
  /\ fst (deploy Scenario.fold w) = Return tt
  /\ fs w' ["deployed"; "lists.json"]
     = Some (File (JSON_stringify [buildList Scenario.fold]))
  /\ FullDeployedImageOptions.path (buildList Scenario.fold) = "/deployed/MateBook Fold"
  /\ exists_in (fs w') "/deployed/MateBook Fold" = false
  /\ exists_in (fs w') "/deployed/MateBook Fold/config.ini" = false
  /\ fst (isDeployed Scenario.fold w') = Return false.
Proof. repeat split. Qed.

(** The next deployment, into the registry the first one left, does all
    three things. *)
Lemma later_deployment_completes :
  let w := Scenario.world (Scenario.registryFs (JArray [])) in
  let w' := snd (deploy Scenario.fold w) in
  fst (deploy Scenario.fold w) = Return tt
  /\ fs w' ["deployed"; "lists.json"]
     = Some (File (JSON_stringify [buildList Scenario.fold]))
  /\ fs w' ["deployed"; "MateBook Fold"] = Some Dir
  /\ fs w' ["deployed"; "MateBook Fold"; "config.ini"]
     = Some (File (Raw (toIniString Scenario.fold))).
Proof. repeat split. Qed.

(** After the first deployment the device is in the registry and not
    deployed: the second call is refused. *)
Lemma second_deploy_after_first_deployment :
  let w' := snd (deploy Scenario.fold (Scenario.world Scenario.freshFs)) in
  fst (isDeployed Scenario.fold w') = Return false
  /\ deploy Scenario.fold w'
     = (Throw (DeployError DEVICE_ALREADY_DEPLOYED
                 "Image MateBook Fold already deployed in lists.json"), w').
Proof. split; reflexivity. Qed.

(** C2, as stated, fails: after a deployment that succeeded, the second
    call of [deploy] for the same device returns normally. *)
Lemma second_deploy_can_succeed :
  fst (deploy Scenario.fold (Scenario.world (Scenario.registryFs (JArray []))))
    = Return tt
  /\ registered Scenario.fold Scenario.deployedWorld
  /\ fst (deploy Scenario.fold Scenario.deployedWorld) = Return tt.
Proof.
  split; [reflexivity|]. split; [|reflexivity].
  exists [buildList Scenario.fold]. split; [split; [discriminate|reflexivity]|reflexivity].
Qed.

Lemma second_deploy_witness :
  exists_in (fs Scenario.deployedWorld) (deployedPathOf Scenario.fold) = true
  /\ fst (isDeployed Scenario.fold Scenario.deployedWorld) = Return true
  /\ (registered Scenario.fold Scenario.deployedWorld
      \/ exists_in (fs Scenario.deployedWorld)
           (FullDeployedImageOptions.path (buildList Scenario.fold)) = true)
  /\ registryCount Scenario.fold
       (snd (deploy Scenario.fold Scenario.deployedWorld)) = 1.
Proof.
  assert (H1 : exists_in (fs Scenario.deployedWorld) (deployedPathOf Scenario.fold)
               = true) by reflexivity.
  assert (H2 : fst (isDeployed Scenario.fold Scenario.deployedWorld) = Return true)
    by reflexivity.
  assert (H3 : registered Scenario.fold Scenario.deployedWorld
               \/ exists_in (fs Scenario.deployedWorld)
                    (FullDeployedImageOptions.path (buildList Scenario.fold)) = true)
    by (right; reflexivity).
  split; [exact H1|]. split; [exact H2|]. split; [exact H3|].
  destruct (second_deploy Scenario.fold Scenario.deployedWorld true H1 H2 H3)
    as [_ [_ H]].
  rewrite H. reflexivity.
Defined.

Lemma deploy_of_deployed_device_is_silent_witness :
  fst (isDeployed Scenario.fold Scenario.deployedWorld) = Return true
  /\ deploy Scenario.fold Scenario.deployedWorld = (Return tt, Scenario.deployedWorld).
Proof.
  split; [reflexivity|].
  destruct (deploy_of_deployed_device_is_silent
              Scenario.fold Scenario.deployedWorld eq_refl) as [_ H].
  exact H.
Defined.

(** C8, as stated, fails: with a registry file that holds an object,
    [getDevices] returns the empty list; with one that holds [null],
    [deploy] succeeds and leaves a registry of one record. *)
Lemma non_array_registry_is_coerced :
  holdsJson (Scenario.world (Scenario.registryFs JOther)) "/deployed/lists.json" JOther
  /\ fst (getDevices (JN := WholeNumber.whole) Scenario.noIniReader [] Scenario.noProductConfig
            Scenario.image
            (Scenario.world (Scenario.registryFs JOther))) = Return []
  /\ holdsJson (Scenario.world (Scenario.registryFs JNull)) "/deployed/lists.json" JNull
  /\ fst (deploy Scenario.fold (Scenario.world (Scenario.registryFs JNull))) = Return tt
  /\ fs (snd (deploy Scenario.fold (Scenario.world (Scenario.registryFs JNull))))
       ["deployed"; "lists.json"]
     = Some (File (JSON_stringify [buildList Scenario.fold])).
Proof. repeat split; discriminate. Qed.

Lemma non_array_registry_witness :
  isArray JOther = false
  /\ holdsJson (Scenario.world (Scenario.registryFs JOther))
       (listsPathOf Scenario.fold) JOther
  /\ holdsJson (Scenario.world (Scenario.registryFs JOther))
       (Path.resolve (ManagerOptions.deployedPath (Image.imageManager Scenario.image))
          "lists.json") JOther
  /\ getDevices (JN := WholeNumber.whole) Scenario.noIniReader [] Scenario.noProductConfig
            Scenario.image
       (Scenario.world (Scenario.registryFs JOther))
     = (Return [], Scenario.world (Scenario.registryFs JOther)).
Proof.
  assert (H1 : holdsJson (Scenario.world (Scenario.registryFs JOther))
                 (listsPathOf Scenario.fold) JOther)
    by (split; [discriminate|reflexivity]).
  assert (H2 : holdsJson (Scenario.world (Scenario.registryFs JOther))
                 (Path.resolve
                    (ManagerOptions.deployedPath (Image.imageManager Scenario.image))
                    "lists.json") JOther)
    by (split; [discriminate|reflexivity]).
  split; [reflexivity|]. split; [exact H1|]. split; [exact H2|].
  destruct (non_array_registry Scenario.noIniReader [] Scenario.noProductConfig
              Scenario.fold Scenario.image
              (Scenario.world (Scenario.registryFs JOther)) JOther eq_refl H1 H2)
    as [H _].
  exact H.
Defined.

(** ** The download *)

Lemma segments_eqb_refl (p : list string) : segments_eqb p p = true.
Proof. unfold segments_eqb. destruct (list_eq_dec string_dec p p); congruence. Qed.

Lemma segments_eqb_true (p q : list string) : segments_eqb p q = true -> p = q.
Proof. unfold segments_eqb. destruct (list_eq_dec string_dec p q); congruence. Qed.

Lemma is_prefix_refl (p : list string) : is_prefix p p = true.
Proof. induction p as [|a p IH]; simpl; [reflexivity|]. now rewrite String.eqb_refl. Qed.

Lemma is_prefix_length (p q : list string) :
  is_prefix p q = true -> List.length p <= List.length q.
Proof.
  revert q. induction p as [|a p IH]; intros [|b q]; simpl; try lia; try discriminate.
  intros H. apply andb_true_iff in H. destruct H as [_ H]. apply IH in H. lia.
Qed.

Lemma removelast_shorter (p : list string) :
  p <> [] -> List.length (removelast p) < List.length p.
Proof.
  intros Hp. destruct (exists_last Hp) as [q [a ->]].
  rewrite removelast_last, length_app. simpl. lia.
Qed.

Lemma is_prefix_parent (p : list string) :
  p <> [] -> is_prefix p (removelast p) = false.
Proof.
  intros Hp. destruct (is_prefix p (removelast p)) eqn:E; [|reflexivity].
  apply is_prefix_length in E. pose proof (removelast_shorter p Hp). lia.
Qed.

(** In a well-formed file system the parent of a node is a directory,
    also after the node was removed. *)
Lemma parent_of_node (f : FS) (p : list string) (n : node) :
  wellFormed f -> p <> [] -> f p = Some n ->
  fs_lookup f (removelast p) = Some Dir
  /\ fs_lookup (fs_remove_tree p f) (removelast p) = Some Dir.
Proof.
  intros Hwf Hp Hn. pose proof (Hwf p n Hp Hn) as Hd. split; [exact Hd|].
  unfold fs_lookup, fs_remove_tree in *.
  destruct (removelast p) eqn:E; [reflexivity|].
  rewrite <- E. rewrite (is_prefix_parent p Hp). now rewrite E.
Qed.

Lemma resolve_nonempty (a b : string) : exists s, Path.resolve a b = String "/" s.
Proof.
  unfold Path.resolve, Path.render. destruct (Str.starts_with_sep b); simpl; eauto.
Qed.

Section DownloadFacts.

Variable sizeOfDirectory : N.
Variable jsonText : json -> string.

Lemma startByteOf_run (p : string) (w : World) :
  p <> "" ->
  startByteOf sizeOfDirectory jsonText p w
  = (Return match fs_lookup (fs w) (Path.segments p) with
            | Some n => size sizeOfDirectory jsonText n
            | None => 0%N
            end, w).
Proof.
  intros Hp. unfold startByteOf, bind, existsSync, exists_in, statSync, ret.
  destruct p as [|a p]; [contradiction|].
  destruct (fs_lookup (fs w) (Path.segments (String a p))) eqn:E; simpl;
    [rewrite E|]; reflexivity.
Qed.

(** What [startDownload] does once the cache directory is there. *)
Lemma startDownload_run (dl : ImageDownloader) (w w1 : World) :
  ensureCacheDirectory dl w = (Return tt, w1) ->
  let p := getCacheFsPath dl in
  let startByte :=
    match fs_lookup (fs w1) (Path.segments p) with
    | Some n => size sizeOfDirectory jsonText n
    | None => 0%N
    end in
  let request := mkRequest (getUrl dl) (rangeHeaders startByte) in
  let w2 := mkWorld (fs w1) (uuids w1) (drawn w1) (http w1) (sent w1 ++ [request]) in
  startDownload sizeOfDirectory jsonText dl w
  = match http w1 request with
    | NetworkFailure => (Throw (AxiosError None), w2)
    | Response status chunks complete =>
        if validateStatus status then
          bind (when ((0 <? startByte)%N && negb (status =? 206)%N)
                  (rmSync p false true))
            (fun _ =>
               pipeToFile jsonText p
                 (if (0 <? (if (0 <? startByte)%N && (status =? 206)%N
                            then startByte else 0))%N
                  then "a" else "w")
                 chunks complete) w2
        else (Throw (AxiosError (Some status)), w2)
    end.
Proof.
  intros He p startByte request w2. unfold startDownload. cbv zeta.
  rewrite (bind_return _ _ w w1 tt He). cbv beta.
  assert (Hp : p <> "").
  { unfold p, getCacheFsPath.
    destruct (resolve_nonempty
                (ManagerOptions.cachePath (Image.imageManager (downloaderImage dl)))
                (Path.basename (getUrl dl))) as [s ->]. discriminate. }
  rewrite (bind_return _ _ w1 w1 startByte (startByteOf_run p w1 Hp)). cbv beta.
  fold p. fold startByte.
  unfold bind at 1. unfold axios_get. fold request. fold w2.
  destruct (http w1 request) as [|status chunks complete]; [reflexivity|].
  destruct (validateStatus status); reflexivity.
Qed.

Lemma pipeToFile_sent (p flags : string) (chunks : list string) (complete : bool)
    (w : World) :
  sent (snd (pipeToFile jsonText p flags chunks complete w)) = sent w.
Proof.
  unfold pipeToFile. destruct (fs_write p _ (fs w)); [reflexivity|].
  destruct complete; reflexivity.
Qed.

Lemma lift_fs_sent (step : FS -> exn + FS) (w : World) :
  sent (snd (lift_fs step w)) = sent w.
Proof. unfold lift_fs. destruct (step (fs w)); reflexivity. Qed.

(** C5. Once the cache directory is there, [startDownload] sends one
    request; it carries [Range: bytes=<startByte>-] when [startByte], the
    size of what is at the cache path, is positive, and no header when it
    is zero. A reply with a status other than 200 and 206 makes the call
    fail and leaves the files alone. When a cache file of positive size
    exists, a 200 reply replaces it by the body of the reply and a 206
    reply appends the body to it. *)
Theorem startDownload_protocol (dl : ImageDownloader) (w w1 : World) :
  ensureCacheDirectory dl w = (Return tt, w1) ->
  wellFormed (fs w1) ->
  let p := getCacheFsPath dl in
  let result := startDownload sizeOfDirectory jsonText dl w in
  exists startByte,
    startByteOf sizeOfDirectory jsonText p w1 = (Return startByte, w1)
    /\ startByte = match fs_lookup (fs w1) (Path.segments p) with
                   | Some n => size sizeOfDirectory jsonText n
                   | None => 0%N
                   end
    /\ sent (snd result)
       = (sent w1 ++ [mkRequest (getUrl dl) (rangeHeaders startByte)])%list
    /\ ((0 < startByte)%N ->
        rangeHeaders startByte = [("Range", "bytes=" ++ Str.of_N startByte ++ "-")])
    /\ (startByte = 0%N -> rangeHeaders startByte = [])
    /\ forall status chunks complete,
         http w1 (mkRequest (getUrl dl) (rangeHeaders startByte))
           = Response status chunks complete ->
         (status <> 200%N -> status <> 206%N ->
          fst result = Throw (AxiosError (Some status)) /\ fs (snd result) = fs w1)
         /\ (forall c,
               fs_lookup (fs w1) (Path.segments p) = Some (File c) ->
               (0 < startByte)%N ->
               (status = 200%N ->
                fs_lookup (fs (snd result)) (Path.segments p)
                = Some (File (Raw (Str.join "" chunks))))
               /\ (status = 206%N ->
                   fs_lookup (fs (snd result)) (Path.segments p)
                   = Some (File (Raw (textOf jsonText c ++ Str.join "" chunks))))
               /\ (status = 200%N \/ status = 206%N ->
                   complete = true -> fst result = Return tt)).
Proof.
  intros He Hwf p result.
  assert (Hp : p <> "").
  { unfold p, getCacheFsPath.
    destruct (resolve_nonempty
                (ManagerOptions.cachePath (Image.imageManager (downloaderImage dl)))
                (Path.basename (getUrl dl))) as [s ->]. discriminate. }
  pose proof (startDownload_run dl w w1 He) as Hrun. cbv zeta in Hrun. fold p in Hrun.
  set (startByte := match fs_lookup (fs w1) (Path.segments p) with
                    | Some n => size sizeOfDirectory jsonText n
                    | None => 0%N
                    end) in *.
  set (request := mkRequest (getUrl dl) (rangeHeaders startByte)) in *.
  exists startByte.
  split; [now apply startByteOf_run|]. split; [reflexivity|]. split.
  { unfold result. rewrite Hrun.
    destruct (http w1 request) as [|status chunks complete]; [reflexivity|].
    destruct (validateStatus status); [|reflexivity].
    unfold bind, when.
    destruct ((0 <? startByte)%N && negb (status =? 206)%N).
    - match goal with
      | |- context [rmSync ?q ?r ?f ?v] =>
          pose proof (lift_fs_sent
            (fun f0 =>
               match (match q with
                      | EmptyString => None
                      | _ => fs_lookup f0 (Path.segments q)
                      end) with
               | None => if f then inr f0 else inl (SystemError "ENOENT")
               | Some Dir =>
                   if r then inr (fs_remove_tree (Path.segments q) f0)
                   else inl (SystemError "ERR_FS_EISDIR")
               | Some (File _) => inr (fs_remove_tree (Path.segments q) f0)
               end) v) as Hs;
          change (sent (snd (rmSync q r f v)) = sent v) in Hs;
          destruct (rmSync q r f v) as [[[]|e] v']; simpl in Hs
      end.
      + rewrite pipeToFile_sent. exact Hs.
      + exact Hs.
    - simpl. now rewrite pipeToFile_sent. }
  split.
  { intros Hpos. unfold rangeHeaders. apply N.ltb_lt in Hpos. now rewrite Hpos. }
  split.
  { intros ->. reflexivity. }
  intros status chunks complete Hreply.
  change (http w1 request = Response status chunks complete) in Hreply. split.
  { intros H200 H206. unfold result. rewrite Hrun, Hreply.
    apply N.eqb_neq in H200, H206. unfold validateStatus. rewrite H200, H206.
    split; reflexivity. }
  intros c Hc Hpos.
  assert (Hsegs : Path.segments p <> []).
  { intros E. rewrite E in Hc. discriminate. }
  assert (Hf : fs w1 (Path.segments p) = Some (File c)).
  { unfold fs_lookup in Hc. destruct (Path.segments p); [contradiction|exact Hc]. }
  destruct (parent_of_node (fs w1) (Path.segments p) (File c) Hwf Hsegs Hf)
    as [Hparent Hparent'].
  apply N.ltb_lt in Hpos.
  assert (H200 : status = 200%N ->
            result
            = ((if complete then Return tt else Throw StreamError),
               mkWorld (fs_put (Path.segments p) (File (Raw (Str.join "" chunks)))
                          (fs_remove_tree (Path.segments p) (fs w1)))
                 (uuids w1) (drawn w1) (http w1) (sent w1 ++ [request]))).
  { intros ->. unfold result. rewrite Hrun, Hreply. simpl validateStatus. cbv iota.
    rewrite Hpos. simpl.
    unfold bind, when, rmSync, lift_fs. simpl fs.
    destruct p as [|a p']; [contradiction|].
    rewrite Hc. simpl.
    unfold pipeToFile, fs_write. simpl fs.
    destruct (Path.segments (String a p')) as [|s ss] eqn:Es; [contradiction|].
    rewrite Hparent'.
    assert (Hgone : fs_lookup (fs_remove_tree (s :: ss) (fs w1)) (s :: ss) = None).
    { unfold fs_lookup, fs_remove_tree. now rewrite is_prefix_refl. }
    rewrite Hgone. destruct complete; reflexivity. }
  assert (H206 : status = 206%N ->
            result
            = ((if complete then Return tt else Throw StreamError),
               mkWorld (fs_put (Path.segments p)
                          (File (Raw (textOf jsonText c ++ Str.join "" chunks)))
                          (fs w1))
                 (uuids w1) (drawn w1) (http w1) (sent w1 ++ [request]))).
  { intros ->. unfold result. rewrite Hrun, Hreply. simpl validateStatus. cbv iota.
    rewrite Hpos. simpl. rewrite Hpos.
    unfold bind, when, ret. simpl.
    unfold pipeToFile, fs_write. simpl fs.
    destruct p as [|a p']; [contradiction|].
    rewrite Hc.
    destruct (Path.segments (String a p')) as [|s ss] eqn:Es; [contradiction|].
    rewrite Hparent. destruct complete; reflexivity. }
  split; [|split].
  - intros E. rewrite (H200 E). simpl. unfold fs_lookup, fs_put.
    destruct (Path.segments p); [contradiction|]. now rewrite segments_eqb_refl.
  - intros E. rewrite (H206 E). simpl. unfold fs_lookup, fs_put.
    destruct (Path.segments p); [contradiction|]. now rewrite segments_eqb_refl.
  - intros [E|E] ->; [rewrite (H200 E)|rewrite (H206 E)]; reflexivity.
Qed.

End DownloadFacts.

Lemma partialFs_wellFormed : wellFormed Scenario.partialFs.
Proof.
  intros p n Hp H. unfold Scenario.partialFs, fs_put in H.
  destruct (segments_eqb p ["images"; "cache"; "pc_all_arm.zip"]) eqn:E1;
    [apply segments_eqb_true in E1; subst p; reflexivity|].
  destruct (segments_eqb p ["images"; "cache"]) eqn:E2;
    [apply segments_eqb_true in E2; subst p; reflexivity|].
  destruct (segments_eqb p ["images"]) eqn:E3;
    [apply segments_eqb_true in E3; subst p; reflexivity|].
  discriminate.
Qed.

(** The three replies at a cache that holds the four bytes [PK12]: the
    request asks for the bytes from 4 on; a 200 reply overwrites, a 206
    reply appends, a 404 reply fails. *)
Lemma download_scenarios :
  sent (snd (startDownload 4096 (fun _ => "") Scenario.downloader
               (Scenario.online 206 Scenario.partialFs)))
    = [mkRequest "https://example.org/images/pc_all_arm.zip" [("Range", "bytes=4-")]]
  /\ fs (snd (startDownload 4096 (fun _ => "") Scenario.downloader
                (Scenario.online 200 Scenario.partialFs)))
       ["images"; "cache"; "pc_all_arm.zip"]
     = Some (File (Raw "3456"))
  /\ fs (snd (startDownload 4096 (fun _ => "") Scenario.downloader
                (Scenario.online 206 Scenario.partialFs)))
       ["images"; "cache"; "pc_all_arm.zip"]
     = Some (File (Raw "PK123456"))
  /\ fst (startDownload 4096 (fun _ => "") Scenario.downloader
            (Scenario.online 404 Scenario.partialFs))
     = Throw (AxiosError (Some 404%N))
  /\ sent (snd (startDownload 4096 (fun _ => "") Scenario.downloader
                  (Scenario.online 200 (fs_put ["images"] Dir fs_empty))))
     = [mkRequest "https://example.org/images/pc_all_arm.zip" []].
Proof. repeat split. Qed.

Lemma startDownload_protocol_witness :
  ensureCacheDirectory Scenario.downloader (Scenario.online 200 Scenario.partialFs)
    = (Return tt, Scenario.online 200 Scenario.partialFs)
  /\ wellFormed (fs (Scenario.online 200 Scenario.partialFs))
  /\ exists startByte,
       startByteOf 4096 (fun _ => "") (getCacheFsPath Scenario.downloader)
         (Scenario.online 200 Scenario.partialFs)
       = (Return startByte, Scenario.online 200 Scenario.partialFs)
       /\ startByte = 4%N.
Proof.
  assert (H1 : ensureCacheDirectory Scenario.downloader
                 (Scenario.online 200 Scenario.partialFs)
               = (Return tt, Scenario.online 200 Scenario.partialFs)) by reflexivity.
  assert (H2 : wellFormed (fs (Scenario.online 200 Scenario.partialFs)))
    by exact partialFs_wellFormed.
  split; [exact H1|]. split; [exact H2|].
  destruct (startDownload_protocol 4096 (fun _ => "") Scenario.downloader
              (Scenario.online 200 Scenario.partialFs)
              (Scenario.online 200 Scenario.partialFs) H1 H2)
    as [startByte [Hs [He _]]].
  exists startByte. split; [exact Hs|]. rewrite He. reflexivity.
Defined.

(** * Further properties *)

(** ** Paths *)

Lemma split_app (sep : ascii) (a b : string) :
  Str.split sep (a ++ String sep b) = (Str.split sep a ++ Str.split sep b)%list.
Proof.
  induction a as [|c a IH]; simpl.
  - now rewrite Ascii.eqb_refl.
  - destruct (Ascii.eqb c sep); rewrite IH; [reflexivity|].
    destruct (Str.split sep a) as [|p ps] eqn:E; [|reflexivity].
    now apply split_nonempty in E.
Qed.

Lemma split_pieces (sep : ascii) (s : string) :
  Forall (fun p => Str.mem sep p = false) (Str.split sep s).
Proof.
  induction s as [|c s IH]; simpl.
  - repeat constructor.
  - destruct (Ascii.eqb c sep) eqn:E.
    + constructor; [reflexivity|assumption].
    + destruct (Str.split sep s) as [|p ps]; [repeat constructor; simpl; now rewrite E|].
      inversion IH; subst. constructor; [simpl; now rewrite E|assumption].
Qed.

Lemma split_no_sep (sep : ascii) (a : string) :
  Str.mem sep a = false -> Str.split sep a = [a].
Proof.
  induction a as [|c a IH]; simpl; intros H; [reflexivity|].
  apply orb_false_iff in H. destruct H as [Hc Ha].
  rewrite Hc, (IH Ha). reflexivity.
Qed.

(** Splitting undoes joining, for pieces without separator. *)
Lemma split_join (sep : ascii) (ps : list string) :
  ps <> [] ->
  Forall (fun p => Str.mem sep p = false) ps ->
  Str.split sep (Str.join (String sep EmptyString) ps) = ps.
Proof.
  induction ps as [|p ps IH]; [contradiction|]. intros _ HF.
  inversion HF as [|? ? Hp HF']; subst.
  destruct ps as [|q ps].
  - simpl. now apply split_no_sep.
  - change (Str.join (String sep EmptyString) (p :: q :: ps))
      with (p ++ String sep (Str.join (String sep EmptyString) (q :: ps))).
    rewrite split_app, (split_no_sep sep p Hp), IH; [reflexivity|discriminate|assumption].
Qed.

Lemma normalize_segments_app (b : bool) (acc l1 l2 : list string) :
  Path.normalize_segments b acc (l1 ++ l2)
  = Path.normalize_segments b (List.rev (Path.normalize_segments b acc l1)) l2.
Proof.
  revert acc. induction l1 as [|s l1 IH]; intros acc; simpl.
  - now rewrite rev_involutive.
  - destruct ((s =? "") || (s =? ".")); [apply IH|].
    destruct (s =? "..").
    + destruct acc as [|top acc']; [destruct b; apply IH|].
      destruct (top =? ".."); apply IH.
    + apply IH.
Qed.

Lemma plainSegment_tests (s : string) :
  plainSegment s -> (s =? "") = false /\ (s =? ".") = false /\ (s =? "..") = false.
Proof.
  intros [H1 [H2 [H3 _]]]. repeat split; now apply String.eqb_neq.
Qed.

(** Plain segments are kept as they are. *)
Lemma normalize_segments_plain (b : bool) (acc segs : list string) :
  Forall plainSegment segs ->
  Path.normalize_segments b acc segs = (List.rev acc ++ segs)%list.
Proof.
  revert acc. induction segs as [|s segs IH]; intros acc HF; simpl.
  - now rewrite app_nil_r.
  - inversion HF as [|? ? Hs HF']; subst.
    destruct (plainSegment_tests s Hs) as [E1 [E2 E3]].
    rewrite E1, E2, E3. simpl. rewrite (IH (s :: acc) HF'). simpl.
    now rewrite <- app_assoc.
Qed.

(** Normalizing from the root gives plain segments. *)
Lemma normalize_segments_is_plain (acc segs : list string) :
  Forall plainSegment acc ->
  Forall (fun p => Str.mem "/" p = false) segs ->
  Forall plainSegment (Path.normalize_segments false acc segs).
Proof.
  revert acc. induction segs as [|s segs IH]; intros acc Hacc HF; simpl.
  - now apply Forall_rev.
  - inversion HF as [|? ? Hs HF']; subst.
    destruct (s =? "") eqn:E1; simpl; [now apply IH|].
    destruct (s =? ".") eqn:E2; simpl; [now apply IH|].
    destruct (s =? "..") eqn:E3.
    + destruct acc as [|top acc']; [now apply IH|].
      inversion Hacc as [|? ? Htop Hacc']; subst.
      destruct (plainSegment_tests top Htop) as [_ [_ E]]. rewrite E.
      now apply IH.
    + apply IH; [|assumption]. constructor; [|assumption].
      apply String.eqb_neq in E1, E2, E3. repeat split; assumption.
Qed.

Lemma segments_plain (p : string) : Forall plainSegment (Path.segments p).
Proof.
  unfold Path.segments. apply normalize_segments_is_plain; [constructor|].
  apply split_pieces.
Qed.

(** The segments of a rendered path are the segments rendered. *)
Lemma segments_render (segs : list string) :
  Forall plainSegment segs -> Path.segments (Path.render segs) = segs.
Proof.
  intros HF. unfold Path.segments, Path.render.
  change ("/" ++ Str.join "/" segs) with (String "/" (Str.join "/" segs)).
  change (String "/" (Str.join "/" segs))
    with ("" ++ String "/" (Str.join "/" segs)).
  rewrite split_app. simpl (Str.split "/" "").
  destruct segs as [|s segs]; [reflexivity|].
  rewrite split_join; [|discriminate|].
  - rewrite normalize_segments_app.
    change (Path.normalize_segments false [] [""]) with (@nil string).
    now rewrite normalize_segments_plain.
  - eapply Forall_impl; [|exact HF]. intros a [_ [_ [_ Ha]]]. exact Ha.
Qed.

(** The segments of [p/q] continue the segments of [p]. *)
Lemma segments_slash (p q : string) :
  Path.segments (p ++ "/" ++ q)
  = Path.normalize_segments false (List.rev (Path.segments p)) (Str.split "/" q).
Proof.
  unfold Path.segments.
  change (p ++ "/" ++ q) with (p ++ String "/" q).
  now rewrite split_app, normalize_segments_app.
Qed.

Lemma segments_child (p c : string) :
  plainSegment c -> Path.segments (p ++ "/" ++ c) = (Path.segments p ++ [c])%list.
Proof.
  intros Hc. rewrite segments_slash.
  destruct Hc as [H1 [H2 [H3 H4]]].
  rewrite (split_no_sep "/" c H4).
  rewrite normalize_segments_plain by (repeat constructor; assumption).
  now rewrite rev_involutive.
Qed.

(** [path.resolve(p, c)] for a plain name [c] is the child [c] of [p]. *)
Lemma resolve_child (p c : string) :
  plainSegment c ->
  Path.resolve p c = Path.render (Path.segments p ++ [c])
  /\ Path.segments (Path.resolve p c) = (Path.segments p ++ [c])%list.
Proof.
  intros Hc.
  assert (Hr : Path.resolve p c = Path.render (Path.segments p ++ [c])).
  { unfold Path.resolve.
    assert (Hs : Str.starts_with_sep c = false).
    { destruct Hc as [_ [_ [_ H4]]]. destruct c as [|a c]; [reflexivity|].
      simpl in H4. apply orb_false_iff in H4. destruct H4 as [Ha _].
      simpl. destruct a as [[] [] [] [] [] [] [] []]; try reflexivity; discriminate. }
    rewrite Hs. now rewrite segments_child. }
  split; [exact Hr|]. rewrite Hr. apply segments_render.
  apply Forall_app. split; [apply segments_plain|constructor; [assumption|constructor]].
Qed.

(** Whatever was climbed above the start is dropped when the segments are
    normalized from the root. *)
Lemma normalize_segments_above (l accF dots : list string) :
  Forall plainSegment accF ->
  Forall (fun s => s = "..") dots ->
  Forall (fun p => Str.mem "/" p = false) l ->
  Path.normalize_segments false []
    (Path.normalize_segments true (accF ++ dots) l)
  = Path.normalize_segments false accF l.
Proof.
  revert accF dots. induction l as [|s l IH]; intros accF dots HF Hd Hl.
  - simpl. rewrite rev_app_distr, normalize_segments_app.
    assert (E : Path.normalize_segments false [] (List.rev dots) = []).
    { apply Forall_rev in Hd. induction Hd as [|x xs Hx _ IHd]; [reflexivity|].
      subst x. exact IHd. }
    rewrite E. simpl (List.rev []).
    rewrite normalize_segments_plain by now apply Forall_rev.
    reflexivity.
  - inversion Hl as [|? ? Hs Hl']; subst. simpl.
    destruct (s =? "") eqn:E1; simpl; [now apply IH|].
    destruct (s =? ".") eqn:E2; simpl; [now apply IH|].
    destruct (s =? "..") eqn:E3.
    + destruct accF as [|top accF'].
      * simpl. apply String.eqb_eq in E3. subst s.
        destruct dots as [|d ds].
        -- apply (IH [] [".."]); [constructor|repeat constructor|assumption].
        -- inversion Hd; subst. simpl.
           apply (IH [] (".." :: ".." :: ds)); [constructor| |assumption].
           constructor; [reflexivity|assumption].
      * inversion HF as [|? ? Htop HF']; subst.
        destruct (plainSegment_tests top Htop) as [_ [_ E]].
        simpl. rewrite E. now apply IH.
    + apply (IH (s :: accF) dots); [|assumption|assumption].
      constructor; [|assumption].
      apply String.eqb_neq in E1, E2, E3. repeat split; assumption.
Qed.

Lemma normalize_segments_pieces (b : bool) (acc l : list string) :
  Forall (fun p => p <> "" /\ Str.mem "/" p = false) acc ->
  Forall (fun p => Str.mem "/" p = false) l ->
  Forall (fun p => p <> "" /\ Str.mem "/" p = false)
    (Path.normalize_segments b acc l).
Proof.
  revert acc. induction l as [|s l IH]; intros acc Ha Hl; simpl.
  - now apply Forall_rev.
  - inversion Hl as [|? ? Hs Hl']; subst.
    destruct (s =? "") eqn:E1; simpl; [now apply IH|].
    destruct (s =? ".") eqn:E2; simpl; [now apply IH|].
    assert (Hpush : Forall (fun p => p <> "" /\ Str.mem "/" p = false) (s :: acc)).
    { constructor; [|assumption]. apply String.eqb_neq in E1. now split. }
    destruct (s =? "..").
    + destruct acc as [|top acc'].
      * destruct b; apply IH; assumption.
      * destruct (top =? ".."); apply IH; try assumption.
        now inversion Ha.
    + now apply IH.
Qed.

Lemma join_starts (p : string) (ps : list string) :
  p <> "" -> exists c rest, Str.join "/" (p :: ps) = String c rest.
Proof.
  intros Hp. destruct p as [|c p]; [contradiction|].
  destruct ps; simpl; eauto.
Qed.

(** Normalizing a path keeps where it leads. *)
Lemma segments_normalize (s : string) :
  Path.segments (Path.normalize s) = Path.segments s.
Proof.
  destruct s as [|a s]; [reflexivity|].
  unfold Path.normalize.
  set (p := String a s).
  set (N := Path.normalize_segments (negb (Str.starts_with_sep p)) [] (Str.split "/" p)).
  assert (HA : Path.normalize_segments false [] N = Path.segments p).
  { unfold N. destruct (Str.starts_with_sep p); simpl (negb _).
    - fold (Path.segments p).
      rewrite normalize_segments_plain by apply segments_plain. reflexivity.
    - apply (normalize_segments_above (Str.split "/" p) [] []);
        [constructor|constructor|apply split_pieces]. }
  assert (HB : Forall (fun p => p <> "" /\ Str.mem "/" p = false) N).
  { unfold N. apply normalize_segments_pieces; [constructor|apply split_pieces]. }
  destruct N as [|n0 N'] eqn:EN.
  - simpl (Str.join "/" []). cbv iota. rewrite <- HA.
    destruct (Str.starts_with_sep p); [reflexivity|].
    destruct (Str.ends_with_sep p); reflexivity.
  - inversion HB as [|? ? [Hn0 _] _]; subst.
    destruct (join_starts n0 N' Hn0) as [c [rest Ej]].
    assert (Hsplit : Str.split "/" (Str.join "/" (n0 :: N')) = n0 :: N').
    { apply split_join; [discriminate|].
      eapply Forall_impl; [|exact HB]. now intros x [_ Hx]. }
    rewrite Ej. cbv iota zeta. rewrite <- Ej. rewrite <- HA.
    unfold Path.segments.
    assert (Htrail : Str.split "/" (Str.join "/" (n0 :: N') ++ "/")
                     = ((n0 :: N') ++ [""])%list).
    { change (Str.join "/" (n0 :: N') ++ "/")
        with (Str.join "/" (n0 :: N') ++ String "/" "").
      now rewrite split_app, Hsplit. }
    assert (Hdrop : Path.normalize_segments false [] ((n0 :: N') ++ [""])
                    = Path.normalize_segments false [] (n0 :: N')).
    { rewrite normalize_segments_app.
      change (Path.normalize_segments false ?a [""]) with (List.rev a).
      apply rev_involutive. }
    assert (Hlead : forall x, Str.split "/" ("/" ++ x) = ("" :: Str.split "/" x)).
    { intros x. reflexivity. }
    assert (Hskip : forall l, Path.normalize_segments false [] ("" :: l)
                              = Path.normalize_segments false [] l)
      by reflexivity.
    destruct (Str.starts_with_sep p), (Str.ends_with_sep p);
      rewrite ?Hlead, ?Hskip, ?Htrail, ?Hdrop, ?Hsplit; reflexivity.
Qed.

Lemma normalize_nonempty (s : string) : Path.normalize s <> "".
Proof.
  destruct s as [|a s]; [discriminate|].
  unfold Path.normalize.
  set (p := String a s).
  destruct (Str.join "/" _) as [|c body] eqn:Ej.
  - destruct (Str.starts_with_sep p); [discriminate|].
    destruct (Str.ends_with_sep p); discriminate.
  - cbv zeta. destruct (Str.starts_with_sep p); [discriminate|].
    destruct (Str.ends_with_sep p); discriminate.
Qed.

Lemma join_nonempty (a b : string) : Path.join a b <> "".
Proof.
  unfold Path.join. destruct a, b; try discriminate; apply normalize_nonempty.
Qed.

(** [path.join(a, b)] leads where [a/b] leads. *)
Lemma segments_join (a b : string) :
  Path.segments (Path.join a b) = Path.segments (a ++ "/" ++ b).
Proof.
  unfold Path.join. destruct a as [|x a], b as [|y b].
  - reflexivity.
  - now rewrite segments_normalize.
  - rewrite segments_normalize, segments_slash.
    change (Str.split "/" "") with [""].
    change (Path.normalize_segments false ?a [""]) with (List.rev a).
    now rewrite rev_involutive.
  - now rewrite segments_normalize.
Qed.

Lemma join_child (p c : string) :
  plainSegment c -> Path.segments (Path.join p c) = (Path.segments p ++ [c])%list.
Proof. intros Hc. rewrite segments_join. now apply segments_child. Qed.

Lemma plain_lists_json : plainSegment "lists.json".
Proof. repeat split; discriminate. Qed.

Lemma plain_config_ini : plainSegment "config.ini".
Proof. repeat split; discriminate. Qed.

(** [path.resolve(p)] leads where [p] leads. *)
Lemma segments_resolve_self (p : string) :
  Path.segments (Path.resolve p "") = Path.segments p.
Proof.
  unfold Path.resolve. simpl (Str.starts_with_sep "").
  cbv iota. rewrite segments_render by apply segments_plain.
  rewrite segments_slash.
  change (Str.split "/" "") with [""].
  change (Path.normalize_segments false ?a [""]) with (List.rev a).
  apply rev_involutive.
Qed.

(** ** Files *)

Lemma segments_eqb_false (p q : list string) : p <> q -> segments_eqb p q = false.
Proof. unfold segments_eqb. destruct (list_eq_dec string_dec p q); congruence. Qed.

Lemma is_prefix_app (p r : list string) : is_prefix p (p ++ r) = true.
Proof. induction p as [|a p IH]; simpl; [reflexivity|]. now rewrite String.eqb_refl. Qed.

Lemma is_prefix_split (p q : list string) :
  is_prefix p q = true -> exists r, q = (p ++ r)%list.
Proof.
  revert q. induction p as [|a p IH]; intros q H.
  - now exists q.
  - destruct q as [|b q]; [discriminate|]. simpl in H.
    apply andb_true_iff in H. destruct H as [Hab H]. apply String.eqb_eq in Hab.
    destruct (IH q H) as [r ->]. exists r. now subst.
Qed.

Lemma fs_lookup_put (p q : list string) (n : node) (f : FS) :
  p <> [] ->
  fs_lookup (fs_put p n f) q = if segments_eqb q p then Some n else fs_lookup f q.
Proof.
  intros Hp. destruct q as [|a q].
  - rewrite segments_eqb_false by congruence. reflexivity.
  - reflexivity.
Qed.

Lemma fs_lookup_put_same (p : list string) (n : node) (f : FS) :
  p <> [] -> fs_lookup (fs_put p n f) p = Some n.
Proof. intros Hp. rewrite fs_lookup_put by assumption. now rewrite segments_eqb_refl. Qed.

Lemma fs_lookup_put_other (p q : list string) (n : node) (f : FS) :
  p <> [] -> q <> p -> fs_lookup (fs_put p n f) q = fs_lookup f q.
Proof.
  intros Hp Hq. rewrite fs_lookup_put by assumption.
  now rewrite segments_eqb_false.
Qed.

Lemma fs_lookup_remove_tree (p q : list string) (f : FS) :
  p <> [] ->
  fs_lookup (fs_remove_tree p f) q = if is_prefix p q then None else fs_lookup f q.
Proof.
  intros Hp. destruct q as [|a q]; [|reflexivity].
  destruct p; [contradiction|reflexivity].
Qed.

(** In a well-formed file system everything above a node is a directory. *)
Lemma ancestors_dir (f : FS) (r p : list string) :
  wellFormed f -> r <> [] -> fs_lookup f (p ++ r) <> None ->
  fs_lookup f p = Some Dir.
Proof.
  intros Hwf. induction r as [|a r IH] using rev_ind; [contradiction|].
  intros _ Hn.
  assert (Hq : (p ++ r ++ [a])%list <> []) by (destruct p, r; discriminate).
  destruct (fs_lookup f (p ++ r ++ [a])) as [n|] eqn:E; [|contradiction].
  assert (Hf : f (p ++ r ++ [a])%list = Some n).
  { unfold fs_lookup in E. destruct (p ++ r ++ [a])%list; [contradiction|exact E]. }
  pose proof (Hwf _ n Hq Hf) as Hd.
  rewrite app_assoc, removelast_last in Hd.
  destruct r as [|b r'].
  - now rewrite app_nil_r in Hd.
  - apply IH; [discriminate|]. rewrite Hd. discriminate.
Qed.

(** Below a path that does not exist, nothing exists. *)
Lemma nothing_below_absent (f : FS) (p q : list string) :
  wellFormed f -> fs_lookup f p = None -> is_prefix p q = true ->
  fs_lookup f q = None.
Proof.
  intros Hwf Hp Hpq. destruct (is_prefix_split p q Hpq) as [r ->].
  destruct r as [|a r]; [now rewrite app_nil_r|].
  destruct (fs_lookup f (p ++ a :: r)) eqn:E; [|reflexivity].
  rewrite (ancestors_dir f (a :: r) p Hwf) in Hp; [discriminate|discriminate|].
  rewrite E. discriminate.
Qed.

(** A new node under a directory keeps the file system well formed, unless
    a file takes the place of a directory. *)
Lemma wellFormed_put (f : FS) (p : list string) (n : node) :
  wellFormed f -> p <> [] ->
  fs_lookup f (removelast p) = Some Dir ->
  (n = Dir \/ fs_lookup f p <> Some Dir) ->
  wellFormed (fs_put p n f).
Proof.
  intros Hwf Hp Hpar Hn q m Hq Hm.
  unfold fs_put in Hm.
  assert (Hparent : fs_lookup f (removelast q) = Some Dir).
  { destruct (segments_eqb q p) eqn:E.
    - apply segments_eqb_true in E. now subst q.
    - now apply (Hwf q m). }
  rewrite fs_lookup_put by assumption.
  destruct (segments_eqb (removelast q) p) eqn:E; [|exact Hparent].
  apply segments_eqb_true in E. rewrite E in Hparent.
  destruct Hn as [->|Hn]; [reflexivity|contradiction].
Qed.

(** [mkdir -p] of a missing path whose ancestors are directories creates
    that one directory. *)
Lemma mkdirp_leaf (f : FS) (rest done : list string) :
  rest <> [] ->
  (forall r1 r2, rest = (r1 ++ r2)%list -> r1 <> [] -> r2 <> [] ->
                 fs_lookup f (done ++ r1) = Some Dir) ->
  fs_lookup f (done ++ rest) = None ->
  mkdirp f done rest = inr (fs_put (done ++ rest) Dir f).
Proof.
  revert done. induction rest as [|s rest IH]; intros done Hne Hpre Habs;
    [contradiction|].
  simpl. destruct rest as [|s' rest'].
  - rewrite Habs. reflexivity.
  - rewrite (Hpre [s] (s' :: rest') eq_refl) by discriminate.
    replace (done ++ s :: s' :: rest')%list with ((done ++ [s]) ++ s' :: rest')%list
      in * by now rewrite <- app_assoc.
    apply IH; [discriminate| |exact Habs].
    intros r1 r2 E H1 H2. rewrite <- app_assoc.
    apply (Hpre (s :: r1) r2); [simpl; now rewrite E|discriminate|assumption].
Qed.

Lemma mkdirp_child (f : FS) (p : list string) :
  wellFormed f -> p <> [] ->
  fs_lookup f (removelast p) = Some Dir ->
  fs_lookup f p = None ->
  mkdirp f [] p = inr (fs_put p Dir f).
Proof.
  intros Hwf Hp Hpar Habs.
  apply (mkdirp_leaf f p []); [assumption| |assumption].
  intros r1 r2 E H1 H2. simpl.
  destruct (exists_last H2) as [r2' [a E2]]. subst r2.
  rewrite E, app_assoc, removelast_last in Hpar.
  destruct r2' as [|b r2'].
  - now rewrite app_nil_r in Hpar.
  - apply (ancestors_dir f (b :: r2') r1 Hwf); [discriminate|].
    rewrite Hpar. discriminate.
Qed.

(** ** Running the file operations *)

Lemma writeFileSync_run (p : string) (c : content) (w : World) :
  p <> "" -> Path.segments p <> [] ->
  fs_lookup (fs w) (removelast (Path.segments p)) = Some Dir ->
  fs_lookup (fs w) (Path.segments p) <> Some Dir ->
  writeFileSync p c w
  = (Return tt, with_fs w (fs_put (Path.segments p) (File c) (fs w))).
Proof.
  intros Hp Hs Hpar Hn. unfold writeFileSync, lift_fs, fs_write.
  destruct p as [|a p]; [contradiction|].
  destruct (Path.segments (String a p)) as [|s ss] eqn:Es; [contradiction|].
  rewrite Hpar.
  destruct (fs_lookup (fs w) (s :: ss)) as [[?|]|]; try reflexivity.
  contradiction.
Qed.

Lemma mkdirSync_run (p : string) (w : World) :
  wellFormed (fs w) -> p <> "" ->
  fs_lookup (fs w) (removelast (Path.segments p)) = Some Dir ->
  fs_lookup (fs w) (Path.segments p) = None ->
  mkdirSync_recursive p w
  = (Return tt, with_fs w (fs_put (Path.segments p) Dir (fs w))).
Proof.
  intros Hwf Hp Hpar Habs. unfold mkdirSync_recursive, lift_fs.
  destruct p as [|a p]; [contradiction|].
  rewrite mkdirp_child; try assumption; [reflexivity|].
  intros E. rewrite E in Habs. discriminate.
Qed.

Lemma rmSync_run (p : string) (force : bool) (w : World) (n : node) :
  p <> "" -> fs_lookup (fs w) (Path.segments p) = Some n ->
  rmSync p true force w
  = (Return tt, with_fs w (fs_remove_tree (Path.segments p) (fs w))).
Proof.
  intros Hp Hn. unfold rmSync, lift_fs.
  destruct p as [|a p]; [contradiction|]. rewrite Hn. now destruct n.
Qed.

Lemma rmSync_missing (p : string) (recursive : bool) (w : World) :
  (p = "" \/ fs_lookup (fs w) (Path.segments p) = None) ->
  rmSync p recursive false w = (Throw (SystemError "ENOENT"), w).
Proof.
  intros H. unfold rmSync, lift_fs.
  destruct p as [|a p]; [reflexivity|].
  destruct H as [H|H]; [discriminate|]. now rewrite H.
Qed.

(** ** The registry operations *)

Lemma find_none {A : Type} (f : A -> bool) (l : list A) :
  existsb f l = false -> find f l = None.
Proof.
  induction l as [|a l IH]; simpl; [reflexivity|].
  destruct (f a); [discriminate|]. exact IH.
Qed.

(** [splice] at the first match: the items before it do not match, and
    the rest is the list without that one item. *)
Lemma spliceFirst_some {A : Type} (f : A -> bool) (l : list A) :
  existsb f l = true ->
  exists l1 x l2,
    l = (l1 ++ x :: l2)%list /\ existsb f l1 = false /\ f x = true
    /\ spliceFirst f l = Some (l1 ++ l2)%list.
Proof.
  induction l as [|a l IH]; simpl; [discriminate|].
  destruct (f a) eqn:E.
  - intros _. exists [], a, l. repeat split; assumption.
  - intros H. destruct (IH H) as [l1 [x [l2 [-> [H1 [H2 H3]]]]]].
    exists (a :: l1), x, l2. simpl. rewrite E, H3. repeat split; assumption.
Qed.

Lemma spliceFirst_last {A : Type} (f : A -> bool) (l : list A) (x : A) :
  existsb f l = false -> f x = true -> spliceFirst f (l ++ [x]) = Some l.
Proof.
  induction l as [|a l IH]; simpl; intros H Hx; [now rewrite Hx|].
  destruct (f a); [discriminate|]. now rewrite IH.
Qed.

Lemma holdsJson_segments (w : World) (p : string) (j : json) :
  holdsJson w p j -> Path.segments p <> [].
Proof. intros [_ H] E. rewrite E in H. discriminate. Qed.

Section RegistryRuns.

Context {JN : JSNumber}.

Lemma listsPath_segments (d : DeviceImpl) :
  Path.segments (listsPathOf d)
  = (Path.segments (deployedPathOf d) ++ ["lists.json"])%list.
Proof. unfold listsPathOf. apply join_child, plain_lists_json. Qed.

Lemma listsPath_nonempty (d : DeviceImpl) : listsPathOf d <> "".
Proof. apply join_nonempty. Qed.

(** What [isDeployed] returns for a registry that holds an array. *)
Lemma isDeployed_array (d : DeviceImpl) (w : World)
    (lists : list FullDeployedImageOptions.t) :
  holdsJson w (listsPathOf d) (JArray lists) ->
  isDeployed d w
  = (Return
       (existsb
          (fun item =>
             (FullDeployedImageOptions.name item =? name (options d))
             && exists_in (fs w)
                  (Path.resolve (FullDeployedImageOptions.path item) "config.ini"))
          lists), w).
Proof.
  intros [Hp Hl]. rewrite isDeployed_cases.
  destruct (listsPathOf d); [contradiction|]. now rewrite Hl.
Qed.

(** A deployment that goes all the way. *)
Lemma deploy_run (d : DeviceImpl) (w : World)
    (lists : list FullDeployedImageOptions.t) :
  deployable d w lists ->
  deploy d w = (Return tt, with_fs w (deployedFs d lists (fs w))).
Proof.
  intros [Hwf [Hdp [Hj [Hn [Hname [Htp [Habs Hpar]]]]]]].
  set (target := FullDeployedImageOptions.path (buildList d)) in *.
  set (tsegs := Path.segments target) in *.
  set (lsegs := Path.segments (listsPathOf d)).
  assert (Hl : fs_lookup (fs w) lsegs = Some (File (JsonText (JArray lists))))
    by exact (proj2 Hj).
  assert (Hlne : lsegs <> []) by exact (holdsJson_segments _ _ _ Hj).
  assert (Htne : tsegs <> []) by (intros E; rewrite E in Habs; discriminate).
  assert (Htl : tsegs <> lsegs) by (intros E; rewrite E in Habs; congruence).
  assert (Hd : isDeployed d w = (Return false, w)).
  { rewrite (isDeployed_array d w lists Hj). f_equal. f_equal.
    rewrite <- Hname. clear - Hn. induction lists as [|a l IH]; [reflexivity|].
    simpl in *. apply orb_false_iff in Hn. destruct Hn as [Ha Hn].
    rewrite Ha. simpl. now apply IH. }
  unfold deploy. cbv zeta.
  next false ltac:(exact Hd).
  next true ltac:((rewrite existsSync_run; now rewrite Hdp)).
  simpl (negb _). unfold when.
  next tt ltac:(reflexivity).
  fold target.
  assert (Ht : exists_in (fs w) target = false).
  { unfold exists_in. destruct target; [reflexivity|]. fold tsegs. now rewrite Habs. }
  next false ltac:((rewrite existsSync_run; now rewrite Ht)).
  change (Path.join (deployedPathOf d) "lists.json") with (listsPathOf d).
  next true ltac:((rewrite existsSync_run; now rewrite (holdsJson_exists _ _ _ Hj))).
  simpl (negb _). cbv beta iota zeta.
  next (JsonText (JArray lists)) ltac:(now apply holdsJson_read).
  next (JArray lists) ltac:(reflexivity).
  simpl (orEmptyArray _). cbv beta iota zeta.
  rewrite (find_none _ _ Hn).
  set (f1 := fs_put lsegs (File (JSON_stringify (lists ++ [buildList d]))) (fs w)).
  assert (Hw1 : writeFileSync (listsPathOf d) (JSON_stringify (lists ++ [buildList d])) w
                = (Return tt, with_fs w f1)).
  { apply writeFileSync_run.
    - exact (proj1 Hj).
    - exact Hlne.
    - fold lsegs. unfold fs_lookup in Hl. destruct lsegs eqn:E; [contradiction|].
      rewrite <- E in *. exact (Hwf _ _ Hlne Hl).
    - fold lsegs. rewrite Hl. discriminate. }
  next tt ltac:(exact Hw1).
  assert (Hwf1 : wellFormed f1).
  { apply wellFormed_put; try assumption.
    - unfold fs_lookup in Hl. destruct lsegs eqn:E; [contradiction|].
      rewrite <- E in *. exact (Hwf _ _ Hlne Hl).
    - right. rewrite Hl. discriminate. }
  set (f2 := fs_put tsegs Dir f1).
  assert (Hpar1 : fs_lookup f1 (removelast tsegs) = Some Dir).
  { unfold f1. rewrite fs_lookup_put_other; [exact Hpar|exact Hlne|].
    intros E. rewrite E in Hpar. congruence. }
  assert (Habs1 : fs_lookup f1 tsegs = None).
  { unfold f1. now rewrite fs_lookup_put_other. }
  assert (Hw2 : mkdirSync_recursive target (with_fs w f1) = (Return tt, with_fs w f2)).
  { now rewrite mkdirSync_run. }
  next tt ltac:(exact Hw2).
  assert (Hc : Path.segments (Path.join target "config.ini")
               = (tsegs ++ ["config.ini"])%list)
    by (apply join_child, plain_config_ini).
  rewrite writeFileSync_run.
  - simpl (fs (with_fs _ _)). rewrite Hc. reflexivity.
  - apply join_nonempty.
  - rewrite Hc. now destruct tsegs.
  - simpl (fs (with_fs _ _)). rewrite Hc, removelast_last.
    unfold f2. now apply fs_lookup_put_same.
  - simpl (fs (with_fs _ _)). rewrite Hc. unfold f2.
    rewrite fs_lookup_put_other; [|exact Htne|].
    + rewrite (nothing_below_absent f1 tsegs _ Hwf1 Habs1 (is_prefix_app _ _)).
      discriminate.
    + intros E. apply (f_equal (@List.length string)) in E.
      rewrite length_app in E. simpl in E. lia.
Qed.

(** The files a deployment leaves. *)
Lemma deployedFs_lookup (d : DeviceImpl) (w : World)
    (lists : list FullDeployedImageOptions.t) :
  deployable d w lists ->
  let target := Path.segments (FullDeployedImageOptions.path (buildList d)) in
  let f' := deployedFs d lists (fs w) in
  fs_lookup f' (Path.segments (listsPathOf d))
    = Some (File (JSON_stringify (lists ++ [buildList d])))
  /\ fs_lookup f' target = Some Dir
  /\ fs_lookup f' (target ++ ["config.ini"]) = Some (File (Raw (toIniString d)))
  /\ (forall q, q <> Path.segments (listsPathOf d) -> q <> target ->
                q <> (target ++ ["config.ini"])%list ->
                fs_lookup f' q = fs_lookup (fs w) q).
Proof.
  intros [Hwf [Hdp [Hj [Hn [Hname [Htp [Habs Hpar]]]]]]] target f'.
  fold target in Habs, Hpar.
  assert (Hlne : Path.segments (listsPathOf d) <> [])
    by exact (holdsJson_segments _ _ _ Hj).
  assert (Htne : target <> []) by (intros E; rewrite E in Habs; discriminate).
  assert (Hcne : (target ++ ["config.ini"])%list <> []) by now destruct target.
  assert (Htl : target <> Path.segments (listsPathOf d)).
  { intros E. rewrite E in Habs. rewrite (proj2 Hj) in Habs. discriminate. }
  assert (Hct : (target ++ ["config.ini"])%list <> target).
  { intros E. apply (f_equal (@List.length string)) in E.
    rewrite length_app in E. simpl in E. lia. }
  assert (Hcl : Path.segments (listsPathOf d) <> (target ++ ["config.ini"])%list).
  { rewrite listsPath_segments. intros E. apply app_inj_tail in E.
    destruct E as [_ E]. discriminate. }
  unfold f', deployedFs. fold target. repeat split.
  - rewrite fs_lookup_put_other by assumption.
    rewrite fs_lookup_put_other by congruence.
    now apply fs_lookup_put_same.
  - rewrite fs_lookup_put_other by congruence.
    now apply fs_lookup_put_same.
  - now apply fs_lookup_put_same.
  - intros q H1 H2 H3.
    now rewrite !fs_lookup_put_other by assumption.
Qed.

(** What [delete] does up to the removal of the target directory. *)
Lemma delete_run (d : DeviceImpl) (w : World)
    (lists rest : list FullDeployedImageOptions.t) :
  wellFormed (fs w) ->
  holdsJson w (listsPathOf d) (JArray lists) ->
  spliceFirst (fun item => FullDeployedImageOptions.name item =? name (options d)) lists
    = Some rest ->
  delete d w
  = rmSync (Path.resolve (FullDeployedImageOptions.path (buildList d)) "") true false
      (with_fs w (fs_put (Path.segments (listsPathOf d))
                    (File (JSON_stringify rest)) (fs w))).
Proof.
  intros Hwf Hj Hs. unfold delete. cbv zeta.
  next true ltac:((rewrite existsSync_run; now rewrite (holdsJson_exists _ _ _ Hj))).
  simpl (negb _). cbv beta iota zeta.
  next (File (JsonText (JArray lists))) ltac:(now apply holdsJson_stat).
  simpl (negb _). cbv beta iota zeta.
  next (JsonText (JArray lists)) ltac:(now apply holdsJson_read).
  next (JArray lists) ltac:(reflexivity).
  simpl (orEmptyArray _). cbv beta iota zeta. rewrite Hs.
  assert (Hlne : Path.segments (listsPathOf d) <> [])
    by exact (holdsJson_segments _ _ _ Hj).
  pose proof (proj2 Hj) as Hl.
  rewrite (bind_return _ _ w
             (with_fs w (fs_put (Path.segments (listsPathOf d))
                           (File (JSON_stringify rest)) (fs w))) tt);
    [reflexivity|].
  apply writeFileSync_run.
  - exact (proj1 Hj).
  - exact Hlne.
  - unfold fs_lookup in Hl. destruct (Path.segments (listsPathOf d)) eqn:E;
      [contradiction|]. rewrite <- E in *. exact (Hwf _ _ Hlne Hl).
  - rewrite Hl. discriminate.
Qed.

End RegistryRuns.

Section RegistryExtras.

Context {JN : JSNumber}.

(** X1. [isDeployed] never changes the world. It answers false, without
    an error, when nothing or a directory is at the path of the registry
    file; and it answers true exactly when the registry file holds an
    array with a record of the name of the device whose [config.ini] is
    on disk. *)
Theorem isDeployed_answer (d : DeviceImpl) (w : World) :
  snd (isDeployed d w) = w
  /\ (fs_lookup (fs w) (Path.segments (listsPathOf d)) = None
      \/ fs_lookup (fs w) (Path.segments (listsPathOf d)) = Some Dir ->
      fst (isDeployed d w) = Return false)
  /\ (fst (isDeployed d w) = Return true
      <-> exists lists item,
            holdsJson w (listsPathOf d) (JArray lists)
            /\ In item lists
            /\ FullDeployedImageOptions.name item = name (options d)
            /\ exists_in (fs w)
                 (Path.resolve (FullDeployedImageOptions.path item) "config.ini")
               = true).
Proof.
  split; [apply isDeployed_reads|]. split.
  - intros H. rewrite isDeployed_cases.
    destruct (listsPathOf d); [reflexivity|].
    destruct H as [-> | ->]; reflexivity.
  - split; [apply isDeployed_true|].
    intros [lists [item [Hj [Hin [Hn Hc]]]]].
    rewrite (isDeployed_array d w lists Hj). simpl. f_equal.
    apply existsb_exists. exists item. split; [assumption|].
    cbv beta. rewrite Hn, String.eqb_refl. exact Hc.
Qed.

(** X2. [delete] of a device that the registry does not know fails and
    changes nothing: with [Lists file not found] when nothing or a
    directory is at the path of the registry file, and with
    [Device <name> not found] when the registry holds an array without a
    record of that name. *)
Theorem delete_of_unknown_device (d : DeviceImpl) (w : World) :
  (fs_lookup (fs w) (Path.segments (listsPathOf d)) = None
   \/ fs_lookup (fs w) (Path.segments (listsPathOf d)) = Some Dir ->
   delete d w = (Throw (PlainError "Lists file not found"), w))
  /\ (forall lists,
        holdsJson w (listsPathOf d) (JArray lists) ->
        existsb (fun item => FullDeployedImageOptions.name item =? name (options d))
          lists = false ->
        delete d w
        = (Throw (PlainError ("Device " ++ name (options d) ++ " not found")), w)).
Proof.
  split.
  - intros H. unfold delete. cbv zeta.
    unfold bind at 1. rewrite existsSync_run. unfold exists_in.
    pose proof (listsPath_nonempty d) as Hne.
    destruct (listsPathOf d) as [|a p] eqn:Ep; [contradiction|].
    destruct H as [H|H]; rewrite H; simpl (negb _); cbv beta iota; [reflexivity|].
    unfold bind at 1. unfold statSync at 1. rewrite H. reflexivity.
  - intros lists Hj Hn. unfold delete. cbv zeta.
    next true ltac:((rewrite existsSync_run; now rewrite (holdsJson_exists _ _ _ Hj))).
    simpl (negb _). cbv beta iota zeta.
    next (File (JsonText (JArray lists))) ltac:(now apply holdsJson_stat).
    simpl (negb _). cbv beta iota zeta.
    next (JsonText (JArray lists)) ltac:(now apply holdsJson_read).
    next (JArray lists) ltac:(reflexivity).
    simpl (orEmptyArray _). cbv beta iota zeta.
    now rewrite (spliceFirst_none _ _ Hn).
Qed.


(** X4. [delete] is not atomic: when the name is in the registry and the
    target directory is missing, the call fails with [ENOENT], and yet the
    registry file has lost the record; every other path is as before. *)
Theorem delete_of_missing_directory_drops_the_record (d : DeviceImpl) (w : World)
    (lists : list FullDeployedImageOptions.t) :
  wellFormed (fs w) ->
  holdsJson w (listsPathOf d) (JArray lists) ->
  existsb (fun item => FullDeployedImageOptions.name item =? name (options d)) lists
    = true ->
  fs_lookup (fs w) (Path.segments (FullDeployedImageOptions.path (buildList d)))
    = None ->
  let registry := Path.segments (listsPathOf d) in
  let w' := snd (delete d w) in
  exists before item after,
    lists = (before ++ item :: after)%list
    /\ FullDeployedImageOptions.name item = name (options d)
    /\ fst (delete d w) = Throw (SystemError "ENOENT")
    /\ fs w' registry = Some (File (JSON_stringify (before ++ after)))
    /\ (forall q, q <> registry -> fs w' q = fs w q).
Proof.
  intros Hwf Hj Hin Habs registry w'.
  destruct (spliceFirst_some _ _ Hin) as [before [item [after [El [Hb [Hi Hs]]]]]].
  exists before, item, after.
  split; [exact El|]. split; [now apply String.eqb_eq|].
  assert (Hlne : registry <> []) by exact (holdsJson_segments _ _ _ Hj).
  set (f1 := fs_put registry (File (JSON_stringify (before ++ after))) (fs w)).
  assert (Hrun : delete d w = (Throw (SystemError "ENOENT"), with_fs w f1)).
  { rewrite (delete_run d w lists (before ++ after) Hwf Hj Hs).
    fold registry. fold f1. apply rmSync_missing. right.
    simpl (fs (with_fs _ _)). rewrite segments_resolve_self.
    unfold f1. rewrite fs_lookup_put_other; [exact Habs|exact Hlne|].
    intros E. rewrite E in Habs. unfold registry in Habs.
    rewrite (proj2 Hj) in Habs. discriminate. }
  unfold w'. rewrite Hrun. simpl. unfold f1, fs_put.
  split; [reflexivity|]. split.
  - now rewrite segments_eqb_refl.
  - intros q Hq. now rewrite segments_eqb_false.
Qed.

(** X5. A deployment into a registry that exists goes all the way: it
    returns normally, the registry holds the old records followed by the
    record of the device, the target is a directory, [config.ini] in it
    holds the text of [toIniString], and every other path is as before. *)
Theorem deploy_completes (d : DeviceImpl) (w : World)
    (lists : list FullDeployedImageOptions.t) :
  deployable d w lists ->
  let target := Path.segments (FullDeployedImageOptions.path (buildList d)) in
  let registry := Path.segments (listsPathOf d) in
  let w' := snd (deploy d w) in
  fst (deploy d w) = Return tt
  /\ fs_lookup (fs w') registry = Some (File (JSON_stringify (lists ++ [buildList d])))
  /\ fs_lookup (fs w') target = Some Dir
  /\ fs_lookup (fs w') (target ++ ["config.ini"])
     = Some (File (Raw (toIniString d)))
  /\ (forall q, q <> registry -> q <> target -> q <> (target ++ ["config.ini"])%list ->
                fs_lookup (fs w') q = fs_lookup (fs w) q).
Proof.
  intros H target registry w'. unfold w'.
  rewrite (deploy_run d w lists H). split; [reflexivity|].
  exact (deployedFs_lookup d w lists H).
Qed.

End RegistryExtras.

Section RegistryRoundTrips.

Context {JN : JSNumber}.

Lemma deployedFs_wellFormed (d : DeviceImpl) (w : World)
    (lists : list FullDeployedImageOptions.t) :
  deployable d w lists -> wellFormed (deployedFs d lists (fs w)).
Proof.
  intros [Hwf [Hdp [Hj [Hn [Hname [Htp [Habs Hpar]]]]]]].
  set (target := Path.segments (FullDeployedImageOptions.path (buildList d))) in *.
  set (registry := Path.segments (listsPathOf d)).
  pose proof (proj2 Hj) as Hl. fold registry in Hl.
  assert (Hlne : registry <> []) by exact (holdsJson_segments _ _ _ Hj).
  assert (Htne : target <> []) by (intros E; rewrite E in Habs; discriminate).
  assert (Htl : target <> registry) by (intros E; rewrite E in Habs; congruence).
  unfold deployedFs. fold target. fold registry.
  set (f1 := fs_put registry (File (JSON_stringify (lists ++ [buildList d]))) (fs w)).
  assert (Hwf1 : wellFormed f1).
  { apply wellFormed_put; try assumption.
    - unfold fs_lookup in Hl. destruct registry eqn:E; [contradiction|].
      rewrite <- E in *. exact (Hwf _ _ Hlne Hl).
    - right. rewrite Hl. discriminate. }
  assert (Habs1 : fs_lookup f1 target = None).
  { unfold f1. now rewrite fs_lookup_put_other. }
  assert (Hwf2 : wellFormed (fs_put target Dir f1)).
  { apply wellFormed_put; try assumption; [|now left].
    unfold f1. rewrite fs_lookup_put_other; [exact Hpar|exact Hlne|].
    intros E. rewrite E in Hpar. congruence. }
  apply wellFormed_put; [exact Hwf2|now destruct target| |].
  - rewrite removelast_last. now apply fs_lookup_put_same.
  - right. rewrite fs_lookup_put_other; [|exact Htne|].
    + rewrite (nothing_below_absent f1 target _ Hwf1 Habs1 (is_prefix_app _ _)).
      discriminate.
    + intros E. apply (f_equal (@List.length string)) in E.
      rewrite length_app in E. simpl in E. lia.
Qed.

Lemma existsb_app_last {A : Type} (f : A -> bool) (l : list A) (x : A) :
  f x = true -> existsb f (l ++ [x]) = true.
Proof.
  intros H. rewrite existsb_app. simpl. rewrite H. now rewrite orb_true_r.
Qed.

(** After a deployment that went all the way, the registry file holds the
    extended array and the device is deployed. *)
Lemma deployed_state (d : DeviceImpl) (w : World)
    (lists : list FullDeployedImageOptions.t) :
  deployable d w lists ->
  let w' := with_fs w (deployedFs d lists (fs w)) in
  holdsJson w' (listsPathOf d) (JArray (lists ++ [buildList d]))
  /\ isDeployed d w' = (Return true, w').
Proof.
  intros H w'.
  destruct (deployedFs_lookup d w lists H) as [Hr [Ht [Hc _]]].
  assert (Hj : holdsJson w' (listsPathOf d) (JArray (lists ++ [buildList d])))
    by (split; [apply listsPath_nonempty|exact Hr]).
  split; [exact Hj|].
  rewrite (isDeployed_array d w' _ Hj). f_equal. f_equal.
  apply existsb_app_last.
  destruct H as [_ [_ [_ [_ [Hname _]]]]].
  rewrite Hname, String.eqb_refl. simpl.
  destruct (resolve_child (FullDeployedImageOptions.path (buildList d)) "config.ini"
              plain_config_ini) as [Hres Hseg].
  unfold exists_in.
  destruct (resolve_nonempty (FullDeployedImageOptions.path (buildList d)) "config.ini")
    as [s Es].
  rewrite Es. rewrite <- Es. rewrite Hseg. unfold w'. simpl (fs (with_fs _ _)).
  now rewrite Hc.
Qed.

(** X6. After a deployment that went all the way, [isDeployed] answers
    true, and a second [deploy] of the same device returns normally and
    changes nothing: the registry keeps one record of the device. *)
Theorem deploy_is_idempotent (d : DeviceImpl) (w : World)
    (lists : list FullDeployedImageOptions.t) :
  deployable d w lists ->
  let w' := snd (deploy d w) in
  fst (isDeployed d w') = Return true
  /\ deploy d w' = (Return tt, w')
  /\ registryCount d w' = 1.
Proof.
  intros H w'. unfold w'. rewrite (deploy_run d w lists H).
  simpl (snd _).
  destruct (deployed_state d w lists H) as [Hj Hd].
  split; [now rewrite Hd|]. split.
  - apply deploy_when_deployed. now rewrite Hd.
  - unfold registryCount. rewrite (proj2 Hj).
    destruct H as [_ [_ [_ [Hn _]]]].
    rewrite filter_app, length_app. simpl. rewrite String.eqb_refl. simpl.
    assert (E : filter (fun item => FullDeployedImageOptions.name item
                          =? FullDeployedImageOptions.name (buildList d)) lists = []).
    { clear - Hn. induction lists as [|a l IH]; [reflexivity|].
      simpl in *. apply orb_false_iff in Hn. destruct Hn as [Ha Hn].
      rewrite Ha. now apply IH. }
    now rewrite E.
Qed.

(** X7. [delete] undoes [deploy]: after a deployment that went all the
    way, deleting the device returns normally and every path holds what
    it held before the deployment. *)
Theorem delete_undoes_deploy (d : DeviceImpl) (w : World)
    (lists : list FullDeployedImageOptions.t) :
  deployable d w lists ->
  let w' := snd (deploy d w) in
  fst (delete d w') = Return tt
  /\ forall q, fs_lookup (fs (snd (delete d w'))) q = fs_lookup (fs w) q.
Proof.
  intros H w'. unfold w'. rewrite (deploy_run d w lists H). simpl (snd _).
  destruct (deployed_state d w lists H) as [Hj _].
  pose proof (deployedFs_wellFormed d w lists H) as Hwf'.
  destruct (deployedFs_lookup d w lists H) as [Hr [Ht [Hc Hframe]]].
  destruct H as [Hwf [Hdp [Hj0 [Hn [Hname [Htp [Habs Hpar]]]]]]].
  set (target := Path.segments (FullDeployedImageOptions.path (buildList d))) in *.
  set (registry := Path.segments (listsPathOf d)) in *.
  assert (Hlne : registry <> []) by exact (holdsJson_segments _ _ _ Hj0).
  assert (Htne : target <> []) by (intros E; rewrite E in Habs; discriminate).
  assert (Hs : spliceFirst
                 (fun item => FullDeployedImageOptions.name item =? name (options d))
                 (lists ++ [buildList d]) = Some lists).
  { apply spliceFirst_last; [|rewrite Hname; apply String.eqb_refl].
    now rewrite <- Hname. }
  set (w1 := with_fs w (deployedFs d lists (fs w))) in *.
  rewrite (delete_run d w1 _ lists Hwf' Hj Hs).
  fold registry.
  set (f1 := fs_put registry (File (JSON_stringify lists)) (fs w1)).
  assert (Ht1 : fs_lookup f1 target = Some Dir).
  { unfold f1. rewrite fs_lookup_put_other; [exact Ht|exact Hlne|].
    intros E. rewrite E in Habs. unfold registry in Habs.
    rewrite (proj2 Hj0) in Habs. discriminate. }
  rewrite (rmSync_run _ false _ Dir).
  - split; [reflexivity|]. intros q. simpl (fs _).
    rewrite segments_resolve_self. fold target.
    rewrite fs_lookup_remove_tree by assumption.
    destruct (is_prefix target q) eqn:Eq.
    + symmetry. now apply (nothing_below_absent (fs w) target q).
    + unfold f1. rewrite fs_lookup_put by assumption.
      destruct (segments_eqb q registry) eqn:Er.
      * apply segments_eqb_true in Er. subst q. symmetry. exact (proj2 Hj0).
      * apply Hframe.
        -- intros E. subst q. now rewrite segments_eqb_refl in Er.
        -- intros E. subst q. now rewrite is_prefix_refl in Eq.
        -- intros E. subst q. now rewrite is_prefix_app in Eq.
  - destruct (resolve_nonempty (FullDeployedImageOptions.path (buildList d)) "")
      as [s ->]. discriminate.
  - simpl (fs (with_fs _ _)). rewrite segments_resolve_self. exact Ht1.
Qed.

End RegistryRoundTrips.

(** ** The scenario of the registry *)

Lemma registryFs_wellFormed (payload : json) : wellFormed (Scenario.registryFs payload).
Proof.
  intros p n Hp H. unfold Scenario.registryFs, Scenario.freshFs, fs_put in H.
  destruct (segments_eqb p ["deployed"; "lists.json"]) eqn:E1;
    [apply segments_eqb_true in E1; subst p; reflexivity|].
  destruct (segments_eqb p ["deployed"]) eqn:E2;
    [apply segments_eqb_true in E2; subst p; reflexivity|].
  discriminate.
Qed.

Lemma fold_deployable :
  deployable Scenario.fold (Scenario.world (Scenario.registryFs (JArray []))) [].
Proof.
  split; [apply registryFs_wellFormed|].
  split; [reflexivity|].
  split; [split; [discriminate|reflexivity]|].
  split; [reflexivity|].
  split; [reflexivity|].
  split; [discriminate|].
  split; reflexivity.
Qed.


Lemma isDeployed_answer_witness :
  fs_lookup (fs (Scenario.world Scenario.freshFs))
    (Path.segments (listsPathOf Scenario.fold)) = None
  /\ isDeployed Scenario.fold (Scenario.world Scenario.freshFs)
     = (Return false, Scenario.world Scenario.freshFs).
Proof.
  assert (H : fs_lookup (fs (Scenario.world Scenario.freshFs))
                (Path.segments (listsPathOf Scenario.fold)) = None) by reflexivity.
  split; [exact H|].
  destruct (isDeployed_answer Scenario.fold (Scenario.world Scenario.freshFs))
    as [H1 [H2 _]].
  specialize (H2 (or_introl H)).
  destruct (isDeployed Scenario.fold (Scenario.world Scenario.freshFs)) as [r w'].
  simpl in H1, H2. now subst.
Defined.

Lemma delete_of_unknown_device_witness :
  holdsJson (Scenario.world (Scenario.registryFs (JArray [])))
    (listsPathOf Scenario.fold) (JArray [])
  /\ delete Scenario.fold (Scenario.world (Scenario.registryFs (JArray [])))
     = (Throw (PlainError "Device MateBook Fold not found"),
        Scenario.world (Scenario.registryFs (JArray []))).
Proof.
  assert (H : holdsJson (Scenario.world (Scenario.registryFs (JArray [])))
                (listsPathOf Scenario.fold) (JArray []))
    by (split; [discriminate|reflexivity]).
  split; [exact H|].
  destruct (delete_of_unknown_device Scenario.fold
              (Scenario.world (Scenario.registryFs (JArray [])))) as [_ H2].
  exact (H2 [] H eq_refl).
Defined.


Lemma delete_of_missing_directory_drops_the_record_witness :
  let w := Scenario.world (Scenario.registryFs (JArray [buildList Scenario.fold])) in
  wellFormed (fs w)
  /\ holdsJson w (listsPathOf Scenario.fold) (JArray [buildList Scenario.fold])
  /\ fs_lookup (fs w)
       (Path.segments (FullDeployedImageOptions.path (buildList Scenario.fold))) = None
  /\ fst (delete Scenario.fold w) = Throw (SystemError "ENOENT").
Proof.
  intros w.
  assert (H1 : wellFormed (fs w)) by apply registryFs_wellFormed.
  assert (H2 : holdsJson w (listsPathOf Scenario.fold)
                 (JArray [buildList Scenario.fold]))
    by (split; [discriminate|reflexivity]).
  assert (H3 : existsb (fun item => FullDeployedImageOptions.name item
                          =? name (options Scenario.fold)) [buildList Scenario.fold]
               = true) by reflexivity.
  assert (H4 : fs_lookup (fs w)
                 (Path.segments (FullDeployedImageOptions.path (buildList Scenario.fold)))
               = None) by reflexivity.
  split; [exact H1|]. split; [exact H2|]. split; [exact H4|].
  destruct (delete_of_missing_directory_drops_the_record Scenario.fold w
              [buildList Scenario.fold] H1 H2 H3 H4)
    as [before [item [after [_ [_ [Hr _]]]]]].
  exact Hr.
Defined.

Lemma deploy_completes_witness :
  deployable Scenario.fold (Scenario.world (Scenario.registryFs (JArray []))) []
  /\ fst (deploy Scenario.fold (Scenario.world (Scenario.registryFs (JArray []))))
     = Return tt.
Proof.
  split; [exact fold_deployable|].
  destruct (deploy_completes Scenario.fold _ [] fold_deployable) as [H _].
  exact H.
Defined.

Lemma deploy_is_idempotent_witness :
  deployable Scenario.fold (Scenario.world (Scenario.registryFs (JArray []))) []
  /\ deploy Scenario.fold Scenario.deployedWorld = (Return tt, Scenario.deployedWorld).
Proof.
  split; [exact fold_deployable|].
  destruct (deploy_is_idempotent Scenario.fold _ [] fold_deployable) as [_ [H _]].
  exact H.
Defined.

Lemma delete_undoes_deploy_witness :
  deployable Scenario.fold (Scenario.world (Scenario.registryFs (JArray []))) []
  /\ fst (delete Scenario.fold Scenario.deployedWorld) = Return tt.
Proof.
  split; [exact fold_deployable|].
  destruct (delete_undoes_deploy Scenario.fold _ [] fold_deployable) as [H _].
  exact H.
Defined.

(** ** The physical size of the outer screen *)

Section PhysicalSize.

Context {JN : JSNumber}.

Lemma lateAssignments_preset (d : DeviceImpl) (p : ProductPreset) :
  screen (options d) = Preset p ->
  useDualScreen d = false ->
  let c := getProductConfig p in
  iniLateAssignments d
  = ((if Str.truthy_opt (ProductConfigItem.outerScreenHeight c)
      then [("hw.phy.height", ProductConfigItem.outerScreenHeight c)] else [])
     ++ (if Str.truthy_opt (ProductConfigItem.outerScreenWidth c)
         then [("hw.phy.width", ProductConfigItem.outerScreenWidth c)] else []))%list.
Proof.
  intros Hp Hd c. unfold iniLateAssignments, productPresetOf. rewrite Hd, Hp.
  reflexivity.
Qed.

Lemma lateAssignments_none (d : DeviceImpl) :
  useDualScreen d = true \/ productPresetOf d = None ->
  ~ In "hw.phy.height" (map fst (iniLateAssignments d))
  /\ ~ In "hw.phy.width" (map fst (iniLateAssignments d)).
Proof.
  intros H. unfold iniLateAssignments.
  destruct H as [H|H]; rewrite H.
  - destruct (option_map getProductConfig (productPresetOf d)) as [c|]; simpl;
      split; intros Hin; repeat (destruct Hin as [Hin|Hin]; [discriminate|]);
      contradiction.
  - destruct (useDualScreen d); simpl; split; intros Hin; contradiction.
Qed.

(** X8. The [hw.phy.*] rule of [buildIni], for a device whose mapping is
    not cached. For a product preset outside dual-screen mode,
    [hw.phy.height] is the outer height of the preset and [hw.phy.width]
    its outer width, each when that field is a non-empty text, and this
    whatever the overrides say. When the overrides leave the two keys
    alone, a key is absent in every other case: in dual-screen mode, for a
    raw screen, and for a preset whose field is missing or empty. *)
Theorem physical_size_rule (d : DeviceImpl) (opts : IniOptions) :
  cachedIni d = None ->
  let ini := buildIni d opts in
  (forall p, screen (options d) = Preset p -> useDualScreen d = false ->
     let c := getProductConfig p in
     (Str.truthy_opt (ProductConfigItem.outerScreenHeight c) = true ->
      JsObject.get "hw.phy.height" ini = Some (ProductConfigItem.outerScreenHeight c))
     /\ (Str.truthy_opt (ProductConfigItem.outerScreenWidth c) = true ->
         JsObject.get "hw.phy.width" ini = Some (ProductConfigItem.outerScreenWidth c)))
  /\ (overridesAvoid opts ["hw.phy.height"; "hw.phy.width"] ->
      (useDualScreen d = true \/ productPresetOf d = None ->
       JsObject.has "hw.phy.height" ini = false
       /\ JsObject.has "hw.phy.width" ini = false)
      /\ (forall p, screen (options d) = Preset p ->
            let c := getProductConfig p in
            (Str.truthy_opt (ProductConfigItem.outerScreenHeight c) = false ->
             JsObject.has "hw.phy.height" ini = false)
            /\ (Str.truthy_opt (ProductConfigItem.outerScreenWidth c) = false ->
                JsObject.has "hw.phy.width" ini = false))).
Proof.
  intros Hc ini. split.
  - intros p Hp Hd c.
    pose proof (lateAssignments_preset d p Hp Hd) as Hlate. cbv zeta in Hlate.
    fold c in Hlate.
    split; intros Ht; unfold ini, buildIni; rewrite Hc, Hlate;
      apply get_assign_present; try reflexivity.
    + rewrite Ht. destruct (Str.truthy_opt (ProductConfigItem.outerScreenWidth c));
        simpl; repeat constructor; simpl; intuition discriminate.
    + now rewrite Ht.
    + rewrite Ht. destruct (Str.truthy_opt (ProductConfigItem.outerScreenHeight c));
        simpl; repeat constructor; simpl; intuition discriminate.
    + rewrite Ht. now destruct (Str.truthy_opt (ProductConfigItem.outerScreenHeight c)).
  - intros Hov.
    assert (Habsent : forall k, In k ["hw.phy.height"; "hw.phy.width"] ->
              ~ In k (map fst (iniLateAssignments d)) ->
              JsObject.has k ini = false).
    { intros k Hk Hl. unfold JsObject.has, ini.
      rewrite buildIni_get_literal; try assumption.
      - destruct Hk as [<-|[<-|[]]]; reflexivity.
      - destruct Hk as [<-|[<-|[]]]; reflexivity.
      - now apply overridesAvoid_one with ["hw.phy.height"; "hw.phy.width"]. }
    split.
    + intros H. destruct (lateAssignments_none d H) as [H1 H2].
      split; apply Habsent; simpl; tauto.
    + intros p Hp c.
      destruct (useDualScreen d) eqn:Hd.
      { destruct (lateAssignments_none d (or_introl Hd)) as [H1 H2].
        split; intros _; apply Habsent; simpl; tauto. }
      pose proof (lateAssignments_preset d p Hp Hd) as Hlate. cbv zeta in Hlate.
      fold c in Hlate.
      split; intros Ht; apply Habsent; simpl; try tauto; rewrite Hlate, Ht;
        [destruct (Str.truthy_opt (ProductConfigItem.outerScreenWidth c))
        |destruct (Str.truthy_opt (ProductConfigItem.outerScreenHeight c))];
        simpl; intuition discriminate.
Qed.

End PhysicalSize.

Lemma physical_size_rule_witness :
  cachedIni Scenario.flat = None
  /\ JsObject.get "hw.phy.height" (buildIni Scenario.flat Scenario.lateOverrides)
     = Some (Some "1648")
  /\ JsObject.get "hw.phy.width" (buildIni Scenario.flat Scenario.lateOverrides)
     = Some (Some "2472").
Proof.
  split; [reflexivity|].
  destruct (physical_size_rule Scenario.flat Scenario.lateOverrides eq_refl)
    as [H _].
  destruct (H _ eq_refl eq_refl) as [Hh Hw].
  split; [exact (Hh eq_refl)|exact (Hw eq_refl)].
Defined.

(** ** The path of an image *)

Lemma mem_join (c : ascii) (sep : string) (ps : list string) :
  Str.mem c sep = false ->
  Forall (fun p => Str.mem c p = false) ps ->
  Str.mem c (Str.join sep ps) = false.
Proof.
  intros Hsep. induction ps as [|p ps IH]; intros HF; [reflexivity|].
  inversion HF as [|? ? Hp HF']; subst.
  destruct ps as [|q ps]; [exact Hp|].
  change (Str.join sep (p :: q :: ps)) with (p ++ sep ++ Str.join sep (q :: ps)).
  rewrite !mem_append, Hp, Hsep, (IH HF'). reflexivity.
Qed.

Lemma lower_char_underscore (c : ascii) :
  Ascii.eqb (Str.lower_char c) "_" = Ascii.eqb c "_".
Proof. destruct c as [[] [] [] [] [] [] [] []]; reflexivity. Qed.

Lemma mem_toLowerCase (s : string) :
  Str.mem "_" (Str.toLowerCase s) = Str.mem "_" s.
Proof.
  induction s as [|c s IH]; [reflexivity|].
  simpl. now rewrite lower_char_underscore, IH.
Qed.

Lemma first_piece_has_no_separator (sep : ascii) (s : string) :
  Str.mem sep (nth 0 (Str.split sep s) "") = false.
Proof.
  pose proof (split_pieces sep s) as H.
  destruct (Str.split sep s) as [|p ps]; [reflexivity|].
  now inversion H.
Qed.

Lemma getDeviceType_has_no_underscore (i : Image.t) :
  Str.mem "_" (Image.getDeviceType i) = false.
Proof.
  unfold Image.getDeviceType. destruct (Image.deviceTypeWithArch i); [|reflexivity].
  apply first_piece_has_no_separator.
Qed.

Section ImagePath.

Context {JN : JSNumber}.

(** X9. The getters of an image decode its path. For a path
    [repo,os-version,type_..._arch] whose pieces do not contain the
    separators, [getTargetOS], [getTargetVersion], [getDeviceType] and
    [getArch] give back [os], [version], [type] and [arch]. For a path
    without comma nothing is thrown: the three texts are empty and the
    architecture is undefined. *)
Theorem image_path_decoding (i : Image.t) :
  (forall repo os ver dt arch mids,
     Forall (fun s => Str.mem "," s = false) (repo :: os :: ver :: dt :: arch :: mids) ->
     Forall (fun s => Str.mem "-" s = false) [os; ver] ->
     Forall (fun s => Str.mem "_" s = false) (dt :: arch :: mids) ->
     Image.getPath i
     = Str.join "," [repo; Str.join "-" [os; ver];
                     Str.join "_" (dt :: mids ++ [arch])] ->
     Image.getTargetOS i = os
     /\ Image.getTargetVersion i = ver
     /\ Image.getDeviceType i = dt
     /\ Image.getArch i = Some arch)
  /\ (Str.mem "," (Image.getPath i) = false ->
      Image.getTargetOS i = ""
      /\ Image.getTargetVersion i = ""
      /\ Image.getDeviceType i = ""
      /\ Image.getArch i = None).
Proof.
  split.
  - intros repo os ver dt arch mids Hc Hd Hu Hp.
    inversion Hc as [|? ? Hc1 Hc']; subst.
    inversion Hc' as [|? ? Hc2 Hc'']; subst.
    inversion Hc'' as [|? ? Hc3 Hc3']; subst.
    inversion Hc3' as [|? ? Hc4 Hc4']; subst.
    inversion Hc4' as [|? ? Hc5 Hc6]; subst.
    inversion Hd as [|? ? Hd1 Hd']; subst. inversion Hd' as [|? ? Hd2 _]; subst.
    inversion Hu as [|? ? Hu1 Hu']; subst. inversion Hu' as [|? ? Hu2 Hu3]; subst.
    assert (Hpieces : Forall (fun s => Str.mem "_" s = false) (dt :: mids ++ [arch])).
    { constructor; [assumption|]. apply Forall_app. now split; [|constructor]. }
    assert (Hsplit : Str.split "," (Image.getPath i)
                     = [repo; Str.join "-" [os; ver];
                        Str.join "_" (dt :: mids ++ [arch])]).
    { rewrite Hp. apply split_join; [discriminate|].
      constructor; [assumption|]. constructor.
      - apply mem_join; [reflexivity|]. now repeat constructor.
      - constructor; [|constructor]. apply mem_join; [reflexivity|].
        constructor; [assumption|]. apply Forall_app. now split; [|constructor]. }
    assert (Hos : Str.split "-" (Str.join "-" [os; ver]) = [os; ver])
      by (apply split_join; [discriminate|now repeat constructor]).
    assert (Harch : Str.split "_" (Str.join "_" (dt :: mids ++ [arch]))
                    = dt :: mids ++ [arch])
      by (apply split_join; [discriminate|assumption]).
    unfold Image.getTargetOS, Image.getTargetVersion, Image.getDeviceType,
      Image.getArch, Image.systemNameWithVersion, Image.deviceTypeWithArch.
    rewrite Hsplit.
    change (nth_error [repo; Str.join "-" [os; ver];
                       Str.join "_" (dt :: mids ++ [arch])] 1)
      with (Some (Str.join "-" [os; ver])).
    change (nth_error [repo; Str.join "-" [os; ver];
                       Str.join "_" (dt :: mids ++ [arch])] 2)
      with (Some (Str.join "_" (dt :: mids ++ [arch]))).
    cbv iota. rewrite Hos, Harch.
    repeat split. f_equal.
    change (dt :: mids ++ [arch])%list with ((dt :: mids) ++ [arch])%list.
    apply last_last.
  - intros Hc. unfold Image.getTargetOS, Image.getTargetVersion, Image.getDeviceType,
      Image.getArch, Image.systemNameWithVersion, Image.deviceTypeWithArch.
    rewrite (split_no_sep "," _ Hc). repeat split.
Qed.

Lemma buildList_type (d : DeviceImpl) :
  cachedList d = None ->
  FullDeployedImageOptions.type (buildList d) = Image.getSnakecaseDeviceType (image d).
Proof.
  intros H. unfold buildList. rewrite H. cbv zeta.
  destruct (screen (options d)) as [s|p]; [reflexivity|].
  destruct (ProductConfigItem.devModel (getProductConfig p)) as [m|];
    [destruct (Str.truthy m)|];
    destruct (Str.truthy (ProductConfigItem.name (getProductConfig p)));
    reflexivity.
Qed.

(** X10. Only an image of device type [pc] gives a record of type
    [2in1_foldable]: the getter maps [pc] to it, and no device type is
    lowered to it, because a device type holds no underscore. So, for a
    device without cached record, the dual-screen mode of [buildIni] needs
    an image of device type [pc]. *)
Theorem dual_screen_needs_pc_image (d : DeviceImpl) :
  (Image.getSnakecaseDeviceType (image d) = "2in1_foldable"
   <-> Image.getDeviceType (image d) = "pc")
  /\ (cachedList d = None -> useDualScreen d = true ->
      Image.getDeviceType (image d) = "pc").
Proof.
  assert (Hiff : Image.getSnakecaseDeviceType (image d) = "2in1_foldable"
                 <-> Image.getDeviceType (image d) = "pc").
  { unfold Image.getSnakecaseDeviceType.
    destruct (Image.getDeviceType (image d) =? "pc") eqn:E.
    - apply String.eqb_eq in E. tauto.
    - split; [|intros H; rewrite H in E; discriminate].
      intros H. apply (f_equal (Str.mem "_")) in H.
      rewrite mem_toLowerCase, getDeviceType_has_no_underscore in H.
      discriminate. }
  split; [exact Hiff|].
  intros Hc Hd. apply Hiff. rewrite <- (buildList_type d Hc).
  unfold useDualScreen in Hd. cbv zeta in Hd.
  rewrite !andb_true_iff in Hd. destruct Hd as [[[Ht _] _] _].
  now apply String.eqb_eq.
Qed.

End ImagePath.

Lemma image_path_decoding_witness :
  Image.getPath Scenario.image
  = Str.join "," ["system-image"; Str.join "-" ["HarmonyOS"; "6.0.2"];
                  Str.join "_" ("pc" :: ["all"] ++ ["arm"])]
  /\ Image.getTargetOS Scenario.image = "HarmonyOS"
  /\ Image.getTargetVersion Scenario.image = "6.0.2"
  /\ Image.getDeviceType Scenario.image = "pc"
  /\ Image.getArch Scenario.image = Some "arm".
Proof.
  split; [reflexivity|].
  destruct (image_path_decoding Scenario.image) as [H _].
  apply (H "system-image" "HarmonyOS" "6.0.2" "pc" "arm" ["all"]).
  - repeat constructor.
  - repeat constructor.
  - repeat constructor.
  - reflexivity.
Defined.

Lemma dual_screen_needs_pc_image_witness :
  cachedList Scenario.fold = None
  /\ useDualScreen Scenario.fold = true
  /\ Image.getDeviceType (image Scenario.fold) = "pc".
Proof.
  split; [reflexivity|]. split; [reflexivity|].
  destruct (dual_screen_needs_pc_image Scenario.fold) as [_ H].
  exact (H eq_refl eq_refl).
Defined.

(** ** Reading the registry back *)

Lemma bind_inv {A B : Type} (m : M A) (k : A -> M B) (w w' : World) (b : B) :
  bind m k w = (Return b, w') ->
  exists a w1, m w = (Return a, w1) /\ k a w1 = (Return b, w').
Proof.
  unfold bind. destruct (m w) as [[a|e] w1]; [|discriminate].
  intros H. now exists a, w1.
Qed.

Lemma keepsFiles_bind {A B : Type} (m : M A) (k : A -> M B) :
  keepsFiles m -> (forall a, keepsFiles (k a)) -> keepsFiles (bind m k).
Proof.
  intros Hm Hk w. unfold bind. specialize (Hm w).
  destruct (m w) as [[a|e] w1]; simpl in Hm; [|exact Hm].
  rewrite <- Hm. apply Hk.
Qed.

Lemma keepsFiles_reads {A : Type} (m : M A) : readsOnly m -> keepsFiles m.
Proof. intros H w. now rewrite H. Qed.

Lemma keepsFiles_ret {A : Type} (a : A) : keepsFiles (ret a).
Proof. intros w. reflexivity. Qed.

Lemma keepsFiles_randomUUID : keepsFiles randomUUID.
Proof. intros w. reflexivity. Qed.

Section ReadingBack.

Context {JN : JSNumber}.

Variable INI_parse : content -> IniObject.
Variable default_product_config : ProductConfig.
Variable parseProductConfig : content -> exn + ProductConfig.

Lemma managerGetProductConfig_reads (o : ManagerOptions.t) :
  readsOnly (managerGetProductConfig default_product_config parseProductConfig o).
Proof.
  unfold managerGetProductConfig.
  apply readsOnly_bind; [apply readsOnly_existsSync|]. intros present.
  destruct present; simpl; [|apply readsOnly_ret].
  apply readsOnly_bind; [apply readsOnly_statSync|]. intros st.
  destruct (isFile st); simpl; [|apply readsOnly_ret].
  apply readsOnly_bind; [apply readsOnly_readFileSync|]. intros text.
  destruct (parseProductConfig text); [apply readsOnly_throw|apply readsOnly_ret].
Qed.

Lemma imageGetProductConfig_reads (i : Image.t) :
  readsOnly (imageGetProductConfig default_product_config parseProductConfig i).
Proof.
  unfold imageGetProductConfig.
  apply readsOnly_bind; [apply managerGetProductConfig_reads|]. intros c.
  destruct (negb _); [apply readsOnly_ret|].
  destruct (_ =? "pc"); [apply readsOnly_ret|].
  destruct (find _ _); apply readsOnly_ret.
Qed.

Lemma createScreenLike_reads (i : Image.t) (item : FullDeployedImageOptions.t) :
  readsOnly (createScreenLike default_product_config parseProductConfig i item).
Proof.
  unfold createScreenLike.
  destruct (negb _); [apply readsOnly_ret|].
  apply readsOnly_bind; [apply imageGetProductConfig_reads|]. intros c.
  destruct (find _ c); [|apply readsOnly_ret].
  destruct (getPascalCaseDeviceType i); [|apply readsOnly_ret].
  destruct (_ || _); apply readsOnly_ret.
Qed.

Lemma createDevice_keeps (i : Image.t) (o : DeviceOptions) :
  keepsFiles (createDevice i o).
Proof.
  unfold createDevice, newDevice.
  apply keepsFiles_bind; [apply keepsFiles_randomUUID|]. intros u.
  apply keepsFiles_ret.
Qed.

Lemma deviceOfItem_keeps (i : Image.t) (item : FullDeployedImageOptions.t) :
  keepsFiles (deviceOfItem INI_parse default_product_config parseProductConfig i item).
Proof.
  unfold deviceOfItem. cbv zeta.
  destruct (negb _); [apply keepsFiles_ret|].
  apply keepsFiles_bind; [apply keepsFiles_reads, readsOnly_existsSync|]. intros present.
  destruct (negb present); [apply keepsFiles_ret|].
  apply keepsFiles_bind; [apply keepsFiles_reads, readsOnly_statSync|]. intros st.
  destruct (negb (isFile st)); [apply keepsFiles_ret|].
  apply keepsFiles_bind; [apply keepsFiles_reads, createScreenLike_reads|]. intros s.
  apply keepsFiles_bind; [apply createDevice_keeps|]. intros dev.
  apply keepsFiles_bind; [apply keepsFiles_reads, readsOnly_readFileSync|]. intros text.
  apply keepsFiles_bind; [apply keepsFiles_reads, readsOnly_existsSync|]. intros dp.
  destruct (negb dp); [apply keepsFiles_ret|].
  apply keepsFiles_bind; [apply keepsFiles_reads, readsOnly_statSync|]. intros st'.
  destruct (negb (isDirectory st')); apply keepsFiles_ret.
Qed.

Lemma collectDevices_keeps (i : Image.t) (items : list FullDeployedImageOptions.t) :
  keepsFiles (collectDevices INI_parse default_product_config parseProductConfig i items).
Proof.
  induction items as [|item items IH]; simpl; [apply keepsFiles_ret|].
  apply keepsFiles_bind; [apply deviceOfItem_keeps|]. intros found.
  apply keepsFiles_bind; [exact IH|]. intros devices.
  apply keepsFiles_ret.
Qed.

Lemma getDevices_keeps (i : Image.t) :
  keepsFiles (getDevices INI_parse default_product_config parseProductConfig i).
Proof.
  unfold getDevices. cbv zeta.
  apply keepsFiles_bind; [apply keepsFiles_reads, readsOnly_existsSync|]. intros present.
  destruct (negb present); [apply keepsFiles_ret|].
  apply keepsFiles_bind; [apply keepsFiles_reads, readsOnly_statSync|]. intros st.
  destruct (negb (isFile st)); [apply keepsFiles_ret|].
  apply keepsFiles_bind; [apply keepsFiles_reads, readsOnly_readFileSync|]. intros text.
  apply keepsFiles_bind; [apply keepsFiles_reads, readsOnly_JSON_parse|]. intros j.
  destruct j; try apply keepsFiles_ret. apply collectDevices_keeps.
Qed.

End ReadingBack.

Lemma reads_inv {A : Type} (m : M A) (w w' : World) (a : A) :
  readsOnly m -> m w = (Return a, w') -> w' = w.
Proof. intros Hm H. specialize (Hm w). rewrite H in Hm. exact Hm. Qed.

Lemma statSync_directory (p : string) (w w' : World) (st : node) :
  statSync p w = (Return st, w') -> isDirectory st = true ->
  p <> "" /\ fs_lookup (fs w) (Path.segments p) = Some Dir.
Proof.
  unfold statSync. destruct p as [|a p]; [discriminate|].
  destruct (fs_lookup (fs w) (Path.segments (String a p))) as [n|]; [|discriminate].
  intros H Hf. injection H as -> _. destruct st as [c|]; [discriminate|].
  split; [discriminate|reflexivity].
Qed.

Lemma readFileSync_inv (p : string) (w w' : World) (c : content) :
  readFileSync p w = (Return c, w') ->
  fs_lookup (fs w) (Path.segments p) = Some (File c).
Proof.
  unfold readFileSync. destruct p as [|a p]; [discriminate|].
  destruct (fs_lookup (fs w) (Path.segments (String a p))) as [[c'|]|];
    try discriminate.
  intros H. now injection H as -> _.
Qed.

Ltac pass_guard H :=
  match type of H with
  | (if negb ?b then _ else _) _ = _ =>
      let E := fresh "E" in
      destruct (negb b) eqn:E; cbv iota in H; [discriminate|]
  end.

Ltac empty_guard H :=
  match type of H with
  | (if negb ?b then _ else _) _ = _ =>
      let E := fresh "E" in
      destruct (negb b) eqn:E; cbv iota in H;
      [unfold ret in H; injection H as <- _; contradiction|]
  end.

Section ReadingBackSound.

Context {JN : JSNumber}.

Variable INI_parse : content -> IniObject.
Variable default_product_config : ProductConfig.
Variable parseProductConfig : content -> exn + ProductConfig.

(** What one turn of the loop of [getDevices] has checked when it yields
    a device. *)
Lemma deviceOfItem_some (i : Image.t) (item : FullDeployedImageOptions.t)
    (w w' : World) (dev : DeviceImpl) :
  deviceOfItem INI_parse default_product_config parseProductConfig i item w
    = (Return (Some dev), w') ->
  readBack INI_parse i (fs w) item dev.
Proof.
  unfold deviceOfItem. cbv zeta. intros H.
  pass_guard H. apply negb_false_iff, String.eqb_eq in E.
  apply bind_inv in H. destruct H as [present [w1 [H1 H]]].
  rewrite existsSync_run in H1. injection H1 as <- <-.
  pass_guard H.
  apply bind_inv in H. destruct H as [st [w1 [H1 H]]].
  pose proof (reads_inv _ _ _ _ (readsOnly_statSync _) H1) as ->.
  pass_guard H.
  apply bind_inv in H. destruct H as [s [w1 [H2 H]]].
  pose proof (reads_inv _ _ _ _ (createScreenLike_reads _ _ _ _) H2) as ->.
  apply bind_inv in H. destruct H as [dev0 [w1 [H3 H]]].
  unfold createDevice, newDevice, bind, randomUUID, ret in H3.
  injection H3 as <- <-.
  apply bind_inv in H. destruct H as [text [w2 [H4 H]]].
  pose proof (reads_inv _ _ _ _ (readsOnly_readFileSync _) H4) as ->.
  apply readFileSync_inv in H4. simpl (fs _) in H4.
  apply bind_inv in H. destruct H as [dp [w2 [H5 H]]].
  rewrite existsSync_run in H5. injection H5 as <- <-.
  pass_guard H.
  apply bind_inv in H. destruct H as [st' [w2 [H6 H]]].
  pass_guard H. apply negb_false_iff in E3.
  destruct (statSync_directory _ _ _ _ H6 E3) as [_ Hdir]. simpl (fs _) in Hdir.
  unfold ret in H. injection H as <- _.
  unfold readBack.
  repeat split; try reflexivity; try assumption.
  exists text. split; [assumption|reflexivity].
Qed.

Lemma collectDevices_sound (i : Image.t) (items : list FullDeployedImageOptions.t)
    (w w' : World) (devices : list DeviceImpl) :
  collectDevices INI_parse default_product_config parseProductConfig i items w
    = (Return devices, w') ->
  forall dev, In dev devices ->
    exists item, In item items /\ readBack INI_parse i (fs w) item dev.
Proof.
  revert w devices. induction items as [|item items IH]; intros w devices H dev Hin.
  - injection H as <- _. contradiction.
  - simpl in H. apply bind_inv in H. destruct H as [found [w1 [H1 H]]].
    apply bind_inv in H. destruct H as [rest [w2 [H2 H]]].
    unfold ret in H. injection H as <- <-.
    pose proof (deviceOfItem_keeps INI_parse default_product_config parseProductConfig
                  i item w) as Hk.
    rewrite H1 in Hk. simpl in Hk.
    assert (Hrest : In dev rest ->
              exists item', In item' (item :: items)
                            /\ readBack INI_parse i (fs w) item' dev).
    { intros Hr. destruct (IH w1 rest H2 dev Hr) as [item' [Hi Hb]].
      exists item'. split; [now right|]. now rewrite <- Hk. }
    destruct found as [dev0|]; [|now apply Hrest].
    destruct Hin as [<-|Hin]; [|now apply Hrest].
    exists item. split; [now left|]. now apply deviceOfItem_some with w1.
Qed.

(** X11. [getDevices] leaves every file as it is, and every device it
    returns is deployed: the device belongs to the image, its record is a
    record of the registry file, its mapping is what the reader makes of
    its [config.ini], [isDeployed] answers true for it, and [deploy]
    returns for it without a change. *)
Theorem getDevices_yields_deployed_devices (i : Image.t) (w : World) :
  let result :=
    getDevices INI_parse default_product_config parseProductConfig i w in
  fs (snd result) = fs w
  /\ forall devices dev,
       fst result = Return devices -> In dev devices ->
       exists items item,
         holdsJson w (listsPathOf dev) (JArray items)
         /\ In item items
         /\ readBack INI_parse i (fs w) item dev
         /\ buildList dev = item
         /\ (forall opts, exists text, buildIni dev opts = INI_parse text)
         /\ fst (isDeployed dev (snd result)) = Return true
         /\ deploy dev (snd result) = (Return tt, snd result).
Proof.
  intros result.
  assert (Hk : fs (snd result) = fs w) by apply getDevices_keeps.
  split; [exact Hk|].
  intros devices dev Hr Hin.
  destruct result as [r w'] eqn:Er. simpl in Hr, Hk. subst r. simpl (snd _).
  unfold getDevices in Er. cbv zeta in Er.
  set (p := Path.resolve
              (ManagerOptions.deployedPath (Image.imageManager i)) "lists.json") in *.
  apply bind_inv in Er. destruct Er as [present [w1 [H1 H]]].
  rewrite existsSync_run in H1. injection H1 as <- <-.
  empty_guard H.
  apply bind_inv in H. destruct H as [st [w1 [H1 H]]].
  pose proof (reads_inv _ _ _ _ (readsOnly_statSync _) H1) as ->.
  empty_guard H.
  apply bind_inv in H. destruct H as [text [w1 [H2 H]]].
  pose proof (reads_inv _ _ _ _ (readsOnly_readFileSync _) H2) as ->.
  apply readFileSync_inv in H2.
  apply bind_inv in H. destruct H as [j [w1 [H3 H]]].
  pose proof (reads_inv _ _ _ _ (readsOnly_JSON_parse _) H3) as ->.
  destruct text as [t|j']; [discriminate|]. injection H3 as ->.
  destruct j as [|items|]; try (unfold ret in H; injection H as <- _; contradiction).
  destruct (collectDevices_sound i items w w' devices H dev Hin) as [item [Hi Hb]].
  pose proof Hb as [Himg [Hcl [Hname [_ [_ [[c [Hc Hini]] _]]]]]].
  assert (Hj : holdsJson w (listsPathOf dev) (JArray items)).
  { split; [apply listsPath_nonempty|].
    rewrite listsPath_segments. unfold deployedPathOf. rewrite Himg.
    destruct (resolve_child (ManagerOptions.deployedPath (Image.imageManager i))
                "lists.json" plain_lists_json) as [_ Hs].
    fold p in Hs. now rewrite <- Hs. }
  assert (Hd : isDeployed dev w' = (Return true, w')).
  { assert (Hj' : holdsJson w' (listsPathOf dev) (JArray items))
      by (destruct Hj as [Hp Hl]; split; [exact Hp|now rewrite Hk]).
    rewrite (isDeployed_array dev w' items Hj'). f_equal. f_equal.
    apply existsb_exists. exists item. split; [exact Hi|].
    rewrite Hname, String.eqb_refl. simpl.
    unfold exists_in.
    destruct (resolve_nonempty (FullDeployedImageOptions.path item) "config.ini")
      as [s Es].
    rewrite Es. rewrite <- Es. now rewrite Hk, Hc. }
  exists items, item. split; [exact Hj|]. split; [exact Hi|]. split; [exact Hb|].
  split; [unfold buildList; now rewrite Hcl|].
  split; [intros opts; exists c; unfold buildIni; now rewrite Hini|].
  split; [now rewrite Hd|].
  apply deploy_when_deployed. now rewrite Hd.
Qed.

End ReadingBackSound.

Lemma getDevices_yields_deployed_devices_witness :
  exists dev,
    fst (getDevices (JN := WholeNumber.whole) Scenario.noIniReader []
           Scenario.noProductConfig Scenario.image Scenario.deployedWorld)
      = Return [dev]
    /\ name (options dev) = "MateBook Fold"
    /\ fst (isDeployed dev
              (snd (getDevices (JN := WholeNumber.whole) Scenario.noIniReader []
                      Scenario.noProductConfig Scenario.image Scenario.deployedWorld)))
       = Return true.
Proof.
  eexists. split; [reflexivity|]. split; [reflexivity|].
  destruct (getDevices_yields_deployed_devices (JN := WholeNumber.whole)
              Scenario.noIniReader [] Scenario.noProductConfig
              Scenario.image Scenario.deployedWorld) as [_ H].
  destruct (H _ _ eq_refl (or_introl eq_refl))
    as [items [item [_ [_ [_ [_ [_ [Hd _]]]]]]]].
  exact Hd.
Defined.

Section RestoredScreen.

Context {JN : JSNumber}.

Variable default_product_config : ProductConfig.
Variable parseProductConfig : content -> exn + ProductConfig.

(** X12. The screen [createScreenLike] restores for a record of the
    registry has the four dimensions of the record, whether it comes back
    as a raw screen or as a product preset; a preset comes back only under
    the model name of the record and with the device type of the image. *)
Theorem createScreenLike_restores_dimensions (i : Image.t)
    (item : FullDeployedImageOptions.t) (w w' : World) (s : ScreenLike) :
  createScreenLike default_product_config parseProductConfig i item w
    = (Return s, w') ->
  w' = w
  /\ match s with RawScreen r => r | Preset p => toScreen p end
     = {| getDiagonal := Number (FullDeployedImageOptions.diagonalSize item);
          getHeight := Number (FullDeployedImageOptions.resolutionHeight item);
          getWidth := Number (FullDeployedImageOptions.resolutionWidth item);
          getDensity := Number (FullDeployedImageOptions.density item) |}
  /\ (forall p, s = Preset p ->
        FullDeployedImageOptions.model item
          = Some (ProductConfigItem.name (getProductConfig p))
        /\ getPascalCaseDeviceType i = Some (getPresetDeviceType p)).
Proof.
  intros H.
  split; [exact (reads_inv _ _ _ _ (createScreenLike_reads _ _ _ _) H)|].
  unfold createScreenLike in H.
  assert (Hraw : forall w0,
            ret (screenOfItem item) w0 = (Return s, w') ->
            match s with RawScreen r => r | Preset p => toScreen p end
            = {| getDiagonal := Number (FullDeployedImageOptions.diagonalSize item);
                 getHeight := Number (FullDeployedImageOptions.resolutionHeight item);
                 getWidth := Number (FullDeployedImageOptions.resolutionWidth item);
                 getDensity := Number (FullDeployedImageOptions.density item) |}
            /\ (forall p, s = Preset p ->
                  FullDeployedImageOptions.model item
                    = Some (ProductConfigItem.name (getProductConfig p))
                  /\ getPascalCaseDeviceType i = Some (getPresetDeviceType p))).
  { intros w0 H0. unfold ret, screenOfItem in H0. injection H0 as <- _.
    split; [reflexivity|]. intros p Hp. discriminate. }
  destruct (negb (Str.truthy_opt (FullDeployedImageOptions.model item)));
    [exact (Hraw _ H)|].
  apply bind_inv in H. destruct H as [c [w1 [_ H]]].
  destruct (find _ c) as [found|] eqn:Ef; [|exact (Hraw _ H)].
  destruct (getPascalCaseDeviceType i) as [t|]; [|exact (Hraw _ H)].
  destruct (_ || _) eqn:Ec in H; [exact (Hraw _ H)|].
  unfold ret in H. injection H as <- _.
  rewrite !orb_false_iff, !negb_false_iff, !String.eqb_eq in Ec.
  destruct Ec as [[[E1 E2] E3] E4].
  apply find_some in Ef. destruct Ef as [_ Ef].
  split.
  - unfold toScreen. simpl. now rewrite E1, E2, E3, E4.
  - intros p Hp. injection Hp as <-. simpl. split; [|reflexivity].
    destruct (FullDeployedImageOptions.model item) as [m|]; [|discriminate].
    apply String.eqb_eq in Ef. now rewrite Ef.
Qed.

End RestoredScreen.

Section RestoredScreenScenario.

#[local] Existing Instance WholeNumber.whole.

Lemma createScreenLike_restores_dimensions_witness :
  createScreenLike
    [("2in1 Foldable", [Scenario.mateBookFold])] Scenario.noProductConfig
    Scenario.image (buildList Scenario.fold) (Scenario.world Scenario.freshFs)
  = (Return (Preset (createProductPreset Scenario.mateBookFold "2in1 Foldable")),
     Scenario.world Scenario.freshFs)
  /\ toScreen (createProductPreset Scenario.mateBookFold "2in1 Foldable")
     = {| getDiagonal :=
            Number (FullDeployedImageOptions.diagonalSize (buildList Scenario.fold));
          getHeight :=
            Number (FullDeployedImageOptions.resolutionHeight (buildList Scenario.fold));
          getWidth :=
            Number (FullDeployedImageOptions.resolutionWidth (buildList Scenario.fold));
          getDensity :=
            Number (FullDeployedImageOptions.density (buildList Scenario.fold)) |}.
Proof.
  assert (H : createScreenLike
                [("2in1 Foldable", [Scenario.mateBookFold])] Scenario.noProductConfig
                Scenario.image (buildList Scenario.fold)
                (Scenario.world Scenario.freshFs)
              = (Return (Preset (createProductPreset Scenario.mateBookFold
                                   "2in1 Foldable")),
                 Scenario.world Scenario.freshFs)) by reflexivity.
  split; [exact H|].
  destruct (createScreenLike_restores_dimensions _ _ _ _ _ _ _ H) as [_ [Hs _]].
  exact Hs.
Defined.

End RestoredScreenScenario.

(** ** The cache of the downloader *)

Lemma fs_write_ok (p : string) (c : content) (f : FS) :
  p <> "" -> Path.segments p <> [] ->
  fs_lookup f (removelast (Path.segments p)) = Some Dir ->
  fs_lookup f (Path.segments p) <> Some Dir ->
  fs_write p c f = inr (fs_put (Path.segments p) (File c) f).
Proof.
  intros Hp Hs Hpar Hn. unfold fs_write.
  destruct p as [|a p]; [contradiction|].
  destruct (Path.segments (String a p)) as [|s ss] eqn:Es; [contradiction|].
  rewrite Hpar.
  destruct (fs_lookup f (s :: ss)) as [[?|]|]; try reflexivity.
  contradiction.
Qed.

Lemma length_positive (s : string) :
  s <> "" -> (0 <? N.of_nat (String.length s))%N = true.
Proof.
  intros H. destruct s; [contradiction|]. apply N.ltb_lt. simpl. lia.
Qed.

Lemma getCacheFsPath_nonempty (dl : ImageDownloader) : getCacheFsPath dl <> "".
Proof.
  unfold getCacheFsPath.
  destruct (resolve_nonempty
              (ManagerOptions.cachePath (Image.imageManager (downloaderImage dl)))
              (Path.basename (getUrl dl))) as [s ->]. discriminate.
Qed.

Lemma cacheReady_segments (dl : ImageDownloader) (w : World) :
  cacheReady dl w ->
  let cachePath := ManagerOptions.cachePath (Image.imageManager (downloaderImage dl)) in
  Path.segments (getCacheFsPath dl)
  = (Path.segments cachePath ++ [Path.basename (getUrl dl)])%list
  /\ ensureCacheDirectory dl w = (Return tt, w).
Proof.
  intros [Hne [Hdir Hplain]]. cbv zeta. split.
  - unfold getCacheFsPath. now apply resolve_child.
  - unfold ensureCacheDirectory. cbv zeta.
    rewrite (bind_return _ _ w w true); [reflexivity|].
    rewrite existsSync_run. unfold exists_in.
    destruct (ManagerOptions.cachePath _); [contradiction|]. now rewrite Hdir.
Qed.

Lemma cacheReady_frame (dl : ImageDownloader) (w : World) (c : content) :
  cacheReady dl w ->
  cacheReady dl
    (mkWorld (fs_put (Path.segments (getCacheFsPath dl)) (File c) (fs w))
       (uuids w) (drawn w) (http w)
       (sent w ++ [mkRequest (getUrl dl) []])).
Proof.
  intros H. destruct (cacheReady_segments dl w H) as [Hs _].
  destruct H as [Hne [Hdir Hplain]]. split; [exact Hne|]. split; [|exact Hplain].
  simpl (fs _). rewrite fs_lookup_put_other; [exact Hdir| |].
  - rewrite Hs. intros E. apply app_eq_nil in E. destruct E as [_ E]. discriminate.
  - rewrite Hs. intros E. apply (f_equal (@List.length string)) in E.
    rewrite length_app in E. simpl in E. lia.
Qed.

Section CacheExtras.

Variable sizeOfDirectory : N.
Variable jsonText : json -> string.
Variable sha256hex : string -> string.

(** A download into an empty place of the cache. *)
Lemma startDownload_fresh (dl : ImageDownloader) (w : World) (status : N)
    (chunks : list string) (complete : bool) :
  cacheReady dl w ->
  fs_lookup (fs w) (Path.segments (getCacheFsPath dl)) = None ->
  http w (mkRequest (getUrl dl) []) = Response status chunks complete ->
  validateStatus status = true ->
  startDownload sizeOfDirectory jsonText dl w
  = (if complete then Return tt else Throw StreamError,
     mkWorld (fs_put (Path.segments (getCacheFsPath dl))
                (File (Raw (Str.join "" chunks))) (fs w))
       (uuids w) (drawn w) (http w) (sent w ++ [mkRequest (getUrl dl) []])).
Proof.
  intros Hready Habs Hreply Hvalid.
  set (p := getCacheFsPath dl) in *.
  assert (Hp : p <> "") by apply getCacheFsPath_nonempty.
  destruct (cacheReady_segments dl w Hready) as [Hs He]. cbv zeta in Hs. fold p in Hs.
  assert (Hsne : Path.segments p <> []).
  { rewrite Hs. intros E. apply app_eq_nil in E. destruct E as [_ E]. discriminate. }
  assert (Hpar : fs_lookup (fs w) (removelast (Path.segments p)) = Some Dir).
  { rewrite Hs, removelast_last. exact (proj1 (proj2 Hready)). }
  rewrite (startDownload_run sizeOfDirectory jsonText dl w w He).
  fold p. rewrite Habs. change (rangeHeaders 0) with (@nil (string * string)).
  rewrite Hreply, Hvalid.
  change ((0 <? 0)%N) with false. cbv beta iota delta [andb when].
  rewrite (bind_return _ _ _ _ tt) by reflexivity.
  change ((0 <? 0)%N) with false. cbv iota.
  unfold pipeToFile. change ("w" =? "a") with false. cbv iota.
  cbn [fs]. rewrite fs_write_ok; try assumption.
  - now destruct complete.
  - rewrite Habs. discriminate.
Qed.

(** A reply 206 to a request from the end of the cache file on. *)
Lemma startDownload_append (dl : ImageDownloader) (w : World) (old : string)
    (chunks : list string) (complete : bool) :
  cacheReady dl w ->
  fs_lookup (fs w) (Path.segments (getCacheFsPath dl)) = Some (File (Raw old)) ->
  old <> "" ->
  let request :=
    mkRequest (getUrl dl)
      [("Range", "bytes=" ++ Str.of_N (N.of_nat (String.length old)) ++ "-")] in
  http w request = Response 206 chunks complete ->
  startDownload sizeOfDirectory jsonText dl w
  = (if complete then Return tt else Throw StreamError,
     mkWorld (fs_put (Path.segments (getCacheFsPath dl))
                (File (Raw (old ++ Str.join "" chunks))) (fs w))
       (uuids w) (drawn w) (http w) (sent w ++ [request])).
Proof.
  intros Hready Hfile Hne request Hreply.
  set (p := getCacheFsPath dl) in *.
  assert (Hp : p <> "") by apply getCacheFsPath_nonempty.
  destruct (cacheReady_segments dl w Hready) as [Hs He]. cbv zeta in Hs. fold p in Hs.
  assert (Hsne : Path.segments p <> []).
  { rewrite Hs. intros E. apply app_eq_nil in E. destruct E as [_ E]. discriminate. }
  assert (Hpar : fs_lookup (fs w) (removelast (Path.segments p)) = Some Dir).
  { rewrite Hs, removelast_last. exact (proj1 (proj2 Hready)). }
  rewrite (startDownload_run sizeOfDirectory jsonText dl w w He).
  fold p. rewrite Hfile.
  change (size sizeOfDirectory jsonText (File (Raw old)))
    with (N.of_nat (String.length old)).
  unfold rangeHeaders. rewrite (length_positive old Hne). fold request.
  rewrite Hreply.
  change (validateStatus 206) with true. change ((206 =? 206)%N) with true.
  cbv beta iota delta [andb negb when].
  rewrite (bind_return _ _ _ _ tt) by reflexivity.
  rewrite (length_positive old Hne). cbv iota.
  unfold pipeToFile. change ("a" =? "a") with true. cbv iota.
  cbn [fs]. rewrite Hfile. change (textOf jsonText (Raw old)) with old.
  rewrite fs_write_ok; try assumption.
  - now destruct complete.
  - rewrite Hfile. discriminate.
Qed.

(** X13. [clean] never fails. Afterwards nothing is at the cache path,
    every path that is not at or below the cache path is as before, and a
    second [clean] changes nothing. *)
Theorem clean_empties_the_cache_path (dl : ImageDownloader) (w : World) :
  let p := getCacheFsPath dl in
  let w' := snd (clean dl w) in
  fst (clean dl w) = Return tt
  /\ (forall q, is_prefix (Path.segments p) q = false -> fs w' q = fs w q)
  /\ (Path.segments p <> [] ->
      exists_in (fs w') p = false /\ clean dl w' = (Return tt, w')).
Proof.
  intros p w'.
  assert (Hp : p <> "") by apply getCacheFsPath_nonempty.
  assert (Hrun : clean dl w
                 = (Return tt,
                    if exists_in (fs w) p
                    then with_fs w (fs_remove_tree (Path.segments p) (fs w))
                    else w)).
  { unfold clean. cbv zeta. fold p.
    rewrite (bind_return _ _ w w (exists_in (fs w) p)) by apply existsSync_run.
    destruct (exists_in (fs w) p) eqn:Ex; [|reflexivity].
    unfold when. unfold exists_in in Ex. destruct p as [|a p']; [discriminate|].
    destruct (fs_lookup (fs w) (Path.segments (String a p'))) as [n|] eqn:El;
      [|discriminate].
    now rewrite (rmSync_run _ false _ n). }
  assert (Hclean : forall w0, exists_in (fs w0) p = false ->
                              clean dl w0 = (Return tt, w0)).
  { intros w0 Ex. unfold clean. cbv zeta. fold p.
    rewrite (bind_return _ _ w0 w0 false); [reflexivity|].
    rewrite existsSync_run. now rewrite Ex. }
  unfold w'. rewrite Hrun. simpl (fst _). simpl (snd _).
  split; [reflexivity|]. split.
  - intros q Hq. destruct (exists_in (fs w) p); [|reflexivity].
    simpl. unfold fs_remove_tree. now rewrite Hq.
  - intros Hs.
    assert (Hgone : exists_in
                      (fs (if exists_in (fs w) p
                           then with_fs w (fs_remove_tree (Path.segments p) (fs w))
                           else w)) p = false).
    { destruct (exists_in (fs w) p) eqn:Ex; [|exact Ex].
      simpl (fs _). unfold exists_in. destruct p as [|a p']; [reflexivity|].
      rewrite fs_lookup_remove_tree by assumption.
      now rewrite is_prefix_refl. }
    split; [exact Hgone|]. now apply Hclean.
Qed.

(** X14. A download that breaks off is taken up again. With the cache
    directory in place and no cache file, a first reply 200 whose body
    stream fails after some bytes makes [startDownload] fail and leaves
    those bytes in the cache file; the next call asks for the bytes from
    that length on, and a reply 206 makes it return with the cache file
    holding the bytes of the first reply followed by those of the
    second. *)
Theorem interrupted_download_resumes (dl : ImageDownloader) (w : World)
    (first rest : list string) :
  cacheReady dl w ->
  fs_lookup (fs w) (Path.segments (getCacheFsPath dl)) = None ->
  Str.join "" first <> "" ->
  let received := Str.join "" first in
  let request1 := mkRequest (getUrl dl) [] in
  let request2 :=
    mkRequest (getUrl dl)
      [("Range", "bytes=" ++ Str.of_N (N.of_nat (String.length received)) ++ "-")] in
  http w request1 = Response 200 first false ->
  http w request2 = Response 206 rest true ->
  let run1 := startDownload sizeOfDirectory jsonText dl w in
  let run2 := startDownload sizeOfDirectory jsonText dl (snd run1) in
  fst run1 = Throw StreamError
  /\ fs_lookup (fs (snd run1)) (Path.segments (getCacheFsPath dl))
     = Some (File (Raw received))
  /\ fst run2 = Return tt
  /\ fs_lookup (fs (snd run2)) (Path.segments (getCacheFsPath dl))
     = Some (File (Raw (received ++ Str.join "" rest)))
  /\ sent (snd run2) = (sent w ++ [request1; request2])%list.
Proof.
  intros Hready Habs Hne received request1 request2 H1 H2 run1 run2.
  set (p := getCacheFsPath dl) in *.
  set (w1 := mkWorld (fs_put (Path.segments p) (File (Raw received)) (fs w))
               (uuids w) (drawn w) (http w) (sent w ++ [request1])).
  assert (Hsne : Path.segments p <> []).
  { destruct (cacheReady_segments dl w Hready) as [Hs _]. cbv zeta in Hs.
    fold p in Hs. rewrite Hs. intros E. apply app_eq_nil in E.
    destruct E as [_ E]. discriminate. }
  assert (Hrun1 : run1 = (Throw StreamError, w1)).
  { unfold run1.
    now rewrite (startDownload_fresh dl w 200 first false Hready Habs H1 eq_refl). }
  assert (Hfile1 : fs_lookup (fs w1) (Path.segments p) = Some (File (Raw received)))
    by (cbn [fs w1]; now apply fs_lookup_put_same).
  assert (Hready1 : cacheReady dl w1) by exact (cacheReady_frame dl w _ Hready).
  assert (Hrun2 : run2
                  = (Return tt,
                     mkWorld (fs_put (Path.segments p)
                                (File (Raw (received ++ Str.join "" rest))) (fs w1))
                       (uuids w1) (drawn w1) (http w1) (sent w1 ++ [request2]))).
  { unfold run2. rewrite Hrun1. cbn [snd].
    now rewrite (startDownload_append dl w1 received rest true Hready1 Hfile1 Hne H2). }
  rewrite Hrun1, Hrun2. cbn [fst snd fs sent].
  split; [reflexivity|]. split; [exact Hfile1|]. split; [reflexivity|].
  split; [now apply fs_lookup_put_same|].
  unfold w1. cbn [sent]. now rewrite <- app_assoc.
Qed.

(** X15. [checkChecksum] compares the digest of the cache file with the
    checksum of the image and changes nothing. Before a download, when no
    cache file is there, it fails with [ENOENT]; after a download that
    ran to its end on a reply 200, it answers whether the digest of the
    body is the checksum of the image. *)
Theorem download_then_checksum (dl : ImageDownloader) (w : World) :
  cacheReady dl w ->
  fs_lookup (fs w) (Path.segments (getCacheFsPath dl)) = None ->
  checkChecksum sha256hex jsonText dl w = (Throw (SystemError "ENOENT"), w)
  /\ forall chunks,
       http w (mkRequest (getUrl dl) []) = Response 200 chunks true ->
       let w' := snd (startDownload sizeOfDirectory jsonText dl w) in
       fst (startDownload sizeOfDirectory jsonText dl w) = Return tt
       /\ checkChecksum sha256hex jsonText dl w'
          = (Return (sha256hex (Str.join "" chunks)
                       =? Image.getChecksum (downloaderImage dl)), w').
Proof.
  intros Hready Habs.
  set (p := getCacheFsPath dl) in *.
  assert (Hp : p <> "") by apply getCacheFsPath_nonempty.
  assert (Hcheck : forall w0 c,
            fs_lookup (fs w0) (Path.segments p) = Some (File c) ->
            checkChecksum sha256hex jsonText dl w0
            = (Return (sha256hex (textOf jsonText c)
                         =? Image.getChecksum (downloaderImage dl)), w0)).
  { intros w0 c Hc. unfold checkChecksum, readStream. cbv zeta. fold p.
    unfold bind, readFileSync, ret. destruct p; [contradiction|]. now rewrite Hc. }
  split.
  - unfold checkChecksum, readStream. cbv zeta. fold p.
    unfold bind, readFileSync. destruct p; [contradiction|]. now rewrite Habs.
  - intros chunks Hreply w'.
    pose proof (startDownload_fresh dl w 200 chunks true Hready Habs Hreply eq_refl)
      as Hrun.
    assert (Hsne : Path.segments p <> []).
    { destruct (cacheReady_segments dl w Hready) as [Hs _]. cbv zeta in Hs.
      fold p in Hs. rewrite Hs. intros E. apply app_eq_nil in E.
      destruct E as [_ E]. discriminate. }
    unfold w'. rewrite Hrun. cbn [fst snd].
    split; [reflexivity|].
    apply (Hcheck _ (Raw (Str.join "" chunks))).
    cbn [fs]. now apply fs_lookup_put_same.
Qed.

End CacheExtras.

Lemma cacheReady_scenario (h : Request -> Reply) :
  cacheReady Scenario.downloader
    (mkWorld CacheScenario.cacheFs Scenario.counterUuids 0 h []).
Proof.
  split; [discriminate|]. split; [reflexivity|]. repeat split; discriminate.
Qed.

Lemma clean_empties_the_cache_path_witness :
  Path.segments (getCacheFsPath Scenario.downloader) <> []
  /\ exists_in (fs (Scenario.online 200 Scenario.partialFs))
       (getCacheFsPath Scenario.downloader) = true
  /\ exists_in (fs (snd (clean Scenario.downloader
                           (Scenario.online 200 Scenario.partialFs))))
       (getCacheFsPath Scenario.downloader) = false.
Proof.
  assert (H : Path.segments (getCacheFsPath Scenario.downloader) <> [])
    by discriminate.
  split; [exact H|]. split; [reflexivity|].
  destruct (clean_empties_the_cache_path Scenario.downloader
              (Scenario.online 200 Scenario.partialFs)) as [_ [_ Hc]].
  exact (proj1 (Hc H)).
Defined.

Lemma interrupted_download_resumes_witness :
  cacheReady Scenario.downloader CacheScenario.flaky
  /\ fs_lookup
       (fs (snd (startDownload 4096 (fun _ => "") Scenario.downloader
                   (snd (startDownload 4096 (fun _ => "") Scenario.downloader
                           CacheScenario.flaky)))))
       ["images"; "cache"; "pc_all_arm.zip"]
     = Some (File (Raw "PK123456")).
Proof.
  assert (H1 : cacheReady Scenario.downloader CacheScenario.flaky)
    by exact (cacheReady_scenario CacheScenario.flakyServer).
  split; [exact H1|].
  destruct (interrupted_download_resumes 4096 (fun _ => "") Scenario.downloader
              CacheScenario.flaky ["PK"; "12"] ["34"; "56"] H1 eq_refl)
    as [_ [_ [_ [H _]]]].
  - discriminate.
  - reflexivity.
  - reflexivity.
  - exact H.
Defined.

Lemma download_then_checksum_witness :
  cacheReady Scenario.downloader (Scenario.online 200 CacheScenario.cacheFs)
  /\ fst (checkChecksum (fun _ => "0a1b2c") (fun _ => "") Scenario.downloader
            (snd (startDownload 4096 (fun _ => "") Scenario.downloader
                    (Scenario.online 200 CacheScenario.cacheFs))))
     = Return true.
Proof.
  assert (H1 : cacheReady Scenario.downloader
                 (Scenario.online 200 CacheScenario.cacheFs))
    by exact (cacheReady_scenario (Scenario.server 200)).
  split; [exact H1|].
  destruct (download_then_checksum 4096 (fun _ => "") (fun _ => "0a1b2c")
              Scenario.downloader (Scenario.online 200 CacheScenario.cacheFs)
              H1 eq_refl) as [_ H].
  destruct (H ["34"; "56"] eq_refl) as [_ Hc].
  now rewrite Hc.
Defined.

(** ** The images of the manager and the registry *)

Lemma render_nonempty (segs : list string) : Path.render segs <> "".
Proof. unfold Path.render. discriminate. Qed.

Lemma resolve_render (p : string) :
  Path.resolve p "" = Path.render (Path.segments p)
  /\ Path.segments (Path.resolve p "") = Path.segments p.
Proof.
  split; [|apply segments_resolve_self].
  unfold Path.resolve. simpl (Str.starts_with_sep ""). cbv iota.
  f_equal. rewrite segments_slash.
  change (Str.split "/" "") with [""].
  change (Path.normalize_segments false ?a [""]) with (List.rev a).
  apply rev_involutive.
Qed.

(** Resolving plain pieces one after the other appends them. *)
Lemma resolveAll_plain (base : string) (pieces : list string) :
  Forall plainSegment pieces ->
  resolveAll base pieces = Path.render (Path.segments base ++ pieces).
Proof.
  intros HF. unfold resolveAll.
  destruct (resolve_render base) as [Hr Hs].
  assert (Hgen : forall acc segs,
            acc = Path.render segs -> Forall plainSegment segs ->
            fold_left Path.resolve pieces acc = Path.render (segs ++ pieces)).
  { induction HF as [|c pieces Hc HF IH]; intros acc segs Hacc Hsegs; simpl.
    - now rewrite app_nil_r.
    - destruct (resolve_child acc c Hc) as [Hrc _].
      rewrite (IH (Path.resolve acc c) (segs ++ [c])%list).
      + now rewrite <- app_assoc.
      + rewrite Hrc, Hacc. now rewrite segments_render.
      + apply Forall_app. split; [assumption|now constructor]. }
  apply Hgen; [exact Hr|apply segments_plain].
Qed.

Lemma starts_with_sep_plain (c rest : string) :
  plainSegment c -> Str.starts_with_sep (c ++ rest) = false.
Proof.
  intros [Hne [_ [_ Hm]]]. destruct c as [|a c]; [contradiction|].
  simpl in Hm. apply orb_false_iff in Hm. destruct Hm as [Ha _].
  simpl. destruct a as [[] [] [] [] [] [] [] []]; try reflexivity; discriminate.
Qed.

(** The directory of an image, as [buildList] writes it, leads where the
    pieces lead. *)
Lemma resolve_imageDir (base : string) (pieces : list string) :
  pieces <> [] -> Forall plainSegment pieces ->
  Path.resolve base (Str.join Path.sep pieces ++ Path.sep)
  = Path.render (Path.segments base ++ pieces).
Proof.
  intros Hne HF. unfold Path.resolve.
  assert (Hstart : Str.starts_with_sep (Str.join Path.sep pieces ++ Path.sep) = false).
  { destruct pieces as [|c rest]; [contradiction|].
    inversion HF as [|? ? Hc _]; subst.
    destruct rest as [|c' rest'].
    - simpl (Str.join _ _). now apply starts_with_sep_plain.
    - change (Str.join Path.sep (c :: c' :: rest'))
        with (c ++ Path.sep ++ Str.join Path.sep (c' :: rest')).
      rewrite append_assoc. now apply starts_with_sep_plain. }
  rewrite Hstart. f_equal. rewrite segments_slash.
  change (Str.join Path.sep pieces ++ Path.sep)
    with (Str.join "/" pieces ++ String "/" "").
  rewrite split_app, split_join; [|assumption|].
  - rewrite normalize_segments_app.
    rewrite (normalize_segments_plain false _ pieces) by assumption.
    change (Path.normalize_segments false ?a (Str.split "/" "")) with (List.rev a).
    now rewrite !rev_involutive.
  - eapply Forall_impl; [|exact HF]. now intros a [_ [_ [_ Ha]]].
Qed.

Lemma existsSync_at (p : string) (w : World) :
  p <> "" ->
  existsSync p w = (Return (defined (fs_lookup (fs w) (Path.segments p))), w).
Proof. intros Hp. unfold existsSync, exists_in. now destruct p. Qed.

Lemma statSync_at (p : string) (w : World) (n : node) :
  p <> "" -> fs_lookup (fs w) (Path.segments p) = Some n ->
  statSync p w = (Return n, w).
Proof. intros Hp Hn. unfold statSync. destruct p; [contradiction|]. now rewrite Hn. Qed.

Lemma readFileSync_at (p : string) (w : World) (c : content) :
  p <> "" -> fs_lookup (fs w) (Path.segments p) = Some (File c) ->
  readFileSync p w = (Return c, w).
Proof.
  intros Hp Hn. unfold readFileSync. destruct p; [contradiction|]. now rewrite Hn.
Qed.

Section ImagesAndRegistry.

Context {JN : JSNumber}.

Lemma buildList_imageDir (d : DeviceImpl) :
  cachedList d = None ->
  FullDeployedImageOptions.imageDir (buildList d)
  = Str.join Path.sep (Str.split "," (Image.getPath (image d))) ++ Path.sep.
Proof.
  intros H. unfold buildList. rewrite H. cbv zeta.
  destruct (screen (options d)) as [s|p]; [reflexivity|].
  destruct (ProductConfigItem.devModel (getProductConfig p)) as [m|];
    [destruct (Str.truthy m)|];
    destruct (Str.truthy (ProductConfigItem.name (getProductConfig p)));
    reflexivity.
Qed.

(** X16. For an item of the list of images whose path is made of plain
    pieces, [getImages] resolves the directory [imageBasePath/p1/.../pn],
    changes nothing, and makes the image local exactly when that
    directory exists. The record [buildList] makes for a device of that
    image names the same directory: it passes the test by which
    [getDevices] tells the records of an image from the others. *)
Theorem image_directory_is_consistent (o : ManagerOptions.t) (r : ImageResponse.t)
    (w : World) :
  Forall plainSegment (Str.split "," (ImageResponse.path r)) ->
  let segs :=
    (Path.segments (ManagerOptions.imageBasePath o)
       ++ Str.split "," (ImageResponse.path r))%list in
  let i := Image.mk r o (Path.render segs) in
  exists kind,
    imageOfResponse o r w = (Return (kind, i), w)
    /\ (kind = LocalImage <-> fs_lookup (fs w) segs = Some Dir)
    /\ forall d, image d = i -> cachedList d = None ->
         Path.resolve (ManagerOptions.imageBasePath (Image.imageManager i))
           (FullDeployedImageOptions.imageDir (buildList d))
         = Image.getFsPath i.
Proof.
  intros HF segs i.
  assert (Hguard : forall d, image d = i -> cachedList d = None ->
            Path.resolve (ManagerOptions.imageBasePath (Image.imageManager i))
              (FullDeployedImageOptions.imageDir (buildList d))
            = Image.getFsPath i).
  { intros d Hi Hc. rewrite (buildList_imageDir d Hc), Hi.
    apply resolve_imageDir; [apply split_nonempty|exact HF]. }
  assert (Hplain : Forall plainSegment segs).
  { apply Forall_app. split; [apply segments_plain|exact HF]. }
  unfold imageOfResponse. cbv zeta.
  rewrite (resolveAll_plain _ _ HF). fold segs. fold i.
  pose proof (render_nonempty segs) as Hne.
  rewrite (bind_return _ _ w w (defined (fs_lookup (fs w) segs)))
    by (rewrite (existsSync_at _ _ Hne); now rewrite segments_render).
  destruct (fs_lookup (fs w) segs) as [n|] eqn:El; simpl (defined _); cbv iota.
  - rewrite (bind_return _ _ w w (isDirectory n)).
    + destruct n as [c|]; simpl (isDirectory _); cbv iota.
      * exists RemoteImage. split; [reflexivity|].
        split; [split; discriminate|exact Hguard].
      * exists LocalImage. split; [reflexivity|].
        split; [split; reflexivity|exact Hguard].
    + rewrite (bind_return _ _ w w n); [reflexivity|].
      apply statSync_at; [exact Hne|]. now rewrite segments_render.
  - rewrite (bind_return _ _ w w false) by reflexivity.
    exists RemoteImage. split; [reflexivity|].
    split; [split; discriminate|exact Hguard].
Qed.

End ImagesAndRegistry.

Lemma image_directory_is_consistent_witness :
  Forall plainSegment (Str.split "," (ImageResponse.path (Image.response Scenario.image)))
  /\ fst (imageOfResponse Scenario.managerOptions (Image.response Scenario.image)
            (Scenario.world Scenario.freshFs))
     = Return (RemoteImage, Scenario.image)
  /\ Path.resolve (ManagerOptions.imageBasePath Scenario.managerOptions)
       (FullDeployedImageOptions.imageDir (buildList Scenario.fold))
     = Image.getFsPath Scenario.image.
Proof.
  assert (H : Forall plainSegment
                (Str.split "," (ImageResponse.path (Image.response Scenario.image)))).
  { vm_compute. repeat constructor; discriminate. }
  split; [exact H|].
  destruct (image_directory_is_consistent (JN := WholeNumber.whole)
              Scenario.managerOptions (Image.response Scenario.image)
              (Scenario.world Scenario.freshFs) H) as [kind [Hrun [_ Hg]]].
  split; [reflexivity|].
  exact (Hg Scenario.fold eq_refl eq_refl).
Defined.

Section DeployThenList.

Context {JN : JSNumber}.

Variable INI_parse : content -> IniObject.
Variable default_product_config : ProductConfig.
Variable parseProductConfig : content -> exn + ProductConfig.

(** A record of the image whose files are in place yields a device. *)
Lemma deviceOfItem_found (i : Image.t) (item : FullDeployedImageOptions.t)
    (w w' : World) (found : option DeviceImpl) (c : content) :
  deviceOfItem INI_parse default_product_config parseProductConfig i item w
    = (Return found, w') ->
  Path.resolve (ManagerOptions.imageBasePath (Image.imageManager i))
    (FullDeployedImageOptions.imageDir item) = Image.getFsPath i ->
  fs_lookup (fs w)
    (Path.segments (Path.resolve (FullDeployedImageOptions.path item) "config.ini"))
    = Some (File c) ->
  FullDeployedImageOptions.path item <> "" ->
  fs_lookup (fs w) (Path.segments (FullDeployedImageOptions.path item)) = Some Dir ->
  exists dev, found = Some dev /\ cachedIni dev = Some (INI_parse c).
Proof.
  intros H Hg Hc Hne Hdir. unfold deviceOfItem in H. cbv zeta in H.
  rewrite Hg, String.eqb_refl in H. simpl (negb _) in H. cbv iota in H.
  set (iniPath := Path.resolve (FullDeployedImageOptions.path item) "config.ini") in *.
  assert (Hine : iniPath <> "").
  { unfold iniPath.
    destruct (resolve_nonempty (FullDeployedImageOptions.path item) "config.ini")
      as [s ->]. discriminate. }
  rewrite (bind_return _ _ w w true) in H
    by (rewrite (existsSync_at _ _ Hine); now rewrite Hc).
  simpl (negb _) in H. cbv iota in H.
  rewrite (bind_return _ _ w w (File c)) in H by now apply statSync_at.
  simpl (negb _) in H. cbv iota in H.
  apply bind_inv in H. destruct H as [s [w1 [H2 H]]].
  pose proof (reads_inv _ _ _ _ (createScreenLike_reads _ _ _ _) H2) as ->.
  apply bind_inv in H. destruct H as [dev0 [w1 [H3 H]]].
  assert (Hfs : fs w1 = fs w).
  { pose proof (createDevice_keeps i
                  {| name := FullDeployedImageOptions.name item;
                     cpuNumber := Number (FullDeployedImageOptions.cpuNumber item);
                     diskSize := Number (FullDeployedImageOptions.dataDiskSize item);
                     memorySize := Number (FullDeployedImageOptions.memoryRamSize item);
                     screen := s |} w) as Hk.
    now rewrite H3 in Hk. }
  rewrite (bind_return _ _ w1 w1 c) in H
    by (apply readFileSync_at; [exact Hine|now rewrite Hfs]).
  rewrite (bind_return _ _ w1 w1 true) in H
    by (rewrite (existsSync_at _ _ Hne); now rewrite Hfs, Hdir).
  simpl (negb _) in H. cbv iota in H.
  rewrite (bind_return _ _ w1 w1 Dir) in H
    by (apply statSync_at; [exact Hne|now rewrite Hfs]).
  simpl (negb _) in H. cbv iota in H.
  unfold ret in H. injection H as <- _.
  eexists. split; reflexivity.
Qed.

Lemma collectDevices_complete (i : Image.t) (items : list FullDeployedImageOptions.t)
    (w w' : World) (devices : list DeviceImpl) (item : FullDeployedImageOptions.t)
    (c : content) :
  collectDevices INI_parse default_product_config parseProductConfig i items w
    = (Return devices, w') ->
  In item items ->
  Path.resolve (ManagerOptions.imageBasePath (Image.imageManager i))
    (FullDeployedImageOptions.imageDir item) = Image.getFsPath i ->
  fs_lookup (fs w)
    (Path.segments (Path.resolve (FullDeployedImageOptions.path item) "config.ini"))
    = Some (File c) ->
  FullDeployedImageOptions.path item <> "" ->
  fs_lookup (fs w) (Path.segments (FullDeployedImageOptions.path item)) = Some Dir ->
  exists dev,
    In dev devices /\ readBack INI_parse i (fs w) item dev
    /\ cachedIni dev = Some (INI_parse c).
Proof.
  revert w devices.
  induction items as [|x items IH]; intros w devices H Hin Hg Hc Hne Hdir;
    [contradiction|].
  simpl in H. apply bind_inv in H. destruct H as [found [w1 [H1 H]]].
  apply bind_inv in H. destruct H as [rest [w2 [H2 H]]].
  unfold ret in H. injection H as <- <-.
  pose proof (deviceOfItem_keeps INI_parse default_product_config parseProductConfig
                i x w) as Hk.
  rewrite H1 in Hk. simpl in Hk.
  destruct Hin as [->|Hin].
  - destruct (deviceOfItem_found i item w w1 found c H1 Hg Hc Hne Hdir)
      as [dev [-> Hini]].
    exists dev. split; [now left|]. split; [|exact Hini].
    exact (deviceOfItem_some INI_parse default_product_config parseProductConfig
             i item w w1 dev H1).
  - rewrite <- Hk in Hc, Hdir.
    destruct (IH w1 rest H2 Hin Hg Hc Hne Hdir) as [dev [Hd [Hb Hini]]].
    exists dev. split; [|split; [now rewrite <- Hk|exact Hini]].
    destruct found; [now right|exact Hd].
Qed.

(** X17. What was deployed is listed. After a deployment that went all
    the way, for a device whose record names the directory of its image,
    every list that [getDevices] of that image returns holds a device
    read back from the record of the deployed device: it carries that
    record, the name and the uuid, and its mapping is what the reader
    makes of the text of [toIniString]. *)
Theorem deployed_device_is_listed (d : DeviceImpl) (w : World)
    (lists : list FullDeployedImageOptions.t) (devices : list DeviceImpl) :
  deployable d w lists ->
  Path.resolve (ManagerOptions.imageBasePath (Image.imageManager (image d)))
    (FullDeployedImageOptions.imageDir (buildList d)) = Image.getFsPath (image d) ->
  let w' := snd (deploy d w) in
  fst (getDevices INI_parse default_product_config parseProductConfig (image d) w')
    = Return devices ->
  exists dev,
    In dev devices
    /\ buildList dev = buildList d
    /\ name (options dev) = name (options d)
    /\ uuid dev = FullDeployedImageOptions.uuid (buildList d)
    /\ forall opts, buildIni dev opts = INI_parse (Raw (toIniString d)).
Proof.
  intros Hdep Hg w' Hr. unfold w' in Hr.
  rewrite (deploy_run d w lists Hdep) in Hr. simpl (snd _) in Hr.
  set (w1 := with_fs w (deployedFs d lists (fs w))) in *.
  destruct (deployedFs_lookup d w lists Hdep) as [Hreg [Htar [Hcfg _]]].
  destruct (deployed_state d w lists Hdep) as [Hj _]. fold w1 in Hj.
  pose proof Hdep as [_ [_ [_ [_ [Hname [Htp _]]]]]].
  destruct (getDevices INI_parse default_product_config parseProductConfig (image d) w1)
    as [r w2] eqn:Er.
  simpl in Hr. subst r.
  unfold getDevices in Er. cbv zeta in Er.
  set (p := Path.resolve
              (ManagerOptions.deployedPath (Image.imageManager (image d)))
              "lists.json") in *.
  destruct (resolve_child (ManagerOptions.deployedPath (Image.imageManager (image d)))
              "lists.json" plain_lists_json) as [_ Hps]. fold p in Hps.
  assert (Hpne : p <> "").
  { unfold p.
    destruct (resolve_nonempty
                (ManagerOptions.deployedPath (Image.imageManager (image d)))
                "lists.json") as [s ->]. discriminate. }
  assert (Hl : fs_lookup (fs w1) (Path.segments p)
               = Some (File (JsonText (JArray (lists ++ [buildList d]))))).
  { pose proof (listsPath_segments d) as Hls. unfold deployedPathOf in Hls.
    rewrite Hps, <- Hls. exact (proj2 Hj). }
  rewrite (bind_return _ _ w1 w1 true) in Er
    by (rewrite (existsSync_at _ _ Hpne); now rewrite Hl).
  simpl (negb _) in Er. cbv iota in Er.
  rewrite (bind_return _ _ w1 w1 (File (JsonText (JArray (lists ++ [buildList d])))))
    in Er by now apply statSync_at.
  simpl (negb _) in Er. cbv iota in Er.
  rewrite (bind_return _ _ w1 w1 (JsonText (JArray (lists ++ [buildList d])))) in Er
    by now apply readFileSync_at.
  rewrite (bind_return _ _ w1 w1 (JArray (lists ++ [buildList d]))) in Er
    by reflexivity.
  cbv iota in Er.
  destruct (resolve_child (FullDeployedImageOptions.path (buildList d)) "config.ini"
              plain_config_ini) as [_ Hcs].
  destruct (collectDevices_complete (image d) (lists ++ [buildList d]) w1 w2 devices
              (buildList d) (Raw (toIniString d)) Er)
    as [dev [Hin [Hb Hini]]].
  - apply in_or_app. right. now left.
  - exact Hg.
  - rewrite Hcs. exact Hcfg.
  - exact Htp.
  - exact Htar.
  - destruct Hb as [_ [Hcl [Hn [Hu _]]]].
    exists dev. split; [exact Hin|].
    split; [unfold buildList at 1; now rewrite Hcl|].
    split; [now rewrite Hn, Hname|]. split; [exact Hu|].
    intros opts. unfold buildIni. now rewrite Hini.
Qed.

End DeployThenList.

Lemma deployed_device_is_listed_witness :
  deployable Scenario.fold (Scenario.world (Scenario.registryFs (JArray []))) []
  /\ exists dev,
       fst (getDevices (JN := WholeNumber.whole) Scenario.noIniReader []
              Scenario.noProductConfig Scenario.image Scenario.deployedWorld)
         = Return [dev]
       /\ buildList dev = buildList Scenario.fold.
Proof.
  split; [exact fold_deployable|].
  eexists. split; [reflexivity|].
  destruct (deployed_device_is_listed (JN := WholeNumber.whole)
              Scenario.noIniReader [] Scenario.noProductConfig
              Scenario.fold (Scenario.world (Scenario.registryFs (JArray []))) []
              _ fold_deployable eq_refl eq_refl)
    as [dev [[<-|[]] [Hb _]]].
  exact Hb.
Defined.

(** ** What the registry operations never do *)

Lemma removesNothing_bind {A B : Type} (m : M A) (k : A -> M B) :
  removesNothing m -> (forall a, removesNothing (k a)) -> removesNothing (bind m k).
Proof.
  intros Hm Hk w q Hq. unfold bind. specialize (Hm w q Hq).
  destruct (m w) as [[a|e] w1]; simpl in Hm; [|exact Hm].
  now apply Hk.
Qed.

Lemma keepsNodesExcept_bind {A B : Type} (ps : list (list string)) (m : M A)
    (k : A -> M B) :
  keepsNodesExcept ps m -> (forall a, keepsNodesExcept ps (k a)) ->
  keepsNodesExcept ps (bind m k).
Proof.
  intros Hm Hk w q n Hin Hq. unfold bind. specialize (Hm w q n Hin Hq).
  destruct (m w) as [[a|e] w1]; simpl in Hm; [|exact Hm].
  now apply Hk.
Qed.

Lemma createsNothing_bind {A B : Type} (m : M A) (k : A -> M B) :
  createsNothing m -> (forall a, createsNothing (k a)) -> createsNothing (bind m k).
Proof.
  intros Hm Hk w q Hq. unfold bind. specialize (Hm w q Hq).
  destruct (m w) as [[a|e] w1]; simpl in Hm; [|exact Hm].
  now apply Hk.
Qed.

Lemma keepsFiles_effects {A : Type} (m : M A) (ps : list (list string)) :
  keepsFiles m -> removesNothing m /\ keepsNodesExcept ps m /\ createsNothing m.
Proof.
  intros H. repeat split.
  - intros w q Hq. now rewrite H.
  - intros w q n _ Hq. now rewrite H.
  - intros w q Hq. now rewrite H.
Qed.

(** What a write leaves behind: the files as they were, or the one file
    put in its place. *)
Lemma writeFileSync_effect (p : string) (c : content) (w : World) :
  fs (snd (writeFileSync p c w)) = fs w
  \/ (Path.segments p <> []
      /\ fs (snd (writeFileSync p c w)) = fs_put (Path.segments p) (File c) (fs w)).
Proof.
  unfold writeFileSync, lift_fs, fs_write.
  destruct p as [|a p]; [now left|].
  destruct (Path.segments (String a p)) as [|s ss] eqn:Es; [now left|].
  destruct (fs_lookup (fs w) (removelast (s :: ss))) as [[?|]|]; try (now left).
  destruct (fs_lookup (fs w) (s :: ss)) as [[?|]|]; try (now left);
    right; (split; [discriminate|reflexivity]).
Qed.

Lemma writeFileSync_removes_nothing (p : string) (c : content) :
  removesNothing (writeFileSync p c).
Proof.
  intros w q Hq. destruct (writeFileSync_effect p c w) as [->|[Hne ->]];
    [exact Hq|].
  rewrite fs_lookup_put by assumption.
  destruct (segments_eqb q (Path.segments p)); [discriminate|exact Hq].
Qed.

Lemma writeFileSync_keeps_others (p : string) (c : content) (ps : list (list string)) :
  In (Path.segments p) ps -> keepsNodesExcept ps (writeFileSync p c).
Proof.
  intros Hin w q n Hq Hl. destruct (writeFileSync_effect p c w) as [->|[Hne ->]];
    [exact Hl|].
  rewrite fs_lookup_put_other; [exact Hl|exact Hne|].
  intros E. apply Hq. now rewrite E.
Qed.

Lemma mkdirp_keeps (rest : list string) (f f' : FS) (done : list string) :
  mkdirp f done rest = inr f' ->
  forall q n, fs_lookup f q = Some n -> fs_lookup f' q = Some n.
Proof.
  revert f done. induction rest as [|s rest IH]; intros f done H q n Hq.
  - simpl in H. now injection H as <-.
  - simpl in H.
    destruct (fs_lookup f (done ++ [s])) as [[c|]|] eqn:E; [discriminate| |].
    + now apply (IH f (done ++ [s])%list).
    + apply (IH _ _ H). rewrite fs_lookup_put_other; [exact Hq| |].
      * intros E0. apply app_eq_nil in E0. destruct E0 as [_ E0]. discriminate.
      * intros ->. congruence.
Qed.

Lemma mkdirSync_keeps (p : string) (w : World) (q : list string) (n : node) :
  fs_lookup (fs w) q = Some n ->
  fs_lookup (fs (snd (mkdirSync_recursive p w))) q = Some n.
Proof.
  intros Hq. unfold mkdirSync_recursive, lift_fs.
  destruct p as [|a p]; [exact Hq|].
  destruct (mkdirp (fs w) [] (Path.segments (String a p))) as [e|f'] eqn:E;
    [exact Hq|].
  simpl. now apply (mkdirp_keeps _ _ _ _ E).
Qed.

Lemma mkdirSync_effects (p : string) (ps : list (list string)) :
  removesNothing (mkdirSync_recursive p) /\ keepsNodesExcept ps (mkdirSync_recursive p).
Proof.
  split.
  - intros w q Hq. destruct (fs_lookup (fs w) q) as [n|] eqn:E; [|contradiction].
    rewrite (mkdirSync_keeps p w q n E). discriminate.
  - intros w q n _ Hq. now apply mkdirSync_keeps.
Qed.

Lemma rmSync_creates_nothing (p : string) (recursive force : bool) :
  createsNothing (rmSync p recursive force).
Proof.
  intros w q Hq. unfold rmSync, lift_fs.
  assert (Hrm : fs_lookup (fs_remove_tree (Path.segments p) (fs w)) q = None).
  { destruct q as [|a q]; [discriminate|]. simpl in *. unfold fs_remove_tree.
    destruct (is_prefix (Path.segments p) (a :: q)); [reflexivity|exact Hq]. }
  destruct (match p with "" => None | _ => fs_lookup (fs w) (Path.segments p) end)
    as [[c|]|].
  - exact Hrm.
  - destruct recursive; [exact Hrm|exact Hq].
  - destruct force; exact Hq.
Qed.

Section RegistrySafety.

Context {JN : JSNumber}.

(** X18. Whatever [deploy] does and however it ends, it takes nothing
    away: every path that existed still exists, and every node other than
    the registry file and the [config.ini] of the device is what it
    was. *)
Theorem deploy_removes_nothing (d : DeviceImpl) (w : World) :
  let w' := snd (deploy d w) in
  let registry := Path.segments (listsPathOf d) in
  let config :=
    Path.segments (Path.join (FullDeployedImageOptions.path (buildList d)) "config.ini") in
  (forall q, fs_lookup (fs w) q <> None -> fs_lookup (fs w') q <> None)
  /\ (forall q n, q <> registry -> q <> config ->
        fs_lookup (fs w) q = Some n -> fs_lookup (fs w') q = Some n).
Proof.
  intros w' registry config.
  set (ps := [registry; config]).
  assert (Hreads : forall (A : Type) (m : M A),
            readsOnly m -> removesNothing m /\ keepsNodesExcept ps m).
  { intros A m Hm.
    destruct (keepsFiles_effects m ps (keepsFiles_reads m Hm)) as [H1 [H2 _]].
    now split. }
  assert (Hret : forall (A : Type) (a : A),
            removesNothing (ret a) /\ keepsNodesExcept ps (ret a))
    by (intros A a; apply Hreads, readsOnly_ret).
  assert (Hthrow : forall (A : Type) (e : exn),
            removesNothing (@throw A e) /\ keepsNodesExcept ps (@throw A e))
    by (intros A e; apply Hreads, readsOnly_throw).
  assert (Hbind : forall (A B : Type) (m : M A) (k : A -> M B),
            removesNothing m /\ keepsNodesExcept ps m ->
            (forall a, removesNothing (k a) /\ keepsNodesExcept ps (k a)) ->
            removesNothing (bind m k) /\ keepsNodesExcept ps (bind m k)).
  { intros A B m k [H1 H2] Hk. split.
    - apply removesNothing_bind; [exact H1|]. intros a. apply Hk.
    - apply keepsNodesExcept_bind; [exact H2|]. intros a. apply Hk. }
  assert (Hwrite_registry : forall c,
            removesNothing (writeFileSync (listsPathOf d) c)
            /\ keepsNodesExcept ps (writeFileSync (listsPathOf d) c)).
  { intros c. split; [apply writeFileSync_removes_nothing|].
    apply writeFileSync_keeps_others. now left. }
  assert (Hwrite_config : forall c,
            removesNothing
              (writeFileSync
                 (Path.join (FullDeployedImageOptions.path (buildList d)) "config.ini") c)
            /\ keepsNodesExcept ps
                 (writeFileSync
                    (Path.join (FullDeployedImageOptions.path (buildList d))
                       "config.ini") c)).
  { intros c. split; [apply writeFileSync_removes_nothing|].
    apply writeFileSync_keeps_others. right. now left. }
  assert (H : removesNothing (deploy d) /\ keepsNodesExcept ps (deploy d)).
  { unfold deploy. cbv zeta.
    apply Hbind; [apply Hreads; intros w0; apply isDeployed_reads|]. intros deployed.
    destruct deployed; [apply Hret|].
    apply Hbind; [apply Hreads, readsOnly_existsSync|]. intros present.
    apply Hbind.
    { unfold when. destruct (negb present); [apply mkdirSync_effects|apply Hret]. }
    intros _.
    apply Hbind; [apply Hreads, readsOnly_existsSync|]. intros targetPresent.
    destruct targetPresent; [apply Hthrow|].
    change (Path.join (deployedPathOf d) "lists.json") with (listsPathOf d).
    apply Hbind; [apply Hreads, readsOnly_existsSync|]. intros listsPresent.
    destruct (negb listsPresent); [apply Hwrite_registry|].
    apply Hbind; [apply Hreads, readsOnly_readFileSync|]. intros text.
    apply Hbind; [apply Hreads, readsOnly_JSON_parse|]. intros parsed.
    destruct (orEmptyArray parsed) as [|lists|]; try apply Hthrow.
    destruct (find _ lists); [apply Hthrow|].
    apply Hbind; [apply Hwrite_registry|]. intros _.
    apply Hbind; [apply mkdirSync_effects|]. intros _.
    apply Hwrite_config. }
  destruct H as [H1 H2]. split.
  - intros q Hq. now apply H1.
  - intros q n Hr Hc Hq. apply H2; [|exact Hq].
    intros [E|[E|[]]]; congruence.
Qed.

(** What [delete] does, by what is at the path of the registry file. *)
Lemma delete_cases (d : DeviceImpl) (w : World) :
  delete d w
  = match fs_lookup (fs w) (Path.segments (listsPathOf d)) with
    | None => (Throw (PlainError "Lists file not found"), w)
    | Some Dir => (Throw (PlainError "Lists file not found"), w)
    | Some (File (Raw _)) => (Throw SyntaxError, w)
    | Some (File (JsonText j)) =>
        match orEmptyArray j with
        | JArray lists =>
            match spliceFirst
                    (fun item => FullDeployedImageOptions.name item =? name (options d))
                    lists with
            | None =>
                (Throw (PlainError ("Device " ++ name (options d) ++ " not found")), w)
            | Some rest =>
                bind (writeFileSync (listsPathOf d) (JSON_stringify rest))
                  (fun _ =>
                     rmSync (Path.resolve (FullDeployedImageOptions.path (buildList d)) "")
                       true false) w
            end
        | _ => (Throw (TypeError "lists.findIndex is not a function"), w)
        end
    end.
Proof.
  unfold delete. cbv zeta.
  pose proof (listsPath_nonempty d) as Hne.
  unfold bind at 1. rewrite (existsSync_at _ _ Hne).
  destruct (fs_lookup (fs w) (Path.segments (listsPathOf d))) as [n|] eqn:El;
    [|reflexivity].
  simpl (negb _). cbv beta iota.
  unfold bind at 1. rewrite (statSync_at _ _ n Hne El).
  destruct n as [c|]; [|reflexivity].
  simpl (negb _). cbv beta iota.
  unfold bind at 1. rewrite (readFileSync_at _ _ c Hne El).
  destruct c as [t|j]; [reflexivity|].
  unfold bind at 1. simpl (JSON_parse _). unfold ret at 1.
  destruct (orEmptyArray j) as [|lists|]; try reflexivity.
  destruct (spliceFirst _ lists); reflexivity.
Qed.

Lemma delete_creates_nothing (d : DeviceImpl) : createsNothing (delete d).
Proof.
  intros w q Hq. rewrite delete_cases.
  destruct (fs_lookup (fs w) (Path.segments (listsPathOf d))) as [[[t|j]|]|] eqn:El;
    try exact Hq.
  destruct (orEmptyArray j) as [|lists|]; try exact Hq.
  destruct (spliceFirst _ lists) as [rest|]; [|exact Hq].
  assert (Hw : fs_lookup (fs (snd (writeFileSync (listsPathOf d)
                                     (JSON_stringify rest) w))) q = None).
  { destruct (writeFileSync_effect (listsPathOf d) (JSON_stringify rest) w)
      as [->|[Hne ->]]; [exact Hq|].
    rewrite fs_lookup_put_other; [exact Hq|exact Hne|].
    intros ->. congruence. }
  unfold bind.
  destruct (writeFileSync (listsPathOf d) (JSON_stringify rest) w) as [[u|e] w1];
    simpl in Hw; [|exact Hw].
  now apply rmSync_creates_nothing.
Qed.

End RegistrySafety.

Lemma settled_creates_nothing (m : M unit) :
  createsNothing m -> createsNothing (settled m).
Proof.
  intros Hm w q Hq. specialize (Hm w q Hq). unfold settled.
  now destruct (m w) as [[u|e] w1].
Qed.

Lemma createsNothing_ret {A : Type} (a : A) : createsNothing (ret a).
Proof. intros w q Hq. exact Hq. Qed.

Lemma allSettled_creates_nothing (ms : list (M unit)) :
  Forall createsNothing ms -> createsNothing (allSettled ms).
Proof.
  induction 1 as [|m ms Hm _ IH]; simpl; [apply createsNothing_ret|].
  apply createsNothing_bind; [now apply settled_creates_nothing|]. intros r.
  apply createsNothing_bind; [exact IH|]. intros rs. apply createsNothing_ret.
Qed.

Lemma isDownloaded_run (i : Image.t) (w : World) :
  isDownloaded i w
  = (Return match (match Image.getFsPath i with
                   | EmptyString => None
                   | _ => fs_lookup (fs w) (Path.segments (Image.getFsPath i))
                   end) with
            | Some Dir => true
            | _ => false
            end, w).
Proof.
  unfold isDownloaded, bind, existsSync, exists_in, statSync, ret.
  destruct (Image.getFsPath i) as [|a p]; [reflexivity|].
  destruct (fs_lookup (fs w) (Path.segments (String a p))) as [[c|]|] eqn:E; simpl;
    try rewrite E; reflexivity.
Qed.

Section ImageDeletion.

Context {JN : JSNumber}.

Variable INI_parse : content -> IniObject.
Variable default_product_config : ProductConfig.
Variable parseProductConfig : content -> exn + ProductConfig.

(** X19. [LocalImageImpl.delete]. For an image that is not downloaded
    (its directory is missing or is a file) the call returns the error
    [Image path does not exist] as a value and changes nothing. For a
    downloaded image, however the call ends, it brings no new path, and
    nothing is left at or below the directory of the image. *)
Theorem imageDelete_removes_the_image (i : Image.t) (w : World) :
  let run := imageDelete INI_parse default_product_config parseProductConfig i w in
  let directory := Path.segments (Image.getFsPath i) in
  (fst (isDownloaded i w) = Return false ->
   run = (Return (Some (PlainError "Image path does not exist")), w))
  /\ (fst (isDownloaded i w) = Return true ->
      (forall q, fs_lookup (fs w) q = None -> fs_lookup (fs (snd run)) q = None)
      /\ (directory <> [] ->
          forall q, is_prefix directory q = true -> fs_lookup (fs (snd run)) q = None)).
Proof.
  intros run directory. rewrite isDownloaded_run. simpl (fst _).
  set (rest := devices <- getDevices INI_parse default_product_config
                            parseProductConfig i ;;
               results <- allSettled (map delete devices) ;;
               match find (fun result => defined result) results with
               | Some (Some reason) => ret (Some reason)
               | _ => ret None
               end).
  assert (Hrest : createsNothing rest).
  { apply createsNothing_bind.
    - apply (keepsFiles_effects _ []), getDevices_keeps.
    - intros devices. apply createsNothing_bind.
      + apply allSettled_creates_nothing. apply Forall_map.
        apply Forall_forall. intros dev _. apply delete_creates_nothing.
      + intros results. destruct (find _ results) as [[reason|]|];
          apply createsNothing_ret. }
  assert (Hrefused : forall b,
            isDownloaded i w = (Return b, w) -> b = false ->
            run = (Return (Some (PlainError "Image path does not exist")), w)).
  { intros b Hb ->. unfold run, imageDelete. cbv zeta.
    unfold isDownloaded in Hb. apply bind_inv in Hb.
    destruct Hb as [present [w0 [H1 H2]]].
    rewrite existsSync_run in H1. injection H1 as <- <-.
    rewrite (bind_return _ _ w w (exists_in (fs w) (Image.getFsPath i)))
      by apply existsSync_run.
    now rewrite (bind_return _ _ w w false) by exact H2. }
  assert (Hdeleted : forall b,
            isDownloaded i w = (Return b, w) -> b = true ->
            run = rest (with_fs w (fs_remove_tree directory (fs w)))
            /\ fs_lookup (fs w) directory = Some Dir).
  { intros b Hb ->. pose proof Hb as Hb'. rewrite isDownloaded_run in Hb'.
    injection Hb' as Hb'.
    destruct (Image.getFsPath i) as [|a p] eqn:Ep; [discriminate|].
    assert (Hne : String a p <> "") by discriminate.
    fold directory in Hb'.
    change (Path.segments (String a p)) with directory in Hb'.
    destruct (fs_lookup (fs w) directory) as [[c|]|] eqn:El; try discriminate.
    split; [|reflexivity].
    unfold run, imageDelete. cbv zeta. rewrite Ep.
    unfold isDownloaded in Hb. rewrite Ep in Hb. apply bind_inv in Hb.
    destruct Hb as [present [w0 [H1 H2]]].
    rewrite existsSync_run in H1. injection H1 as <- <-.
    rewrite (bind_return _ _ w w (exists_in (fs w) (String a p)))
      by apply existsSync_run.
    rewrite (bind_return _ _ w w true) by exact H2.
    simpl (negb _). cbv iota.
    now rewrite (bind_return _ _ w (with_fs w (fs_remove_tree directory (fs w))) tt)
      by exact (rmSync_run _ false w Dir Hne El). }
  pose proof (isDownloaded_run i w) as Hd.
  destruct (match (match Image.getFsPath i with
                   | EmptyString => None
                   | _ => fs_lookup (fs w) (Path.segments (Image.getFsPath i))
                   end) with
            | Some Dir => true
            | _ => false
            end) eqn:Eb.
  - split; [discriminate|]. intros _.
    destruct (Hdeleted true Hd eq_refl) as [-> Hdir].
    split.
    + intros q Hq. apply Hrest. simpl (fs _).
      destruct q as [|x q]; [discriminate|]. simpl in *. unfold fs_remove_tree.
      destruct (is_prefix directory (x :: q)); [reflexivity|exact Hq].
    + intros Hne q Hq. apply Hrest. simpl (fs _).
      rewrite fs_lookup_remove_tree by assumption. now rewrite Hq.
  - split; [|discriminate]. intros _. exact (Hrefused false Hd eq_refl).
Qed.

End ImageDeletion.

Section RegistrySafetyOfDelete.

Context {JN : JSNumber}.

(** X20. Whatever [delete] does and however it ends, it brings no new
    path, and every node other than the registry file and what is at or
    below the target of the device is what it was. *)
Theorem delete_touches_registry_and_target_only (d : DeviceImpl) (w : World) :
  let w' := snd (delete d w) in
  let registry := Path.segments (listsPathOf d) in
  let target := Path.segments (FullDeployedImageOptions.path (buildList d)) in
  (forall q, fs_lookup (fs w) q = None -> fs_lookup (fs w') q = None)
  /\ (forall q n, q <> registry -> is_prefix target q = false ->
        fs_lookup (fs w) q = Some n -> fs_lookup (fs w') q = Some n).
Proof.
  intros w' registry target. split.
  - intros q Hq. now apply delete_creates_nothing.
  - intros q n Hr Ht Hq. unfold w'. rewrite delete_cases. fold registry.
    destruct (fs_lookup (fs w) registry) as [[[t|j]|]|] eqn:El; try exact Hq.
    destruct (orEmptyArray j) as [|lists|]; try exact Hq.
    destruct (spliceFirst _ lists) as [rest|]; [|exact Hq].
    assert (Hw : fs_lookup (fs (snd (writeFileSync (listsPathOf d)
                                       (JSON_stringify rest) w))) q = Some n).
    { destruct (writeFileSync_effect (listsPathOf d) (JSON_stringify rest) w)
        as [->|[Hne ->]]; [exact Hq|].
      now rewrite fs_lookup_put_other. }
    unfold bind.
    destruct (writeFileSync (listsPathOf d) (JSON_stringify rest) w) as [[u|e] w1];
      simpl in Hw; [|exact Hw].
    unfold rmSync, lift_fs.
    destruct (resolve_nonempty (FullDeployedImageOptions.path (buildList d)) "")
      as [s Es].
    rewrite Es. rewrite <- Es. rewrite segments_resolve_self. fold target.
    assert (Hrm : fs_lookup (fs_remove_tree target (fs w1)) q = Some n).
    { destruct q as [|x q]; [exact Hw|]. simpl in *. unfold fs_remove_tree.
      now rewrite Ht. }
    destruct (fs_lookup (fs w1) target) as [[c|]|]; simpl; assumption.
Qed.

End RegistrySafetyOfDelete.

Lemma deploy_removes_nothing_witness :
  fs_lookup (fs (Scenario.world Scenario.freshFs)) ["deployed"] = Some Dir
  /\ fs_lookup (fs (snd (deploy Scenario.fold (Scenario.world Scenario.freshFs))))
       ["deployed"] = Some Dir.
Proof.
  assert (H : fs_lookup (fs (Scenario.world Scenario.freshFs)) ["deployed"] = Some Dir)
    by reflexivity.
  split; [exact H|].
  destruct (deploy_removes_nothing Scenario.fold (Scenario.world Scenario.freshFs))
    as [_ Hk].
  apply Hk; [discriminate|discriminate|exact H].
Defined.

Lemma delete_touches_registry_and_target_only_witness :
  fs_lookup (fs Scenario.deployedWorld) ["deployed"] = Some Dir
  /\ fs_lookup (fs (snd (delete Scenario.fold Scenario.deployedWorld))) ["deployed"]
     = Some Dir.
Proof.
  assert (H : fs_lookup (fs Scenario.deployedWorld) ["deployed"] = Some Dir)
    by reflexivity.
  split; [exact H|].
  destruct (delete_touches_registry_and_target_only Scenario.fold
              Scenario.deployedWorld) as [_ Hk].
  apply Hk; [discriminate|reflexivity|exact H].
Defined.

Section ImageDeletionScenario.

#[local] Existing Instance WholeNumber.whole.

Lemma imageDelete_removes_the_image_witness :
  fst (isDownloaded Scenario.image (Scenario.world ImageScenario.downloadedFs))
    = Return true
  /\ fs_lookup
       (fs (snd (imageDelete Scenario.noIniReader [] Scenario.noProductConfig
                   Scenario.image (Scenario.world ImageScenario.downloadedFs))))
       ["images"; "system-image"; "HarmonyOS-6.0.2"; "pc_all_arm"] = None.
Proof.
  assert (H : fst (isDownloaded Scenario.image
                     (Scenario.world ImageScenario.downloadedFs)) = Return true)
    by reflexivity.
  split; [exact H|].
  destruct (imageDelete_removes_the_image Scenario.noIniReader []
              Scenario.noProductConfig Scenario.image
              (Scenario.world ImageScenario.downloadedFs)) as [_ Hd].
  destruct (Hd H) as [_ Hgone].
  apply Hgone; [discriminate|reflexivity].
Defined.

End ImageDeletionScenario.

(** ** What a download never does *)

Lemma keepsNodesOutside_bind {A B : Type} (p : list string) (m : M A) (k : A -> M B) :
  keepsNodesOutside p m -> (forall a, keepsNodesOutside p (k a)) ->
  keepsNodesOutside p (bind m k).
Proof.
  intros Hm Hk w q n Hin Hq. unfold bind. specialize (Hm w q n Hin Hq).
  destruct (m w) as [[a|e] w1]; simpl in Hm; [|exact Hm].
  now apply Hk.
Qed.

Lemma keepsNodesOutside_keeps {A : Type} (p : list string) (m : M A) :
  keepsFiles m -> keepsNodesOutside p m.
Proof. intros H w q n _ Hq. now rewrite H. Qed.

Lemma fs_write_effect (p : string) (c : content) (f f' : FS) :
  fs_write p c f = inr f' ->
  Path.segments p <> [] /\ f' = fs_put (Path.segments p) (File c) f.
Proof.
  unfold fs_write. destruct p as [|a p]; [discriminate|].
  destruct (Path.segments (String a p)) as [|s ss] eqn:Es; [discriminate|].
  destruct (fs_lookup f (removelast (s :: ss))) as [[?|]|]; try discriminate.
  destruct (fs_lookup f (s :: ss)) as [[?|]|]; try discriminate;
    intros H; injection H as <-; (split; [discriminate|reflexivity]).
Qed.

Section DownloadSafety.

Variable sizeOfDirectory : N.
Variable jsonText : json -> string.

(** X21. Whatever [startDownload] does and however it ends, every node
    that is not at or below the cache path is what it was: the call
    creates the cache directory when it is missing and writes the cache
    file, and touches nothing else. *)
Theorem startDownload_touches_the_cache_file_only (dl : ImageDownloader) (w : World)
    (q : list string) (n : node) :
  is_prefix (Path.segments (getCacheFsPath dl)) q = false ->
  fs_lookup (fs w) q = Some n ->
  fs_lookup (fs (snd (startDownload sizeOfDirectory jsonText dl w))) q = Some n.
Proof.
  revert w q n. change (keepsNodesOutside (Path.segments (getCacheFsPath dl))
                          (startDownload sizeOfDirectory jsonText dl)).
  set (p := Path.segments (getCacheFsPath dl)).
  assert (Hput : forall c f x m, p <> [] -> is_prefix p x = false ->
            fs_lookup f x = Some m -> fs_lookup (fs_put p (File c) f) x = Some m).
  { intros c f x m Hne Hx Hm. rewrite fs_lookup_put_other; [exact Hm|exact Hne|].
    intros ->. now rewrite is_prefix_refl in Hx. }
  unfold startDownload. cbv zeta.
  apply keepsNodesOutside_bind.
  { unfold ensureCacheDirectory. cbv zeta.
    apply keepsNodesOutside_bind;
      [apply keepsNodesOutside_keeps, keepsFiles_reads, readsOnly_existsSync|].
    intros present. unfold when. destruct (negb present).
    - intros w q n _ Hq. now apply mkdirSync_keeps.
    - apply keepsNodesOutside_keeps, keepsFiles_ret. }
  intros _. apply keepsNodesOutside_bind.
  { apply keepsNodesOutside_keeps, keepsFiles_reads. unfold startByteOf.
    apply readsOnly_bind; [apply readsOnly_existsSync|]. intros present.
    destruct present; [|apply readsOnly_ret].
    apply readsOnly_bind; [apply readsOnly_statSync|]. intros st. apply readsOnly_ret. }
  intros startByte. apply keepsNodesOutside_bind.
  { apply keepsNodesOutside_keeps. intros w. unfold axios_get.
    destruct (http w _) as [|status chunks complete]; [reflexivity|].
    destruct (validateStatus status); reflexivity. }
  intros [[status chunks] complete]. apply keepsNodesOutside_bind.
  { unfold when. destruct (_ && _); [|apply keepsNodesOutside_keeps, keepsFiles_ret].
    intros w q n Hq Hn. unfold rmSync, lift_fs. fold p.
    assert (Hrm : fs_lookup (fs_remove_tree p (fs w)) q = Some n).
    { destruct q as [|x q]; [exact Hn|]. simpl in *. unfold fs_remove_tree.
      now rewrite Hq. }
    destruct (match getCacheFsPath dl with
              | EmptyString => None
              | _ => fs_lookup (fs w) p
              end) as [[c|]|]; simpl; assumption. }
  intros _ w q n Hq Hn. unfold pipeToFile.
  destruct (fs_write (getCacheFsPath dl) _ (fs w)) as [e|f'] eqn:Ew; [exact Hn|].
  destruct (fs_write_effect _ _ _ _ Ew) as [Hne ->]. fold p in Hne |- *.
  destruct complete; simpl; now apply Hput.
Qed.

End DownloadSafety.

Lemma startDownload_touches_the_cache_file_only_witness :
  fs_lookup (fs (Scenario.online 200 Scenario.partialFs)) ["images"; "cache"] = Some Dir
  /\ fs_lookup
       (fs (snd (startDownload 4096 (fun _ => "") Scenario.downloader
                   (Scenario.online 200 Scenario.partialFs))))
       ["images"; "cache"] = Some Dir.
Proof.
  assert (H : fs_lookup (fs (Scenario.online 200 Scenario.partialFs))
                ["images"; "cache"] = Some Dir) by reflexivity.
  split; [exact H|].
  exact (startDownload_touches_the_cache_file_only 4096 (fun _ => "")
           Scenario.downloader (Scenario.online 200 Scenario.partialFs)
           ["images"; "cache"] Dir eq_refl H).
Defined.
